(** * DeepDir: scan orchestration engine and result pipeline

    A shallow embedding of the Python sources [core/config.py],
    [core/scanner.py], [modules/intelligent_filter.py],
    [modules/brute_forcer.py], [modules/crawler.py],
    [modules/fuzzer.py], the counters of
    [modules/realtime_monitor.py] and [deepdir.py], followed by the
    properties proved about them.

    Conventions.
    - A Python [int] is a [Z]; a Python [float] is a binary64 [float].
    - A Python [str] is a [string], one character per element.  The
      model compares characters and never asks what a character is:
      case folding and the removal of white space, which depend on
      Unicode, are collaborators.
    - A scan result is a Python [dict]; the record [Result] keeps the
      keys the modelled code reads.  Every producer of results sets all
      of them, so the defaults of [dict.get] never show.
    - A collaborator is a function: asked the same twice it answers
      the same.  The crawler keeps the set of URLs it has visited from
      one call to the next: its scan takes that set and gives it
      back.  The scheduler takes its workers and the completion of
      their futures as parameters, so what is proved of it holds
      whatever the workers return and whenever they finish.
    - [dict] is [gmap], [set] is [gset].
    - Library and network calls ([str.lower], [str.strip], [re.sub],
      [re.search], [hashlib.md5], [urljoin], [urlparse],
      [random.uniform], [requests]), the crawler and the fuzzer are
      the fields of the class [Collaborators]. *)

From stdpp Require Import gmap strings list fin_maps pretty sorting.
From Stdlib Require Import ZArith PrimFloat Permutation Ascii.

Open Scope string_scope.
Open Scope Z_scope.
Open Scope list_scope.

#[local] Set Warnings "-clear-no-such-hyp".

(** ** Python built-ins on [str] *)

Module Py.

Definition startswith (s p : string) : bool := String.prefix p s.

Definition endswith (s p : string) : bool :=
  String.prefix (String.rev p) (String.rev s).

(** [sub in s] *)
Fixpoint str_in (sub s : string) : bool :=
  String.prefix sub s ||
  match s with
  | EmptyString => false
  | String _ s' => str_in sub s'
  end.

(** The case folding and the white space of ASCII.  [str.lower],
    [str.strip] and the class [\s] of [re] know all of Unicode, and
    the code calls them as they are: they are collaborators below.
    On a text of ASCII characters they do what the next functions
    do, which the sample collaborators take for them. *)
Definition ascii_lower (c : Ascii.ascii) : Ascii.ascii :=
  let n := Ascii.N_of_ascii c in
  if ((65 <=? n) && (n <=? 90))%N then Ascii.ascii_of_N (n + 32) else c.

(** [s.lower()] for an ASCII [s] *)
Fixpoint lower_ascii (s : string) : string :=
  match s with
  | EmptyString => EmptyString
  | String c s' => String (ascii_lower c) (lower_ascii s')
  end.

(** The ASCII characters matched by [\s]. *)
Definition isspace_ascii (c : Ascii.ascii) : bool :=
  let n := Ascii.N_of_ascii c in
  (((9 <=? n) && (n <=? 13)) || ((28 <=? n) && (n <=? 32)))%N.

(** [re.sub(r'\s+', '', s)] for an ASCII [s] *)
Fixpoint strip_whitespace_ascii (s : string) : string :=
  match s with
  | EmptyString => EmptyString
  | String c s' =>
      if isspace_ascii c then strip_whitespace_ascii s'
      else String c (strip_whitespace_ascii s')
  end.

(** [s[:n]] *)
Fixpoint take_chars (n : nat) (s : string) : string :=
  match n, s with
  | S n', String c s' => String c (take_chars n' s')
  | _, _ => EmptyString
  end.

(** [s.split('/')[-1]]: what follows the last [/]. *)
Fixpoint last_segment (s : string) : string :=
  match s with
  | EmptyString => EmptyString
  | String c s' =>
      if str_in "/" s' then last_segment s'
      else if Ascii.eqb c "/"%char then s' else s
  end.

(** [s.lstrip()], [s.rstrip()] and [s.strip()] for an ASCII [s] *)
Fixpoint lstrip_ascii (s : string) : string :=
  match s with
  | EmptyString => EmptyString
  | String c s' => if isspace_ascii c then lstrip_ascii s' else s
  end.

Definition rstrip_ascii (s : string) : string :=
  String.rev (lstrip_ascii (String.rev s)).

Definition strip_ascii (s : string) : string :=
  rstrip_ascii (lstrip_ascii s).

(** All characters of [s] are ASCII characters. *)
Fixpoint is_ascii (s : string) : bool :=
  match s with
  | EmptyString => true
  | String c s' => (Ascii.N_of_ascii c <? 128)%N && is_ascii s'
  end.

(** Truth value of a [str]. *)
Definition str_truthy (s : string) : bool :=
  match s with EmptyString => false | _ => true end.

(** [str(n)] and the [{n}] of an f-string. *)
Definition str_of_int (n : Z) : string := pretty n.

(** Truth value of a [float]: zero (of either sign) is false. *)
Definition float_truthy (x : float) : bool := negb (PrimFloat.eqb x 0%float).

(** Truth value of an [int]. *)
Definition int_truthy (n : Z) : bool := negb (n =? 0).

(** Truth value of a list. *)
Definition list_truthy {A} (l : list A) : bool :=
  match l with [] => false | _ => true end.

(** Truth value of an [Optional[str]]. *)
Definition opt_str_truthy (o : option string) : bool :=
  match o with
  | Some (String _ _) => true
  | _ => false
  end.

End Py.

(** ** Data model *)

(** A scan result (the [dict] built by the probe sources). *)
Record Result := mkResult {
  url : string;
  status_code : Z;
  content_length : Z;
  content : string;
  scan_type : string
}.

Global Instance Result_eq_dec : EqDecision Result.
Proof. solve_decision. Defined.

(** [ScanConfig] of [core/config.py]. *)
Record ScanConfig := mkScanConfig {
  urls : list string;
  url_file : option string;
  wordlists : list string;
  extensions : list string;
  brute_force : bool;
  crawling : bool;
  recursive : bool;
  max_depth : Z;
  recursion_status_codes : list Z;
  fuzz_patterns : bool;
  anti_waf : bool;
  threads : Z;
  delay : float;
  random_delay_min : float;
  random_delay_max : float;
  timeout : float;
  max_rate : Z;
  include_status_codes : list Z;
  exclude_status_codes : list Z;
  min_response_size : Z;
  max_response_size : Z;
  exclude_sizes : list string;
  exclude_text : list string;
  exclude_regex : list string;
  user_agent : string;
  http_method : string;
  follow_redirects : bool
}.

(** [ScanConfig()] after [__post_init__]. *)
Definition default_config : ScanConfig := {|
  urls := [];
  url_file := None;
  wordlists := [];
  extensions := ["php"; "html"; "js"; "txt"];
  brute_force := true;
  crawling := true;
  recursive := false;
  max_depth := 2;
  recursion_status_codes := [200; 301; 302; 403];
  fuzz_patterns := false;
  anti_waf := false;
  threads := 10;
  delay := 0%float;
  random_delay_min := 0%float;
  random_delay_max := 0%float;
  timeout := 10%float;
  max_rate := 0;
  include_status_codes := [200; 301; 302; 403];
  exclude_status_codes := [404; 429];
  min_response_size := 0;
  max_response_size := 0;
  exclude_sizes := [];
  exclude_text := [];
  exclude_regex := [];
  user_agent := "DeepDir/5.0";
  http_method := "GET";
  follow_redirects := false
|}.

(** The configuration with [max_rate] replaced and every other field kept. *)
Definition set_max_rate (rate : Z) (c : ScanConfig) : ScanConfig := {|
  urls := urls c;
  url_file := url_file c;
  wordlists := wordlists c;
  extensions := extensions c;
  brute_force := brute_force c;
  crawling := crawling c;
  recursive := recursive c;
  max_depth := max_depth c;
  recursion_status_codes := recursion_status_codes c;
  fuzz_patterns := fuzz_patterns c;
  anti_waf := anti_waf c;
  threads := threads c;
  delay := delay c;
  random_delay_min := random_delay_min c;
  random_delay_max := random_delay_max c;
  timeout := timeout c;
  max_rate := rate;
  include_status_codes := include_status_codes c;
  exclude_status_codes := exclude_status_codes c;
  min_response_size := min_response_size c;
  max_response_size := max_response_size c;
  exclude_sizes := exclude_sizes c;
  exclude_text := exclude_text c;
  exclude_regex := exclude_regex c;
  user_agent := user_agent c;
  http_method := http_method c;
  follow_redirects := follow_redirects c
|}.

(** An HTTP request as [BruteForcer._make_request] issues it. *)
Record Request := mkRequest {
  req_method : string;
  req_url : string;
  req_timeout : float;
  req_allow_redirects : bool
}.

(** What the modelled code reads of a [requests.Response]. *)
Record Response := mkResponse {
  resp_status_code : Z;
  resp_content_len : Z;     (* len(response.content) *)
  resp_text : string        (* response.text *)
}.

(** [session.request] returns a response or raises a
    [requests.exceptions.RequestException] (time-out, refused
    connection, ...) whose text is carried along. *)
Inductive HttpOutcome :=
| HttpResponse (r : Response)
| RequestException (msg : string).

(** Library calls and external collaborators.  A [None] stands for a
    raised exception. *)
Class Collaborators := {
  (** [s.lower()] *)
  str_lower : string -> string;
  (** [s.strip()] *)
  str_strip : string -> string;
  (** [re.sub(r'\s+', '', s)] *)
  remove_whitespace : string -> string;
  (** [re.search(pattern, text, re.IGNORECASE)] found a match *)
  re_search : string -> string -> bool;
  (** [hashlib.md5(s.encode()).hexdigest()] *)
  md5_hexdigest : string -> string;
  (** [urllib.parse.urljoin] *)
  urljoin : string -> string -> string;
  (** [random.uniform] *)
  random_uniform : float -> float -> float;
  (** [session.request] *)
  session_request : Request -> HttpOutcome;
  (** [Crawler.scan] on a crawler whose attribute [visited] holds
      the set given: what it returns and what [visited] holds
      afterwards, also when it raises; of the configuration it reads
      [timeout] *)
  crawler_scan :
    float -> string -> gset string -> option (list Result) * gset string;
  (** [Fuzzer.scan]; of the configuration it reads [extensions],
      [user_agent] and [timeout] *)
  fuzzer_scan :
    list string -> string -> float -> string -> option (list Result);
  (** [re.findall(url_pattern, text, re.IGNORECASE)] for the pattern
      of [DeepScanner._extract_new_urls]: the values of the [href]
      attributes *)
  find_hrefs : string -> list string;
  (** [urllib.parse.urlparse]: scheme and network location *)
  urlparse : string -> option (string * string)
}.

(** ** [core/config.py]: [Config.validate] *)

Module Config.

(** [validate] returns the verdict and the configuration it leaves
    behind; [default_wordlists] is what [get_default_wordlists]
    finds on disk. *)
Definition validate (default_wordlists : list string) (c : ScanConfig)
  : bool * ScanConfig :=
  if negb (Py.list_truthy (urls c)) && negb (Py.opt_str_truthy (url_file c))
  then (false, c)
  else if negb (Py.list_truthy (wordlists c))
       then (true, mkScanConfig
               (urls c) (url_file c) default_wordlists (extensions c)
               (brute_force c) (crawling c) (recursive c) (max_depth c)
               (recursion_status_codes c) (fuzz_patterns c) (anti_waf c)
               (threads c) (delay c) (random_delay_min c)
               (random_delay_max c) (timeout c) (max_rate c)
               (include_status_codes c) (exclude_status_codes c)
               (min_response_size c) (max_response_size c)
               (exclude_sizes c) (exclude_text c) (exclude_regex c)
               (user_agent c) (http_method c) (follow_redirects c))
       else (true, c).

End Config.

(** ** [modules/intelligent_filter.py] *)

Module IntelligentFilter.
Section Filter.
Context `{Collaborators}.

(** [_load_false_positive_patterns] *)
Definition false_positive_patterns : list string := [
  "404.*not.*found";
  "page.*not.*found";
  "file.*not.*found";
  "directory.*not.*found";
  "403.*forbidden";
  "access.*denied";
  "unauthorized";
  "permission.*denied";
  "server.*error";
  "internal.*server.*error";
  "bad.*request";
  "method.*not.*allowed";
  "service.*unavailable";
  "gateway.*timeout";
  "bad.*gateway"
].

Definition _format_size (size : Z) : string :=
  if size <? 1024 then Py.str_of_int size +:+ "B"
  else if size <? 1024 * 1024 then Py.str_of_int (size `div` 1024) +:+ "KB"
  else Py.str_of_int (size `div` (1024 * 1024)) +:+ "MB".

Definition _matches_size (size_str pattern : string) : bool :=
  bool_decide (size_str = pattern).

Definition _is_false_positive (body : string) : bool :=
  let content_lower := str_lower body in
  existsb (fun pattern => re_search pattern content_lower)
          false_positive_patterns.

Definition _is_interesting (cfg : ScanConfig) (result : Result) : bool :=
  let status := status_code result in
  let len := content_length result in
  let body := content result in
  (* Status code filtering *)
  if Py.list_truthy (include_status_codes cfg)
     && negb (bool_decide (status ∈ include_status_codes cfg))
  then false
  else if bool_decide (status ∈ exclude_status_codes cfg) then false
  (* Size filtering *)
  else if Py.int_truthy (min_response_size cfg)
          && (len <? min_response_size cfg)
  then false
  else if Py.int_truthy (max_response_size cfg)
          && (len >? max_response_size cfg)
  then false
  (* Size exclusion *)
  else if existsb (fun excl => _matches_size (_format_size len) excl)
                  (exclude_sizes cfg)
  then false
  (* Content filtering *)
  else if _is_false_positive body then false
  (* Text exclusion *)
  else if existsb (fun excl_text => Py.str_in excl_text body)
                  (exclude_text cfg)
  then false
  (* Regex exclusion *)
  else if existsb (fun pattern => re_search pattern body)
                  (exclude_regex cfg)
  then false
  else true.

(** The key [f"{url}:{status_code}"]. *)
Definition dedup_key (result : Result) : string :=
  url result +:+ ":" +:+ Py.str_of_int (status_code result).

(** The loop of [_remove_duplicates], over what is left of the
    input, with the locals [seen] and [unique_results]. *)
Fixpoint _remove_duplicates_loop (results : list Result)
    (seen : gset string) (unique_results : list Result) : list Result :=
  match results with
  | [] => unique_results
  | result :: rest =>
      let key := dedup_key result in
      if bool_decide (key ∈ seen)
      then _remove_duplicates_loop rest seen unique_results
      else _remove_duplicates_loop rest ({[key]} ∪ seen)
             (unique_results ++ [result])
  end.

Definition _remove_duplicates (results : list Result) : list Result :=
  _remove_duplicates_loop results ∅ [].

Definition _calculate_content_hash (body : string) : string :=
  md5_hexdigest (remove_whitespace (str_lower body)).

Definition _is_better_result (new_result existing_result : Result) : bool :=
  let new_status := status_code new_result in
  let existing_status := status_code existing_result in
  if (new_status =? 200) && negb (existing_status =? 200) then true
  else if (existing_status =? 200) && negb (new_status =? 200) then false
  else new_status <? existing_status.

(** The inner [for i, r in enumerate(unique_results)] with its
    [break]: the first entry whose URL is [existing_url] becomes
    [result]. *)
Fixpoint replace_first (existing_url : string) (result : Result)
    (unique_results : list Result) : list Result :=
  match unique_results with
  | [] => []
  | r :: rest =>
      if bool_decide (url r = existing_url) then result :: rest
      else r :: replace_first existing_url result rest
  end.

(** The loop of [_remove_similar_responses]; [response_cache] is
    an attribute of the filter and outlives the call. *)
Fixpoint _remove_similar_loop (results : list Result)
    (response_cache : gmap string Result) (unique_results : list Result)
  : list Result * gmap string Result :=
  match results with
  | [] => (unique_results, response_cache)
  | result :: rest =>
      let content_hash := _calculate_content_hash (content result) in
      match response_cache !! content_hash with
      | None =>
          _remove_similar_loop rest (<[content_hash := result]> response_cache)
            (unique_results ++ [result])
      | Some existing =>
          if _is_better_result result existing
          then _remove_similar_loop rest
                 (<[content_hash := result]> response_cache)
                 (replace_first (url existing) result unique_results)
          else _remove_similar_loop rest response_cache unique_results
      end
  end.

Definition _remove_similar_responses (results : list Result)
    (response_cache : gmap string Result)
  : list Result * gmap string Result :=
  _remove_similar_loop results response_cache [].

Definition filter_results (cfg : ScanConfig) (results : list Result)
    (response_cache : gmap string Result)
  : list Result * gmap string Result :=
  let filtered := filter (fun r => _is_interesting cfg r = true) results in
  let filtered := _remove_duplicates filtered in
  _remove_similar_responses filtered response_cache.

(** [sort_key] of [prioritize_results]. *)
Definition sort_key (result : Result) : Z :=
  let status := status_code result in
  let len := content_length result in
  let priority := 0 in
  let priority :=
    if status =? 200 then priority + 0
    else if bool_decide (status ∈ [301; 302]) then priority + 1
    else if status =? 403 then priority + 2
    else if status =? 401 then priority + 3
    else priority + 10 in
  let priority :=
    if len =? 0 then priority + 5
    else if len <? 100 then priority + 2
    else if len >? 1000000 then priority + 1
    else priority in
  priority.

End Filter.

(** Python's [sorted(xs, key=key)]: ascending and stable.  Taken as
    insertion from the right, where an element goes in front of the
    first one whose key is not smaller. *)
Fixpoint sorted_insert {A} (key : A -> Z) (x : A) (xs : list A) : list A :=
  match xs with
  | [] => [x]
  | y :: ys =>
      if key x <=? key y then x :: y :: ys
      else y :: sorted_insert key x ys
  end.

Fixpoint sorted {A} (key : A -> Z) (xs : list A) : list A :=
  match xs with
  | [] => []
  | x :: rest => sorted_insert key x (sorted key rest)
  end.

Definition prioritize_results (results : list Result) : list Result :=
  sorted sort_key results.

End IntelligentFilter.

(** ** Observable effects

    What the modelled code does to the outside, in order: requests
    sent, [time.sleep] calls and log records. *)
Inductive Event :=
| EvRequest (r : Request)
| EvSleep (seconds : float)
| EvLog (level message : string).

(** ** [modules/brute_forcer.py] *)

Module BruteForcer.
Section Brute.
Context `{Collaborators}.

Definition _make_request (cfg : ScanConfig) (target_url : string)
  : option Result * list Event :=
  let request := {| req_method := http_method cfg;
                    req_url := target_url;
                    req_timeout := timeout cfg;
                    req_allow_redirects := follow_redirects cfg |} in
  match session_request request with
  | HttpResponse response =>
      let text := resp_text response in
      let result := {|
        url := target_url;
        status_code := resp_status_code response;
        content_length := resp_content_len response;
        content := if (1000 <? String.length text)%nat
                   then Py.take_chars 1000 text else text;
        scan_type := "brute_force" |} in
      (Some result,
       EvRequest request ::
       (if negb (bool_decide (resp_status_code response ∈ [404; 429]))
        then [EvLog "DEBUG"
                ("Found: " +:+ Py.str_of_int (resp_status_code response)
                 +:+ " - " +:+ target_url)]
        else []))
  | RequestException e =>
      (None,
       [EvRequest request;
        EvLog "DEBUG" ("Request failed for " +:+ target_url +:+ ": " +:+ e)])
  end.

Definition _apply_delay (cfg : ScanConfig) : list Event :=
  let d := delay cfg in
  let d := if Py.float_truthy (random_delay_min cfg)
              && Py.float_truthy (random_delay_max cfg)
           then PrimFloat.add d
                  (random_uniform (random_delay_min cfg) (random_delay_max cfg))
           else d in
  if PrimFloat.ltb 0%float d then [EvSleep d] else [].

(** The URL probed for one word of the word list. *)
Definition target_url_of (base_url word : string) : string :=
  let target_url :=
    if Py.startswith word "/"
    then urljoin base_url (match word with
                           | String _ w => w
                           | EmptyString => EmptyString
                           end)
    else urljoin base_url word in
  if negb (Py.endswith target_url "/")
     && negb (Py.str_in "." (Py.last_segment target_url))
  then target_url +:+ "/"
  else target_url.

(** The body of the [for word in self.wordlist] loop. *)
Fixpoint scan_loop (cfg : ScanConfig) (base_url : string)
    (words : list string) (results : list Result) (events : list Event)
  : list Result * list Event :=
  match words with
  | [] => (results, events)
  | word :: rest =>
      let target_url := target_url_of base_url word in
      let '(result, evs) := _make_request cfg target_url in
      let results := match result with
                     | Some r => results ++ [r]
                     | None => results
                     end in
      scan_loop cfg base_url rest results
        (events ++ evs ++ _apply_delay cfg)
  end.

(** [scan]; [wordlist] is the attribute [self.wordlist]. *)
Definition scan (cfg : ScanConfig) (wordlist : list string)
    (base_url : string) : list Result * list Event :=
  scan_loop cfg base_url wordlist []
    [EvLog "INFO"
       ("Starting brute force scan on " +:+ base_url +:+ " with "
        +:+ pretty (length wordlist) +:+ " words")].

End Brute.
End BruteForcer.

(** ** [modules/crawler.py] and [modules/fuzzer.py]: one request

    The scans of the crawler and of the fuzzer are collaborators;
    the functions by which they send one request are modelled. *)

Module Crawler.
Section Crawl.
Context `{Collaborators}.

(** [session.get(url, timeout=...)]: a [GET] that follows
    redirects. *)
Definition get_request (cfg : ScanConfig) (target_url : string) : Request :=
  {| req_method := "GET";
     req_url := target_url;
     req_timeout := timeout cfg;
     req_allow_redirects := true |}.

Definition _crawl_url (cfg : ScanConfig) (target_url : string)
  : option Result * list Event :=
  match session_request (get_request cfg target_url) with
  | HttpResponse response =>
      (Some {| url := target_url;
               status_code := resp_status_code response;
               content_length := resp_content_len response;
               content := resp_text response;
               scan_type := "crawler" |},
       [EvRequest (get_request cfg target_url)])
  | RequestException e =>
      (None,
       [EvRequest (get_request cfg target_url);
        EvLog "DEBUG" ("Crawl failed for " +:+ target_url +:+ ": " +:+ e)])
  end.

End Crawl.
End Crawler.

Module Fuzzer.
Section Fuzz.
Context `{Collaborators}.

Definition _make_request (cfg : ScanConfig) (target_url : string)
  : option Result * list Event :=
  match session_request (Crawler.get_request cfg target_url) with
  | HttpResponse response =>
      (* Only return interesting results *)
      if negb (bool_decide (resp_status_code response ∈ [404; 403; 429]))
      then
        let text := resp_text response in
        (Some {| url := target_url;
                 status_code := resp_status_code response;
                 content_length := resp_content_len response;
                 content := if (500 <? String.length text)%nat
                            then Py.take_chars 500 text else text;
                 scan_type := "fuzzer" |},
         [EvRequest (Crawler.get_request cfg target_url)])
      else (None, [EvRequest (Crawler.get_request cfg target_url)])
  | RequestException _ =>
      (None, [EvRequest (Crawler.get_request cfg target_url)])
  end.

End Fuzz.
End Fuzzer.

(** ** [modules/realtime_monitor.py]: the counters *)

Module RealtimeMonitor.

(** Of the ten entries of [self.stats], the four counters of
    requests and paths.  The other six are the two times of the
    clock, [None] at first, and the four entries derived from it
    ([current_speed], [average_speed], [elapsed_time],
    [estimated_time_remaining]); [_calculate_derived_stats] reads
    [total_requests] and writes none of the four counters. *)
Definition initial_stats : gmap string Z :=
  <["total_requests" := 0]>
    (<["successful_requests" := 0]>
       (<["failed_requests" := 0]>
          (<["found_paths" := 0]> ∅))).

(** [update_stats] on the four counters, for keyword arguments
    that are of type [int] and name one of the four or no entry of
    [self.stats]: the counter named grows by the value, a name that
    is no key is ignored.  [_scan_url], the one caller, passes
    [total_requests] and [found_paths] with a length each. *)
Fixpoint update_stats (kwargs : list (string * Z)) (stats : gmap string Z)
  : gmap string Z :=
  match kwargs with
  | [] => stats
  | (key, value) :: rest =>
      match stats !! key with
      | Some old => update_stats rest (<[key := old + value]> stats)
      | None => update_stats rest stats
      end
  end.

End RealtimeMonitor.

(** ** [core/scanner.py] *)

(** How a call ends: it returns, it raises, or the model ran out of
    fuel before the loop ended. *)
Inductive Outcome (A : Type) :=
| Returned (a : A)
| Raised
| OutOfFuel.
Arguments Returned {A} a.
Arguments Raised {A}.
Arguments OutOfFuel {A}.

Module DeepScanner.

(** *** One unit of work: [_scan_url] *)

(** The attributes of the scanner that [_scan_url] reads and
    writes, and the effects it has had so far. *)
Record ScannerState := mkScannerState {
  monitor_stats : gmap string Z;        (* monitor.stats *)
  is_monitoring : bool;                 (* monitor.is_monitoring *)
  response_cache : gmap string Result;  (* intelligent_filter.response_cache *)
  crawler_visited : gset string;        (* crawler.visited *)
  trace : list Event
}.

Definition initial_scanner_state : ScannerState := {|
  monitor_stats := RealtimeMonitor.initial_stats;
  is_monitoring := false;
  response_cache := ∅;
  crawler_visited := ∅;
  trace := []
|}.

Definition start_monitoring (st : ScannerState) : ScannerState :=
  if is_monitoring st then st
  else {| monitor_stats := monitor_stats st;
          is_monitoring := true;
          response_cache := response_cache st;
          crawler_visited := crawler_visited st;
          trace := trace st ++ [EvLog "INFO" "Real-time monitoring started"] |}.

Definition monitor_update (kwargs : list (string * Z)) (st : ScannerState)
  : ScannerState :=
  {| monitor_stats := RealtimeMonitor.update_stats kwargs (monitor_stats st);
     is_monitoring := is_monitoring st;
     response_cache := response_cache st;
     crawler_visited := crawler_visited st;
     trace := trace st |}.

Definition emit (events : list Event) (st : ScannerState) : ScannerState :=
  {| monitor_stats := monitor_stats st;
     is_monitoring := is_monitoring st;
     response_cache := response_cache st;
     crawler_visited := crawler_visited st;
     trace := trace st ++ events |}.

Definition set_response_cache (cache : gmap string Result)
    (st : ScannerState) : ScannerState :=
  {| monitor_stats := monitor_stats st;
     is_monitoring := is_monitoring st;
     response_cache := cache;
     crawler_visited := crawler_visited st;
     trace := trace st |}.

Definition set_crawler_visited (visited : gset string)
    (st : ScannerState) : ScannerState :=
  {| monitor_stats := monitor_stats st;
     is_monitoring := is_monitoring st;
     response_cache := response_cache st;
     crawler_visited := visited;
     trace := trace st |}.

(** [result.update(analysis)] on the keys of [Result]: the analysis
    is made of a mock response whose [content] is the stored text,
    so [content_length] becomes the length of that text; [url] and
    [status_code] are written back unchanged. *)
Definition analyze_update (result : Result) : Result := {|
  url := url result;
  status_code := status_code result;
  content_length := Z.of_nat (String.length (content result));
  content := content result;
  scan_type := scan_type result
|}.

Section ScanUrl.
Context `{Collaborators}.

(** [_scan_url]; [None] when the crawler or the fuzzer raises.
    The crawler is the one object [self.crawler]: what it has
    visited stays visited for the calls to come, also when its scan
    raises.  The header rotation of [AntiWAF.apply_techniques]
    touches none of the modelled state. *)
Definition _scan_url (cfg : ScanConfig) (wordlist : list string)
    (target : string) (depth : Z) (st : ScannerState)
  : option (list Result) * ScannerState :=
  let st := start_monitoring st in
  let results : list Result := [] in
  (* Brute force mode *)
  let '(results, st) :=
    if brute_force cfg then
      let '(brute_results, events) := BruteForcer.scan cfg wordlist target in
      (results ++ brute_results,
       monitor_update [("total_requests", Z.of_nat (length brute_results))]
         (emit events st))
    else (results, st) in
  (* Crawling mode *)
  match (if crawling cfg then
           let '(crawled, visited) :=
             crawler_scan (timeout cfg) target (crawler_visited st) in
           let st := set_crawler_visited visited st in
           match crawled with
           | Some crawl_results =>
               (Some (results ++ crawl_results),
                monitor_update
                  [("total_requests", Z.of_nat (length crawl_results))] st)
           | None => (None, st)
           end
         else (Some results, st)) with
  | (None, st) => (None, st)
  | (Some results, st) =>
      (* Fuzzing mode *)
      match (if fuzz_patterns cfg then
               match fuzzer_scan (extensions cfg) (user_agent cfg)
                       (timeout cfg) target with
               | Some fuzz_results =>
                   Some (results ++ fuzz_results,
                         monitor_update
                           [("total_requests", Z.of_nat (length fuzz_results))] st)
               | None => None
               end
             else Some (results, st)) with
      | None => (None, st)
      | Some (results, st) =>
          (* Analyze content for each result *)
          let results := map analyze_update results in
          (* Apply intelligent filtering *)
          let '(filtered_results, cache) :=
            IntelligentFilter.filter_results cfg results (response_cache st) in
          let filtered_results :=
            IntelligentFilter.prioritize_results filtered_results in
          let st := set_response_cache cache st in
          let st := monitor_update
                      [("found_paths", Z.of_nat (length filtered_results))] st in
          (Some filtered_results, st)
      end
  end.

Definition _should_recurse (cfg : ScanConfig) (result : Result) : bool :=
  bool_decide (status_code result ∈ recursion_status_codes cfg).

(** The loop [for match in matches] of [_extract_new_urls];
    [parsed_base] is the scheme and the network location of the URL
    of the result. *)
Fixpoint extract_loop (base_url : string) (parsed_base : string * string)
    (matches : list string) (found : list string) : option (list string) :=
  match matches with
  | [] => Some found
  | m :: rest =>
      let new_url :=
        if Py.startswith m "/"
        then parsed_base.1 +:+ "://" +:+ parsed_base.2 +:+ m
        else if Py.startswith m "http://" || Py.startswith m "https://"
             then m
             else urljoin base_url m in
      (* Only include URLs from same domain *)
      match urlparse new_url with
      | Some parsed_new =>
          if bool_decide (parsed_new.2 = parsed_base.2)
          then extract_loop base_url parsed_base rest (found ++ [new_url])
          else extract_loop base_url parsed_base rest found
      | None => None
      end
  end.

(** [_extract_new_urls]; [None] when [urlparse] raises. *)
Definition _extract_new_urls (result : Result) : option (list string) :=
  let body := content result in
  let matches := find_hrefs body in
  let base_url := url result in
  match urlparse base_url with
  | Some parsed_base => extract_loop base_url parsed_base matches []
  | None => None
  end.

End ScanUrl.

(** *** The scheduler: [scan_target] and [scan_targets] *)

(** The state of the scheduling loop.  [scan_queue], [futures] and
    [results] are locals of [scan_target]; [visited_urls] is an
    attribute of the scanner; [world] is whatever the workers act
    on.  [submitted] records every [executor.submit] in order,
    [error_log] the URLs of the [logger.error] records, and [polls]
    counts the rounds of the outer loop; the code has no such
    variables, they make the run observable.  A future is known by
    its rank among all submissions. *)
Record State (W : Type) := mkState {
  scan_queue : list (string * Z);
  futures : list (nat * string * Z);
  results : list Result;
  visited_urls : gset string;
  world : W;
  submitted : list (nat * string * Z);
  error_log : list string;
  polls : nat
}.
Arguments mkState {W}.
Arguments scan_queue {W}.
Arguments futures {W}.
Arguments results {W}.
Arguments visited_urls {W}.
Arguments world {W}.
Arguments submitted {W}.
Arguments error_log {W}.
Arguments polls {W}.

Definition initial_state {W} (w : W) : State W :=
  mkState [] [] [] ∅ w [] [] 0%nat.

(** [list.remove(x)]: the first element equal to [x] goes. *)
Fixpoint list_remove {A} `{EqDecision A} (x : A) (l : list A) : list A :=
  match l with
  | [] => []
  | y :: l' => if decide (y = x) then l' else y :: list_remove x l'
  end.

(** [target.startswith(('http://', 'https://'))] decides whether
    the scheme is added. *)
Definition normalize_target (target : string) : string :=
  if negb (Py.startswith target "http://" || Py.startswith target "https://")
  then "https://" +:+ target
  else target.

Section Scheduler.
Context `{Collaborators}.
Context {W : Type}.
(** [run target depth] is the call [self._scan_url(target, depth)]
    made by a worker: its result ([None] if it raises) and its
    effect on the world. *)
Variable run : string -> Z -> W -> option (list Result) * W.
(** [done round i]: in round [round] of the outer loop,
    [future.done()] holds of the [i]-th submitted future. *)
Variable done : nat -> nat -> bool.
Variable cfg : ScanConfig.

(** [for new_url in new_urls: if new_url not in self.visited_urls: ...] *)
Fixpoint enqueue_new_urls (new_urls : list string) (depth : Z)
    (st : State W) : State W :=
  match new_urls with
  | [] => st
  | new_url :: rest =>
      if bool_decide (new_url ∈ visited_urls st)
      then enqueue_new_urls rest depth st
      else enqueue_new_urls rest depth
             (mkState (scan_queue st ++ [(new_url, depth + 1)])
                (futures st) (results st)
                ({[new_url]} ∪ visited_urls st)
                (world st) (submitted st) (error_log st) (polls st))
  end.

(** [for result in scan_results: if self._should_recurse(result): ...];
    the flag is false when [_extract_new_urls] raised, which
    leaves the loop with what was enqueued before. *)
Fixpoint recurse_into (scan_results : list Result) (depth : Z)
    (st : State W) : bool * State W :=
  match scan_results with
  | [] => (true, st)
  | result :: rest =>
      if _should_recurse cfg result then
        match _extract_new_urls result with
        | Some new_urls =>
            recurse_into rest depth (enqueue_new_urls new_urls depth st)
        | None => (false, st)
        end
      else recurse_into rest depth st
  end.

Definition log_error (target : string) (st : State W) : State W :=
  mkState (scan_queue st) (futures st) (results st) (visited_urls st)
    (world st) (submitted st) (error_log st ++ [target]) (polls st).

(** The body of [for future, url, depth in futures[:]]. *)
Definition process_future (f : nat * string * Z) (st : State W) : State W :=
  let '(i, target, depth) := f in
  if done (polls st) i then
    let remaining := list_remove f (futures st) in
    match run target depth (world st) with
    | (Some scan_results, w) =>
        let st := mkState (scan_queue st) remaining
                    (results st ++ scan_results) (visited_urls st) w
                    (submitted st) (error_log st) (polls st) in
        if recursive cfg && (depth <? max_depth cfg) then
          let '(ok, st) := recurse_into scan_results depth st in
          if ok then st else log_error target st
        else st
    | (None, w) =>
        log_error target
          (mkState (scan_queue st) remaining (results st) (visited_urls st) w
             (submitted st) (error_log st) (polls st))
    end
  else st.

Definition process_completed (st : State W) : State W :=
  fold_left (fun st f => process_future f st) (futures st) st.

(** [while not scan_queue.empty() and len(futures) < threads]. *)
Fixpoint submit_loop (queue : list (string * Z)) (st : State W) : State W :=
  match queue with
  | [] => mkState [] (futures st) (results st) (visited_urls st) (world st)
            (submitted st) (error_log st) (polls st)
  | (target, depth) :: rest =>
      if Z.of_nat (length (futures st)) <? threads cfg then
        let f := (length (submitted st), target, depth) in
        submit_loop rest
          (mkState rest (futures st ++ [f]) (results st) (visited_urls st)
             (world st) (submitted st ++ [f]) (error_log st) (polls st))
      else mkState queue (futures st) (results st) (visited_urls st)
             (world st) (submitted st) (error_log st) (polls st)
  end.

Definition submit_tasks (st : State W) : State W :=
  submit_loop (scan_queue st) st.

Definition next_round (st : State W) : State W :=
  mkState (scan_queue st) (futures st) (results st) (visited_urls st)
    (world st) (submitted st) (error_log st) (S (polls st)).

Definition finished (st : State W) : bool :=
  match scan_queue st, futures st with
  | [], [] => true
  | _, _ => false
  end.

(** [while not scan_queue.empty() or futures]; the flag tells
    whether the loop ended within [fuel] rounds. *)
Fixpoint scan_loop (fuel : nat) (st : State W) : bool * State W :=
  if finished st then (true, st)
  else match fuel with
       | O => (false, st)
       | S fuel' =>
           scan_loop fuel' (next_round (process_completed (submit_tasks st)))
       end.

(** [scan_target].  [ThreadPoolExecutor(max_workers=n)] raises
    [ValueError] unless [n] is positive. *)
Definition scan_target (fuel : nat) (target : string) (st : State W)
  : Outcome (list Result) * State W :=
  let target := normalize_target target in
  let st := mkState [(target, 0)] [] [] (visited_urls st) (world st)
              (submitted st) (error_log st) (polls st) in
  if threads cfg <=? 0 then (Raised, st)
  else
    let '(ended, st) := scan_loop fuel st in
    if ended then (Returned (results st), st) else (OutOfFuel, st).

Fixpoint scan_targets_loop (fuel : nat) (targets : list string)
    (all_results : list Result) (st : State W)
  : Outcome (list Result) * State W :=
  match targets with
  | [] => (Returned all_results, st)
  | target :: rest =>
      match scan_target fuel target st with
      | (Returned rs, st) =>
          scan_targets_loop fuel rest (all_results ++ rs) st
      | (Raised, st) => (Raised, st)
      | (OutOfFuel, st) => (OutOfFuel, st)
      end
  end.

(** [scan_targets]; each target gets [fuel] rounds. *)
Definition scan_targets (fuel : nat) (targets : list string) (st : State W)
  : Outcome (list Result) * State W :=
  scan_targets_loop fuel targets [] st.

End Scheduler.

(** The scanner as built by [DeepScanner(config)]: the workers run
    [_scan_url] on the scanner's own state.  A call of a worker is
    taken as one step, made when its future is first seen done. *)
Definition scanner_run `{Collaborators} (cfg : ScanConfig)
    (wordlist : list string)
  : string -> Z -> ScannerState -> option (list Result) * ScannerState :=
  _scan_url cfg wordlist.

Definition scanner_scan_targets `{Collaborators} (cfg : ScanConfig)
    (wordlist : list string) (done : nat -> nat -> bool)
    (fuel : nat) (targets : list string) (st : State ScannerState)
  : Outcome (list Result) * State ScannerState :=
  scan_targets (scanner_run cfg wordlist) done cfg fuel targets st.

End DeepScanner.

(** ** Around the scanner

    What follows embeds the functions around those above:
    [categorize_results] of the filter, [_load_wordlist] of the brute
    forcer, the scans of the crawler and of the fuzzer, the output
    functions of the scanner, [update_from_args] with the options of
    the command line, and [main].  The scans of the crawler and of
    the fuzzer are modelled on their own; [_scan_url] above goes on
    taking them as collaborators.  Settings that [ScanConfig] above
    leaves out ([force_extensions], [quiet]) are parameters of the
    functions that read them. *)

(** ** More Python built-ins on [str] *)

Module PyStr.

(** [s[n:]] *)
Fixpoint drop_chars (n : nat) (s : string) : string :=
  match n, s with
  | S n', String _ s' => drop_chars n' s'
  | _, _ => s
  end.

(** [s.replace(old, new)] for a non-empty [old]: the occurrences are
    taken from the left and do not overlap.  [fuel] bounds the
    characters still to be read. *)
Fixpoint replace_go (fuel : nat) (old new s : string) : string :=
  match fuel with
  | O => s
  | S fuel' =>
      if String.prefix old s
      then new +:+ replace_go fuel' old new (drop_chars (String.length old) s)
      else match s with
           | EmptyString => EmptyString
           | String c s' => String c (replace_go fuel' old new s')
           end
  end.

(** [s.replace(old, new)]; for an empty [old] Python puts [new]
    before every character and at the end. *)
Definition replace (old new s : string) : string :=
  match old with
  | EmptyString =>
      (fix between (s : string) : string :=
         match s with
         | EmptyString => new
         | String c s' => new +:+ String c (between s')
         end) s
  | _ => replace_go (S (String.length s)) old new s
  end.

(** [sep.join(parts)] *)
Fixpoint join (sep : string) (parts : list string) : string :=
  match parts with
  | [] => EmptyString
  | [p] => p
  | p :: rest => p +:+ sep +:+ join sep rest
  end.

End PyStr.

(** ** [modules/intelligent_filter.py]: [categorize_results] *)

Module Categorize.

(** [any(word in url for word in words)] *)
Definition any_in (words : list string) (s : string) : bool :=
  existsb (fun word => Py.str_in word s) words.

(** The dictionary [categories] as it is created. *)
Definition empty_categories : gmap string (list Result) :=
  list_to_map
    [("admin_panels", []); ("api_endpoints", []); ("config_files", []);
     ("backup_files", []); ("database_files", []); ("log_files", []);
     ("upload_directories", []); ("source_code", []);
     ("sensitive_data", []); ("other", [])].

(** [categories[key].append(result)]; every key used is one the
    dictionary was created with. *)
Definition append_to (key : string) (result : Result)
    (categories : gmap string (list Result)) : gmap string (list Result) :=
  alter (fun l => l ++ [result]) key categories.

Section Categorize.
Context `{Collaborators}.

(** The body of the loop of [categorize_results]. *)
Definition categorize_step (categories : gmap string (list Result))
    (result : Result) : gmap string (list Result) :=
  let u := str_lower (url result) in
  let '(categories, categorized) :=
    if any_in ["admin"; "administrator"; "admincp"; "cpanel"] u
    then (append_to "admin_panels" result categories, true)
    else if any_in ["api"; "rest"; "graphql"; "soap"] u
    then (append_to "api_endpoints" result categories, true)
    else if any_in ["config"; "settings"; "conf"; ".env"] u
    then (append_to "config_files" result categories, true)
    else if any_in ["backup"; "bak"; "old"; ".bak"] u
    then (append_to "backup_files" result categories, true)
    else if any_in ["db"; "database"; "sql"; "mysql"] u
    then (append_to "database_files" result categories, true)
    else if any_in ["log"; "logs"; "access"; "error"] u
    then (append_to "log_files" result categories, true)
    else if any_in ["upload"; "uploads"; "media"; "files"] u
    then (append_to "upload_directories" result categories, true)
    else if any_in [".php"; ".js"; ".py"; ".java"; ".cpp"] u
    then (append_to "source_code" result categories, true)
    else (categories, false) in
  if negb categorized then append_to "other" result categories
  else categories.

Definition categorize_results (results : list Result)
  : gmap string (list Result) :=
  fold_left categorize_step results empty_categories.

End Categorize.
End Categorize.

(** ** [modules/brute_forcer.py]: [_load_wordlist] *)

Module Wordlist.

(** What opening and reading a word list gives: its lines, no such
    file, or another error with its text. *)
Inductive FileRead :=
| Lines (lines : list string)
| NotFound
| ReadError (message : string).

Section Load.
Context `{Collaborators}.
Variable read_file : string -> FileRead.

(** [[line.strip() for line in f if line.strip()]] *)
Definition file_words (lines : list string) : list string :=
  map str_strip
    (filter (fun line => Py.str_truthy (str_strip line) = true) lines).

(** The loop over [self.config.wordlists]. *)
Fixpoint read_wordlists (paths : list string) (words : list string)
    (events : list Event) : list string * list Event :=
  match paths with
  | [] => (words, events)
  | wordlist_path :: rest =>
      match read_file wordlist_path with
      | Lines lines =>
          read_wordlists rest (words ++ file_words lines) events
      | NotFound =>
          read_wordlists rest words
            (events
             ++ [EvLog "WARNING" ("Wordlist not found: " +:+ wordlist_path)])
      | ReadError e =>
          read_wordlists rest words
            (events
             ++ [EvLog "ERROR"
                   ("Error loading wordlist " +:+ wordlist_path
                    +:+ ": " +:+ e)])
      end
  end.

(** What one word becomes when extensions are applied;
    [force_extensions] is the field of that name, which the record
    [ScanConfig] above leaves out. *)
Fixpoint extend_word (force_extensions : bool) (word : string)
    (exts : list string) : list string :=
  match exts with
  | [] => []
  | ext :: rest =>
      (if force_extensions
       then [word +:+ "." +:+ ext; word +:+ "/"]
       else if Py.str_in "%EXT%" word
            then [PyStr.replace "%EXT%" ext word]
            else [word +:+ "." +:+ ext])
      ++ extend_word force_extensions word rest
  end.

Fixpoint apply_extensions (force_extensions : bool) (exts : list string)
    (words : list string) : list string :=
  match words with
  | [] => []
  | word :: rest =>
      (word :: extend_word force_extensions word exts)
      ++ apply_extensions force_extensions exts rest
  end.

(** [_load_wordlist].  [list(set(words))] keeps one copy of every
    word in an order Python does not promise; the order taken here
    is that of [elements]. *)
Definition _load_wordlist (cfg : ScanConfig) (force_extensions : bool)
  : list string * list Event :=
  let '(words, events) := read_wordlists (wordlists cfg) [] [] in
  (* Remove duplicates *)
  let words := elements (list_to_set words : gset string) in
  (* Apply extensions *)
  let words :=
    if Py.list_truthy (extensions cfg)
    then apply_extensions force_extensions (extensions cfg) words
    else words in
  (words, events).

End Load.
End Wordlist.

(** ** [modules/crawler.py]: [scan] *)

Module CrawlerScan.
Section Scan.
Context `{Collaborators}.
(** What the lookup [self.config.js] gives: [None] when the
    configuration has no attribute [js] and the lookup raises
    [AttributeError].  [ScanConfig] of [core/config.py] declares no
    field [js]; [load_from_file] sets only attributes that exist, and
    no target name of [update_from_args] is [js]. *)
Variable js : option bool.
(** The links [BeautifulSoup] finds in the tags [a], [link],
    [script] and [img], joined to the URL of the page; an error of
    the parser is caught and leaves what was found before it. *)
Variable soup_links : string -> string -> list string.
(** [_extract_js_urls] and [_in_scope], which rest on [re] and
    [urlparse]. *)
Variable extract_js_urls : string -> string -> list string.
Variable in_scope : string -> string -> bool.

(** [_extract_urls]; [None] when it raises.  [list(set(urls))]
    keeps one copy of every URL, here in the order of [elements]. *)
Definition _extract_urls (result : Result) : option (list string) :=
  let body := content result in
  let base_url := url result in
  let urls := soup_links body base_url in
  (* Extract from JavaScript *)
  match js with
  | Some flag =>
      let urls := if flag then urls ++ extract_js_urls body base_url
                  else urls in
      (* Remove duplicates and filter *)
      Some (elements (list_to_set urls : gset string))
  | None => None
  end.

(** [for url in new_urls]: a URL neither visited nor waiting, and in
    scope, is put at the end of [to_visit]. *)
Fixpoint add_new_urls (base_url : string) (new_urls : list string)
    (visited : gset string) (to_visit : list string) : list string :=
  match new_urls with
  | [] => to_visit
  | u :: rest =>
      if negb (bool_decide (u ∈ visited)) && negb (bool_decide (u ∈ to_visit))
         && in_scope u base_url
      then add_new_urls base_url rest visited (to_visit ++ [u])
      else add_new_urls base_url rest visited to_visit
  end.

(** [while to_visit and len(self.visited) < 1000]; [visited] is the
    attribute [self.visited], which outlives the call. *)
Fixpoint scan_loop (fuel : nat) (cfg : ScanConfig) (base_url : string)
    (to_visit : list string) (visited : gset string)
    (results : list Result) (events : list Event)
  : Outcome (list Result) * gset string * list Event :=
  match to_visit with
  | [] => (Returned results, visited, events)
  | current_url :: to_visit =>
      if negb (Z.of_nat (size visited) <? 1000)
      then (Returned results, visited, events)
      else
        match fuel with
        | O => (OutOfFuel, visited, events)
        | S fuel' =>
            if bool_decide (current_url ∈ visited)
            then scan_loop fuel' cfg base_url to_visit visited results events
            else
              let visited := {[current_url]} ∪ visited in
              let '(result, evs) := Crawler._crawl_url cfg current_url in
              let events := events ++ evs in
              match result with
              | Some r =>
                  let results := results ++ [r] in
                  match _extract_urls r with
                  | Some new_urls =>
                      scan_loop fuel' cfg base_url
                        (add_new_urls base_url new_urls visited to_visit)
                        visited results events
                  | None => (Raised, visited, events)
                  end
              | None =>
                  scan_loop fuel' cfg base_url to_visit visited results events
              end
        end
  end.

(** [scan]; [fuel] bounds the rounds of the loop. *)
Definition scan (fuel : nat) (cfg : ScanConfig) (base_url : string)
    (visited : gset string)
  : Outcome (list Result) * gset string * list Event :=
  scan_loop fuel cfg base_url [base_url] visited []
    [EvLog "INFO" ("Starting crawl from " +:+ base_url)].

End Scan.
End CrawlerScan.

(** ** [modules/fuzzer.py]: [scan] *)

Module FuzzerScan.
Section Scan.
Context `{Collaborators}.

(** The loop [for pattern in self.patterns]. *)
Fixpoint scan_loop (cfg : ScanConfig) (base_url : string)
    (patterns : list string) (results : list Result) (events : list Event)
  : list Result * list Event :=
  match patterns with
  | [] => (results, events)
  | pattern :: rest =>
      let target_url := urljoin base_url pattern in
      let '(result, evs) := Fuzzer._make_request cfg target_url in
      let results := match result with
                     | Some r => results ++ [r]
                     | None => results
                     end in
      scan_loop cfg base_url rest results (events ++ evs)
  end.

(** [scan]; [patterns] is the attribute [self.patterns]. *)
Definition scan (cfg : ScanConfig) (patterns : list string)
    (base_url : string) : list Result * list Event :=
  scan_loop cfg base_url patterns []
    [EvLog "INFO"
       ("Starting fuzzing scan on " +:+ base_url +:+ " with "
        +:+ pretty (length patterns) +:+ " patterns")].

End Scan.
End FuzzerScan.

(** ** [core/scanner.py]: writing the results out *)

Module ScannerOutput.

(** The scanner's own copies of [_format_size] and [_matches_size]. *)
Definition _format_size (size : Z) : string :=
  if size <? 1024 then Py.str_of_int size +:+ "B"
  else if size <? 1024 * 1024 then Py.str_of_int (size `div` 1024) +:+ "KB"
  else Py.str_of_int (size `div` (1024 * 1024)) +:+ "MB".

Definition _matches_size (size_str pattern : string) : bool :=
  bool_decide (size_str = pattern).

(** [_filter_results], the legacy entry to the filter. *)
Definition _filter_results `{Collaborators} (cfg : ScanConfig)
    (results : list Result) (response_cache : gmap string Result)
  : list Result * gmap string Result :=
  IntelligentFilter.filter_results cfg results response_cache.

(** What the output functions do to the outside: [print] a text, or
    open a file for writing and write a text to it. *)
Inductive OutputEvent :=
| Print (text : string)
| WriteFile (path text : string).

(** The line feed. *)
Definition newline : string := String (Ascii.ascii_of_nat 10) EmptyString.

(** [f"{result['status_code']} {result['content_length']} {result['url']}"] *)
Definition text_line (result : Result) : string :=
  Py.str_of_int (status_code result) +:+ " "
  +:+ Py.str_of_int (content_length result) +:+ " " +:+ url result.

(** The row of one result in the HTML table. *)
Definition html_row (result : Result) : string :=
  "<tr><td>" +:+ Py.str_of_int (status_code result) +:+ "</td><td>"
  +:+ Py.str_of_int (content_length result) +:+ "</td><td>"
  +:+ url result +:+ "</td></tr>".

Section Output.
(** [self.config.quiet], a field that the record [ScanConfig] above
    leaves out. *)
Variable quiet : bool.
(** [json.dumps(results, indent=2)], which is also the text
    [json.dump] writes, and the header and rows [csv.DictWriter]
    writes for a non-empty list. *)
Variable json_dumps : list Result -> string.
Variable csv_rows : list Result -> string.

(** The loop of [_output_text]. *)
Fixpoint text_loop (results : list Result) (output : list string)
    (events : list OutputEvent) : list string * list OutputEvent :=
  match results with
  | [] => (output, events)
  | result :: rest =>
      let line := text_line result in
      text_loop rest (output ++ [line])
        (if negb quiet then events ++ [Print line] else events)
  end.

Definition _output_text (results : list Result)
    (output_file : option string) : list OutputEvent :=
  let '(output, events) := text_loop results [] [] in
  match output_file with
  | Some path =>
      if Py.str_truthy path
      then events ++ [WriteFile path (PyStr.join newline output)]
      else events
  | None => events
  end.

Definition _output_json (results : list Result)
    (output_file : option string) : list OutputEvent :=
  if Py.opt_str_truthy output_file
  then match output_file with
       | Some path => [WriteFile path (json_dumps results)]
       | None => []
       end
  else if negb quiet then [Print (json_dumps results)]
  else [].

(** [_output_csv]: with no results the file is opened, and so
    emptied, and nothing is written to it. *)
Definition _output_csv (results : list Result)
    (output_file : option string) : list OutputEvent :=
  match output_file with
  | Some path =>
      if Py.str_truthy path
      then [WriteFile path
              (if Py.list_truthy results then csv_rows results
               else EmptyString)]
      else []
  | None => []
  end.

(** The loop of [_output_html]. *)
Fixpoint html_loop (results : list Result) (html : string) : string :=
  match results with
  | [] => html
  | result :: rest => html_loop rest (html +:+ html_row result)
  end.

Definition _output_html (results : list Result)
    (output_file : option string) : list OutputEvent :=
  let html := "<html><head><title>DeepDir Results</title></head><body>" in
  let html := html +:+ "<h1>DeepDir Scan Results</h1>" in
  let html :=
    html
    +:+ "<table border='1'><tr><th>Status</th><th>Size</th><th>URL</th></tr>" in
  let html := html_loop results html in
  let html := html +:+ "</table></body></html>" in
  if Py.opt_str_truthy output_file
  then match output_file with
       | Some path => [WriteFile path html]
       | None => []
       end
  else if negb quiet then [Print html]
  else [].

Definition output_results (results : list Result)
    (output_file : option string) (format_type : string)
  : list OutputEvent :=
  if bool_decide (format_type = "json")
  then _output_json results output_file
  else if bool_decide (format_type = "csv")
  then _output_csv results output_file
  else if bool_decide (format_type = "html")
  then _output_html results output_file
  else _output_text results output_file.

End Output.
End ScannerOutput.

(** ** [deepdir.py] and [core/config.py]: the command line *)

Module Cli.

(** The namespace [parser.parse_args()] returns.  An option without
    default is [None] when it is not given; a [store_true] flag is
    [False]. *)
Record Args := mkArgs {
  arg_url : option string;                  (* -u *)
  arg_url_list : option string;             (* -l *)
  arg_wordlist : option string;             (* -w *)
  arg_wordlists : option (list string);     (* --wordlists, nargs='+' *)
  arg_extensions : option string;           (* -e *)
  arg_brute : bool;
  arg_crawl : bool;
  arg_hybrid : bool;
  arg_recursive : bool;
  arg_depth : Z;                            (* default 2 *)
  arg_fuzz_patterns : bool;
  arg_anti_waf : bool;
  arg_smart_mutations : bool;
  arg_threads : Z;                          (* default 10 *)
  arg_delay : float;                        (* default 0 *)
  arg_random_delay : option (float * float);  (* nargs=2 *)
  arg_include_status : option string;
  arg_exclude_status : option string;
  arg_min_size : option string;
  arg_max_size : option string;
  arg_proxy : option string;
  arg_proxies : option string;
  arg_output : option string;
  arg_format : string;                      (* default 'txt' *)
  arg_quiet : bool;
  arg_verbose : bool;
  arg_config : option string;               (* -c *)
  arg_save_config : option string
}.

(** [s.split(sep)] for a separator of one character. *)
Fixpoint split_on (sep : ascii) (s : string) : list string :=
  match s with
  | EmptyString => [EmptyString]
  | String c s' =>
      if Ascii.eqb c sep then EmptyString :: split_on sep s'
      else match split_on sep s' with
           | first :: rest => String c first :: rest
           | [] => [String c EmptyString]
           end
  end.

Section Update.
Context `{Collaborators}.
(** [int(s)]; [None] when it raises [ValueError]. *)
Variable parse_int : string -> option Z.

(** [[int(code.strip()) for code in value.split(',')]] *)
Definition parse_codes (value : string) : option (list Z) :=
  mapM (fun code => parse_int (str_strip code)) (split_on "," value).

(** [update_from_args], on the fields of [ScanConfig] above; the
    entries of [arg_mapping] are gone through in their order.  Every
    key of the mapping is an attribute of the namespace, so all are
    looked at, and a value that is not [None] is stored: that of a
    flag and of an option with a default always.  [--min-size] and
    [--max-size] have no [type=int]: the attribute then holds the
    text given, which the record cannot; the record keeps its number
    and the text is returned beside it.  [None] when [int] raises. *)
Definition update_from_args (args : Args) (c : ScanConfig)
  : option (ScanConfig * option string * option string) :=
  (* 'url': 'urls' *)
  let urls := match arg_url args with
              | Some value => [value]
              | None => urls c
              end in
  (* 'url_list': 'url_file' *)
  let url_file := match arg_url_list args with
                  | Some value => Some value
                  | None => url_file c
                  end in
  (* 'wordlist': 'wordlists', then 'wordlists': 'wordlists' *)
  let wordlists := match arg_wordlist args with
                   | Some value => [value]
                   | None => wordlists c
                   end in
  let wordlists := match arg_wordlists args with
                   | Some value => value
                   | None => wordlists
                   end in
  (* 'extensions' *)
  let extensions := match arg_extensions args with
                    | Some value => map str_strip (split_on "," value)
                    | None => extensions c
                    end in
  (* 'recursive', 'depth', 'fuzz_patterns', 'anti_waf', 'threads', 'delay' *)
  let recursive := arg_recursive args in
  let max_depth := arg_depth args in
  let fuzz_patterns := arg_fuzz_patterns args in
  let anti_waf := arg_anti_waf args in
  let threads := arg_threads args in
  let delay := arg_delay args in
  (* 'random_delay': 'random_delay_range' *)
  let '(random_delay_min, random_delay_max) :=
    match arg_random_delay args with
    | Some value => value
    | None => (random_delay_min c, random_delay_max c)
    end in
  (* 'include_status', 'exclude_status' *)
  match (match arg_include_status args with
         | Some value => parse_codes value
         | None => Some (include_status_codes c)
         end) with
  | None => None
  | Some include_status_codes =>
      match (match arg_exclude_status args with
             | Some value => parse_codes value
             | None => Some (exclude_status_codes c)
             end) with
      | None => None
      | Some exclude_status_codes =>
          (* 'brute': 'brute_force', 'crawl': 'crawling' *)
          let brute_force := arg_brute args in
          let crawling := arg_crawl args in
          Some (mkScanConfig urls url_file wordlists extensions
                  brute_force crawling recursive max_depth
                  (recursion_status_codes c) fuzz_patterns anti_waf threads
                  delay random_delay_min random_delay_max (timeout c)
                  (max_rate c) include_status_codes exclude_status_codes
                  (min_response_size c) (max_response_size c)
                  (exclude_sizes c) (exclude_text c) (exclude_regex c)
                  (user_agent c) (http_method c) (follow_redirects c),
                (* 'min_size', 'max_size' *)
                arg_min_size args, arg_max_size args)
      end
  end.

End Update.
End Cli.

(** ** [deepdir.py]: [main] *)

Module Main.

(** How [main] ends: an exception that nothing catches (traceback,
    exit status 1), [parser.error] (usage message, exit status 2), a
    finished scan with what [output_results] printed and wrote, an
    exception logged before [sys.exit(1)], or a scan the model ran
    out of fuel for. *)
Inductive Exit :=
| Uncaught
| ParserError (message : string)
| Finished (results : list Result)
    (output : list ScannerOutput.OutputEvent)
| Failed
| Unfinished.

Section Main.
Context `{Collaborators} {W : Type}.
(** [int(s)]; [None] when it raises [ValueError]. *)
Variable parse_int : string -> option Z.
(** [setup_logging(log_level, args.quiet)] of [utils/logger.py],
    given whether the level is [DEBUG]: [false] when it raises. *)
Variable setup_logging : bool -> bool -> bool.
(** [Config.load_from_file]: the configuration with the attributes
    replaced that the file names; [None] when [open] or [json.load]
    raises. *)
Variable load_from_file : string -> ScanConfig -> option ScanConfig.
(** The lines of a file, [None] if it cannot be opened. *)
Variable read_lines : string -> option (list string).
(** [open(path, 'w')] succeeds. *)
Variable writable : string -> bool.
Variable json_dumps : list Result -> string.
Variable csv_rows : list Result -> string.
(** The worker [_scan_url] of the scanner built on a configuration;
    with it go the texts given with [--min-size] and [--max-size],
    which the configuration then holds in place of its numbers. *)
Variable worker :
  ScanConfig -> option string -> option string ->
  string -> Z -> W -> option (list Result) * W.
Variable done : nat -> nat -> bool.

(** From "Setup logging" to "Override config with CLI args": the
    configuration [main] goes on with, [None] when one of the three
    steps raises.  Nothing is around them to catch it. *)
Definition configure (args : Cli.Args)
  : option (ScanConfig * option string * option string) :=
  (* Setup logging *)
  let log_debug := Cli.arg_verbose args in
  if setup_logging log_debug (Cli.arg_quiet args) then
    (* Load configuration *)
    let config := default_config in
    match (match Cli.arg_config args with
           | Some path =>
               if Py.str_truthy path then load_from_file path config
               else Some config
           | None => Some config
           end) with
    | None => None
    | Some config =>
        (* Override config with CLI args *)
        Cli.update_from_args parse_int args config
    end
  else None.

(** The block "Load targets". *)
Definition load_targets (args : Cli.Args) : option (list string) :=
  let targets : list string := [] in
  let targets :=
    match Cli.arg_url args with
    | Some u => if Py.str_truthy u then targets ++ [u] else targets
    | None => targets
    end in
  match Cli.arg_url_list args with
  | Some path =>
      if Py.str_truthy path then
        match read_lines path with
        | Some lines =>
            Some (targets
                  ++ map str_strip
                       (filter
                          (fun line => Py.str_truthy (str_strip line) = true)
                          lines))
        | None => None
        end
      else Some targets
  | None => Some targets
  end.

(** Every file the output writes to can be opened. *)
Definition can_write (output : list ScannerOutput.OutputEvent) : bool :=
  forallb (fun e => match e with
                    | ScannerOutput.WriteFile path _ => writable path
                    | ScannerOutput.Print _ => true
                    end) output.

(** [main], from the namespace [parse_args] returned.  The scanner
    is built after the arguments are validated: the state of the
    scheduler is [None] until then.  It starts in the world [w], with
    nothing visited.  [args.hybrid = True] stores a value that nothing
    reads; [KeyboardInterrupt] is left out.  [config.quiet] is the
    flag [--quiet] by then. *)
Definition main (fuel : nat) (args : Cli.Args) (w : W)
  : Exit * option (DeepScanner.State W) :=
  match configure args with
  | None => (Uncaught, None)
  | Some (config, min_size, max_size) =>
      (* Validate arguments *)
      if negb (Py.opt_str_truthy (Cli.arg_url args))
         && negb (Py.opt_str_truthy (Cli.arg_url_list args))
      then (ParserError "Either -u/--url or -l/--url-list is required", None)
      else
        (* Initialize scanner *)
        let st := DeepScanner.initial_state w in
        match load_targets args with
        | None => (Failed, Some st)
        | Some targets =>
            (* Start scanning *)
            match DeepScanner.scan_targets (worker config min_size max_size)
                    done config fuel targets st with
            | (Returned results, st) =>
                (* Output results *)
                let output :=
                  ScannerOutput.output_results (Cli.arg_quiet args)
                    json_dumps csv_rows results (Cli.arg_output args)
                    (Cli.arg_format args) in
                if can_write output then (Finished results output, Some st)
                else (Failed, Some st)
            | (Raised, st) => (Failed, Some st)
            | (OutOfFuel, st) => (Unfinished, Some st)
            end
        end
  end.

End Main.
End Main.


(** ** Vocabulary of the statements *)

(** [c] occurs in [s]. *)
Fixpoint has_char (c : ascii) (s : string) : bool :=
  match s with
  | EmptyString => false
  | String c' s' => Ascii.eqb c' c || has_char c s'
  end.

(** The pair by which exact duplicates are recognised. *)
Definition url_status (r : Result) : string * Z := (url r, status_code r).

(** The score of a result as the specification words it: a base by
    status class and an adjustment by content length, the length
    bands read as exclusive. *)
Definition base_score (status : Z) : Z :=
  match status with
  | 200 => 0
  | 301 | 302 => 1
  | 403 => 2
  | 401 => 3
  | _ => 10
  end.

Definition length_adjustment (len : Z) : Z :=
  if decide (len = 0) then 5
  else if decide (len < 100) then 2
  else if decide (1000000 < len) then 1
  else 0.

(** Ascending by score. *)
Definition by_score (a b : Result) : Prop :=
  IntelligentFilter.sort_key a ≤ IntelligentFilter.sort_key b.

(** The key of the content-equivalence class of a result. *)
Definition content_hash `{Collaborators} (r : Result) : string :=
  IntelligentFilter._calculate_content_hash (content r).

(** [r] is the first result of [rs] in the class [h] with its status. *)
Definition earliest_of_status `{Collaborators} (h : string) (r : Result)
    (rs : list Result) : Prop :=
  find (fun x => bool_decide (content_hash x = h
                               ∧ status_code x = status_code r)) rs = Some r.

(** What holds of [response_cache] and [unique_results] once the
    results [seen] have gone through the loop of
    [_remove_similar_responses], started on an empty cache: the cache
    holds, for every class met, a result none of the class beats, the
    earliest of its status; [unique_results] holds those and nothing
    else, one per class. *)
Definition collapse_inv `{Collaborators} (seen : list Result)
    (cache : gmap string Result) (unique : list Result) : Prop :=
  (∀ h rep, cache !! h = Some rep →
     rep ∈ seen ∧ content_hash rep = h ∧ rep ∈ unique ∧
     (∀ r, r ∈ seen → content_hash r = h →
        IntelligentFilter._is_better_result r rep = false) ∧
     earliest_of_status h rep seen) ∧
  (∀ r, r ∈ seen → is_Some (cache !! content_hash r)) ∧
  (∀ u, u ∈ unique → cache !! content_hash u = Some u) ∧
  NoDup (map content_hash unique).

(** ** Sample configurations, collaborators and results *)

(** [default_config] with the status and size filters replaced. *)
Definition with_filters (include exclude : list Z) (min_size max_size : Z)
    (c : ScanConfig) : ScanConfig :=
  mkScanConfig (urls c) (url_file c) (wordlists c) (extensions c)
    (brute_force c) (crawling c) (recursive c) (max_depth c)
    (recursion_status_codes c) (fuzz_patterns c) (anti_waf c) (threads c)
    (delay c) (random_delay_min c) (random_delay_max c) (timeout c)
    (max_rate c) include exclude min_size max_size
    (exclude_sizes c) (exclude_text c) (exclude_regex c)
    (user_agent c) (http_method c) (follow_redirects c).

(** [default_config] with the recursion settings and the pool size
    replaced. *)
Definition with_recursion (rec : bool) (depth : Z) (codes : list Z)
    (pool : Z) (c : ScanConfig) : ScanConfig :=
  mkScanConfig (urls c) (url_file c) (wordlists c) (extensions c)
    (brute_force c) (crawling c) rec depth codes (fuzz_patterns c)
    (anti_waf c) pool
    (delay c) (random_delay_min c) (random_delay_max c) (timeout c)
    (max_rate c) (include_status_codes c) (exclude_status_codes c)
    (min_response_size c) (max_response_size c)
    (exclude_sizes c) (exclude_text c) (exclude_regex c)
    (user_agent c) (http_method c) (follow_redirects c).

(** The configuration with the crawler switched on or off, as by
    the flag [--crawl] of the command line. *)
Definition set_crawling (flag : bool) (c : ScanConfig) : ScanConfig :=
  mkScanConfig (urls c) (url_file c) (wordlists c) (extensions c)
    (brute_force c) flag (recursive c) (max_depth c)
    (recursion_status_codes c) (fuzz_patterns c) (anti_waf c) (threads c)
    (delay c) (random_delay_min c) (random_delay_max c) (timeout c)
    (max_rate c) (include_status_codes c) (exclude_status_codes c)
    (min_response_size c) (max_response_size c)
    (exclude_sizes c) (exclude_text c) (exclude_regex c)
    (user_agent c) (http_method c) (follow_redirects c).

(** Collaborators for the examples.  The host cannot be reached:
    every request times out; the crawler visits the URL it is given,
    if it has not yet and has visited fewer than 1000 pages, and
    finds nothing, as does the fuzzer.  Texts are ASCII, patterns
    are matched as literal texts, the digest is the text itself and
    [urljoin] appends.  The body of a page is the one link it holds,
    and every URL under [https://t/] is on the host [t]. *)
Definition sample_world : Collaborators := {|
  str_lower := Py.lower_ascii;
  str_strip := Py.strip_ascii;
  remove_whitespace := Py.strip_whitespace_ascii;
  re_search := fun pattern text => Py.str_in pattern text;
  md5_hexdigest := fun s => s;
  urljoin := fun base path => base +:+ path;
  random_uniform := fun lo hi => lo;
  session_request := fun _ => RequestException "timed out";
  crawler_scan := fun _ base_url visited =>
    (Some [],
     if bool_decide (base_url ∈ visited)
       || negb (Z.of_nat (size visited) <? 1000)
     then visited else {[base_url]} ∪ visited);
  fuzzer_scan := fun _ _ _ _ => Some [];
  find_hrefs := fun body => if Py.str_truthy body then [body] else [];
  urlparse := fun u =>
    Some ("https", if Py.startswith u "https://t/" then "t" else "elsewhere")
|}.

(** The same, but for a host that answers: every request gets a
    page of status 200 whose one link goes to the root
    [https://t/].  The crawler raises at the first page it is
    answered: the configuration has no attribute [js]. *)
Definition home_link_site : Collaborators := {|
  str_lower := Py.lower_ascii;
  str_strip := Py.strip_ascii;
  remove_whitespace := Py.strip_whitespace_ascii;
  re_search := fun pattern text => Py.str_in pattern text;
  md5_hexdigest := fun s => s;
  urljoin := fun base path => base +:+ path;
  random_uniform := fun lo hi => lo;
  session_request := fun _ => HttpResponse (mkResponse 200 10 "https://t/");
  crawler_scan := fun _ base_url visited =>
    if bool_decide (base_url ∈ visited)
       || negb (Z.of_nat (size visited) <? 1000)
    then (Some [], visited) else (None, {[base_url]} ∪ visited);
  fuzzer_scan := fun _ _ _ _ => Some [];
  find_hrefs := fun body => if Py.str_truthy body then [body] else [];
  urlparse := fun u =>
    Some ("https", if Py.startswith u "https://t/" then "t" else "elsewhere")
|}.

Definition page (u : string) (status len : Z) (body : string) : Result :=
  mkResult u status len body "brute_force".

(** ** Vocabulary of the scheduler *)

(** Queue entries are pairs (url, depth), futures are triples
    (rank, url, depth): the depth is the last component of both. *)
Definition depths_within {A} (d : Z) (l : list (A * Z)) : Prop :=
  Forall (fun entry => 0 ≤ entry.2 ≤ d) l.

(** Since the scheduler was in a state whose submissions were [base],
    it has submitted, holds in flight and holds in its queue only
    targets of depth 0 to [d]. *)
Definition depth_inv {W} (d : Z) (base : list (nat * string * Z))
    (st : DeepScanner.State W) : Prop :=
  (∃ later, DeepScanner.submitted st = base ++ later ∧ depths_within d later)
  ∧ depths_within d (DeepScanner.futures st)
  ∧ depths_within d (DeepScanner.scan_queue st).

(** The URLs handed to the workers, in order. *)
Definition submitted_urls {W} (st : DeepScanner.State W) : list string :=
  map (fun f => f.1.2) (DeepScanner.submitted st).

(** The requests among the events. *)
Definition requests_of (events : list Event) : list Request :=
  omap (fun e => match e with EvRequest r => Some r | _ => None end) events.

(** The URLs that came out of link extraction: those submitted or
    queued at a depth other than 0, in the order they were found. *)
Definition discovered {W} (st : DeepScanner.State W) : list string :=
  map (fun f => f.1.2)
    (filter (fun f => f.2 ≠ 0) (DeepScanner.submitted st))
  ++ map (fun entry => entry.1)
       (filter (fun entry => entry.2 ≠ 0) (DeepScanner.scan_queue st)).

(** No link was found twice, every link found is in [visited_urls],
    and no depth is negative. *)
Definition visited_inv {W} (st : DeepScanner.State W) : Prop :=
  NoDup (discovered st)
  ∧ (∀ u, u ∈ discovered st → u ∈ DeepScanner.visited_urls st)
  ∧ Forall (fun f => 0 ≤ f.2) (DeepScanner.futures st)
  ∧ Forall (fun entry => 0 ≤ entry.2) (DeepScanner.scan_queue st).

(** The request by which [target_url] is probed. *)
Definition request_for (cfg : ScanConfig) (target_url : string) : Request :=
  {| req_method := http_method cfg;
     req_url := target_url;
     req_timeout := timeout cfg;
     req_allow_redirects := follow_redirects cfg |}.

(** ** Sample workers for the scheduler *)

(** A site of three pages in a chain: the root links to [/sub], which
    links to [/sub/deeper].  The worker finds the page at the URL it
    is given. *)
Definition chain_worker (target : string) (depth : Z) (w : unit)
  : option (list Result) * unit :=
  (Some [page target 200 120
           (if bool_decide (target = "https://t/") then "/sub"
            else if bool_decide (target = "https://t/sub") then "/sub/deeper"
            else EmptyString)], w).

(** A pool whose futures are done when first polled. *)
Definition done_at_once (round i : nat) : bool := true.

(** ** Vocabulary of the further properties *)

(** [c] is none of the characters a number is printed with. *)
Definition not_numeric (c : ascii) : bool :=
  forallb (fun d => negb (Ascii.eqb d c))
    ["0"; "1"; "2"; "3"; "4"; "5"; "6"; "7"; "8"; "9"; "-"]%char.

(** The unit a size is printed in and the count of that unit. *)
Definition size_bucket (size : Z) : string * Z :=
  if decide (size < 1024) then ("B", size)
  else if decide (size < 1024 * 1024) then ("KB", size `div` 1024)
  else ("MB", size `div` (1024 * 1024)).

(** What the probe sources hand to [_scan_url] for one target, in
    the order brute forcer, crawler, fuzzer, when the crawler has
    visited [visited]; [None] when the crawler or the fuzzer
    raises. *)
Definition gathered `{Collaborators} (cfg : ScanConfig)
    (wordlist : list string) (target : string) (visited : gset string)
  : option (list Result) :=
  let brute :=
    if brute_force cfg then (BruteForcer.scan cfg wordlist target).1
    else [] in
  match (if crawling cfg
         then (crawler_scan (timeout cfg) target visited).1
         else Some []) with
  | None => None
  | Some crawl =>
      match (if fuzz_patterns cfg
             then fuzzer_scan (extensions cfg) (user_agent cfg)
                    (timeout cfg) target
             else Some []) with
      | None => None
      | Some fuzz => Some (brute ++ crawl ++ fuzz)
      end
  end.

(** One round of the outer loop of [scan_target]: submit, process
    what is done, sleep; and the state after [k] rounds. *)
Definition one_round `{Collaborators} {W : Type}
    (run : string -> Z -> W -> option (list Result) * W)
    (done : nat -> nat -> bool) (cfg : ScanConfig)
    (st : DeepScanner.State W) : DeepScanner.State W :=
  DeepScanner.next_round
    (DeepScanner.process_completed run done cfg
       (DeepScanner.submit_tasks cfg st)).

Definition after_rounds `{Collaborators} {W : Type}
    (run : string -> Z -> W -> option (list Result) * W)
    (done : nat -> nat -> bool) (cfg : ScanConfig) (k : nat)
    (st : DeepScanner.State W) : DeepScanner.State W :=
  Nat.iter k (one_round run done cfg) st.

(** A worker that raises whatever it is given. *)
Definition raising_worker (target : string) (depth : Z) (w : unit)
  : option (list Result) * unit := (None, w).

(** Where the scan of one target stands when its worker raises: the
    seed waits, or is in flight, or has failed and is logged. *)
Definition seed_only {W : Type} (seed : string)
    (base s : DeepScanner.State W) : Prop :=
  let f := (length (DeepScanner.submitted base), seed, 0) in
  DeepScanner.results s = []
  ∧ DeepScanner.visited_urls s = DeepScanner.visited_urls base
  ∧ ((DeepScanner.scan_queue s = [(seed, 0)]
      ∧ DeepScanner.futures s = []
      ∧ DeepScanner.submitted s = DeepScanner.submitted base
      ∧ DeepScanner.error_log s = DeepScanner.error_log base)
     ∨ (DeepScanner.scan_queue s = []
        ∧ DeepScanner.futures s = [f]
        ∧ DeepScanner.submitted s = DeepScanner.submitted base ++ [f]
        ∧ DeepScanner.error_log s = DeepScanner.error_log base)
     ∨ (DeepScanner.scan_queue s = []
        ∧ DeepScanner.futures s = []
        ∧ DeepScanner.submitted s = DeepScanner.submitted base ++ [f]
        ∧ DeepScanner.error_log s = DeepScanner.error_log base ++ [seed])).

(** The paths written to and the texts printed, in order. *)
Definition written_paths (events : list ScannerOutput.OutputEvent)
  : list string :=
  omap (fun e => match e with
                 | ScannerOutput.WriteFile path _ => Some path
                 | ScannerOutput.Print _ => None
                 end) events.

Definition printed (events : list ScannerOutput.OutputEvent) : list string :=
  omap (fun e => match e with
                 | ScannerOutput.Print text => Some text
                 | ScannerOutput.WriteFile _ _ => None
                 end) events.

(** The record [_load_wordlist] logs for a word list it cannot
    read. *)
Definition wordlist_log (read_file : string -> Wordlist.FileRead)
    (wordlist_path : string) : option Event :=
  match read_file wordlist_path with
  | Wordlist.Lines _ => None
  | Wordlist.NotFound =>
      Some (EvLog "WARNING" ("Wordlist not found: " +:+ wordlist_path))
  | Wordlist.ReadError e =>
      Some (EvLog "ERROR"
              ("Error loading wordlist " +:+ wordlist_path +:+ ": " +:+ e))
  end.

(** The words read from the configured word lists, each once. *)
Definition base_words `{Collaborators}
    (read_file : string -> Wordlist.FileRead)
    (cfg : ScanConfig) : list string :=
  elements
    (list_to_set (Wordlist.read_wordlists read_file (wordlists cfg) [] []).1
       : gset string).

(** The configuration with [wordlists] replaced and every other
    field kept. *)
Definition set_wordlists (paths : list string) (c : ScanConfig)
  : ScanConfig :=
  mkScanConfig (urls c) (url_file c) paths (extensions c)
    (brute_force c) (crawling c) (recursive c) (max_depth c)
    (recursion_status_codes c) (fuzz_patterns c) (anti_waf c) (threads c)
    (delay c) (random_delay_min c) (random_delay_max c) (timeout c)
    (max_rate c) (include_status_codes c) (exclude_status_codes c)
    (min_response_size c) (max_response_size c)
    (exclude_sizes c) (exclude_text c) (exclude_regex c)
    (user_agent c) (http_method c) (follow_redirects c).

(** The keys of the dictionary of categories, and the category a
    result is put in: the first in this order one of whose words
    occurs in the lower-cased URL. *)
Definition category_keys : list string :=
  ["admin_panels"; "api_endpoints"; "config_files"; "backup_files";
   "database_files"; "log_files"; "upload_directories"; "source_code";
   "sensitive_data"; "other"].

Definition category_of `{Collaborators} (result : Result) : string :=
  let u := str_lower (url result) in
  if Categorize.any_in ["admin"; "administrator"; "admincp"; "cpanel"] u
  then "admin_panels"
  else if Categorize.any_in ["api"; "rest"; "graphql"; "soap"] u
  then "api_endpoints"
  else if Categorize.any_in ["config"; "settings"; "conf"; ".env"] u
  then "config_files"
  else if Categorize.any_in ["backup"; "bak"; "old"; ".bak"] u
  then "backup_files"
  else if Categorize.any_in ["db"; "database"; "sql"; "mysql"] u
  then "database_files"
  else if Categorize.any_in ["log"; "logs"; "access"; "error"] u
  then "log_files"
  else if Categorize.any_in ["upload"; "uploads"; "media"; "files"] u
  then "upload_directories"
  else if Categorize.any_in [".php"; ".js"; ".py"; ".java"; ".cpp"] u
  then "source_code"
  else "other".

(** The command line with the flag [--hybrid] replaced. *)
Definition set_hybrid (flag : bool) (a : Cli.Args) : Cli.Args :=
  Cli.mkArgs (Cli.arg_url a) (Cli.arg_url_list a) (Cli.arg_wordlist a)
    (Cli.arg_wordlists a) (Cli.arg_extensions a) (Cli.arg_brute a)
    (Cli.arg_crawl a) flag (Cli.arg_recursive a) (Cli.arg_depth a)
    (Cli.arg_fuzz_patterns a) (Cli.arg_anti_waf a)
    (Cli.arg_smart_mutations a) (Cli.arg_threads a) (Cli.arg_delay a)
    (Cli.arg_random_delay a) (Cli.arg_include_status a)
    (Cli.arg_exclude_status a) (Cli.arg_min_size a) (Cli.arg_max_size a)
    (Cli.arg_proxy a) (Cli.arg_proxies a) (Cli.arg_output a)
    (Cli.arg_format a) (Cli.arg_quiet a) (Cli.arg_verbose a)
    (Cli.arg_config a) (Cli.arg_save_config a).

(** The command line with the option [-i] replaced. *)
Definition set_include_status (value : string) (a : Cli.Args) : Cli.Args :=
  Cli.mkArgs (Cli.arg_url a) (Cli.arg_url_list a) (Cli.arg_wordlist a)
    (Cli.arg_wordlists a) (Cli.arg_extensions a) (Cli.arg_brute a)
    (Cli.arg_crawl a) (Cli.arg_hybrid a) (Cli.arg_recursive a)
    (Cli.arg_depth a) (Cli.arg_fuzz_patterns a) (Cli.arg_anti_waf a)
    (Cli.arg_smart_mutations a) (Cli.arg_threads a) (Cli.arg_delay a)
    (Cli.arg_random_delay a) (Some value)
    (Cli.arg_exclude_status a) (Cli.arg_min_size a) (Cli.arg_max_size a)
    (Cli.arg_proxy a) (Cli.arg_proxies a) (Cli.arg_output a)
    (Cli.arg_format a) (Cli.arg_quiet a) (Cli.arg_verbose a)
    (Cli.arg_config a) (Cli.arg_save_config a).

(** The command lines [deepdir.py -w words.txt], which names no
    target, and [deepdir.py -l targets.txt -w words.txt]. *)
Definition words_only : Cli.Args :=
  Cli.mkArgs None None (Some "words.txt") None None
    false false false false 2 false false false 10 0%float None
    None None None None None None None "txt" false false None None.


(** The command line [deepdir.py -u https://t/ -l urls.txt]. *)
Definition url_and_url_list : Cli.Args :=
  Cli.mkArgs (Some "https://t/") (Some "urls.txt") None None None
    false false false false 2 false false false 10 0%float None
    None None None None None None None "txt" false false None None.

(** The command line [deepdir.py -u https://t/ -w words.txt]. *)
Definition url_and_wordlist : Cli.Args :=
  Cli.mkArgs (Some "https://t/") None (Some "words.txt") None None
    false false false false 2 false false false 10 0%float None
    None None None None None None None "txt" false false None None.




(** * Properties *)

(** ** Strings *)

Lemma app_empty s : EmptyString +:+ s = s.
Proof. reflexivity. Qed.

Lemma app_String a s1 s2 : String a s1 +:+ s2 = String a (s1 +:+ s2).
Proof. reflexivity. Qed.

Lemma has_char_app c s1 s2 :
  has_char c (s1 +:+ s2) = has_char c s1 || has_char c s2.
Proof.
  induction s1 as [|a s1 IH]; [done|].
  rewrite app_String. simpl. by rewrite IH, orb_assoc.
Qed.

Lemma pretty_N_char_no_colon x : Ascii.eqb (pretty_N_char x) ":" = false.
Proof. unfold pretty_N_char. by repeat case_match. Qed.

Lemma pretty_N_go_no_colon x s :
  has_char ":" s = false → has_char ":" (pretty_N_go x s) = false.
Proof.
  revert s. induction (N.lt_wf_0 x) as [x _ IH]; intros s Hs.
  assert (x = 0 ∨ 0 < x)%N as [->|Hpos] by lia.
  - by rewrite pretty_N_go_0.
  - rewrite pretty_N_go_step by done. apply IH.
    + by apply N.div_lt.
    + simpl. by rewrite pretty_N_char_no_colon.
Qed.

Lemma pretty_N_no_colon (x : N) : has_char ":" (pretty x) = false.
Proof.
  unfold pretty, pretty_N. case_decide; [done|].
  by apply pretty_N_go_no_colon.
Qed.

Lemma str_of_int_no_colon n : has_char ":" (Py.str_of_int n) = false.
Proof.
  unfold Py.str_of_int, pretty, pretty_Z. destruct n as [|p|p].
  - done.
  - apply pretty_N_no_colon.
  - rewrite app_String, app_empty. simpl. apply pretty_N_no_colon.
Qed.

(** A text is cut in one way only at its last colon. *)
Lemma split_at_last_colon u1 u2 t1 t2 :
  has_char ":" t1 = false → has_char ":" t2 = false →
  u1 +:+ ":" +:+ t1 = u2 +:+ ":" +:+ t2 → u1 = u2 ∧ t1 = t2.
Proof.
  intros Ht1 Ht2. revert u2.
  induction u1 as [|a u1 IH]; intros [|b u2];
    rewrite ?app_String, ?app_empty; intros Heq.
  - by injection Heq.
  - injection Heq as _ Ht. subst t1.
    rewrite has_char_app in Ht1. simpl in Ht1.
    by rewrite orb_true_r in Ht1.
  - injection Heq as _ Ht. subst t2.
    rewrite has_char_app in Ht2. simpl in Ht2.
    by rewrite orb_true_r in Ht2.
  - injection Heq as -> Heq.
    destruct (IH u2) as [-> ->]; [by rewrite ?app_String, ?app_empty|done].
Qed.

Lemma dedup_key_inj r1 r2 :
  IntelligentFilter.dedup_key r1 = IntelligentFilter.dedup_key r2 ↔
  url_status r1 = url_status r2.
Proof.
  unfold IntelligentFilter.dedup_key, url_status. split.
  - intros Heq.
    apply split_at_last_colon in Heq as [Hu Hs];
      [|apply str_of_int_no_colon..].
    apply (inj pretty) in Hs. by rewrite Hu, Hs.
  - by intros [= -> ->].
Qed.

(** ** Exact deduplication *)

Section ExactDedup.
Import IntelligentFilter.

(** What the loop adds to [unique_results]: one result per key not
    yet seen, each the first of its key in the input. *)
Lemma remove_duplicates_loop_spec rs seen acc :
  ∃ kept,
    _remove_duplicates_loop rs seen acc = acc ++ kept ∧
    NoDup (map dedup_key kept) ∧
    (∀ r', r' ∈ kept →
       (dedup_key r' ∉ seen) ∧
       find (fun r => bool_decide (dedup_key r = dedup_key r')) rs = Some r') ∧
    (∀ r, r ∈ rs → dedup_key r ∉ seen →
       ∃ r', r' ∈ kept ∧ dedup_key r' = dedup_key r).
Proof.
  revert seen acc. induction rs as [|r rest IH]; intros seen acc; simpl.
  - exists []. rewrite app_nil_r.
    split; [done|]. split; [constructor|]. split; set_solver.
  - case_bool_decide as Hseen.
    + destruct (IH seen acc) as (kept & Heq & Hnd & Hfirst & Hall).
      exists kept. split; [done|]. split; [done|]. split.
      * intros r' Hr'. destruct (Hfirst r' Hr') as [Hnot Hfind].
        split; [done|]. simpl.
        case_bool_decide as Hk; [congruence|done].
      * intros x Hx Hnot. apply elem_of_cons in Hx as [->|Hx]; [done|].
        by apply Hall.
    + destruct (IH ({[dedup_key r]} ∪ seen) (acc ++ [r]))
        as (kept & Heq & Hnd & Hfirst & Hall).
      exists (r :: kept). split; [by rewrite Heq, <-app_assoc|]. split.
      { simpl. constructor; [|done].
        intros Hin. apply list_elem_of_fmap in Hin as (r' & Hk & Hr').
        destruct (Hfirst r' Hr') as [Hnot _]. set_solver. }
      split.
      * intros r' Hr'. apply elem_of_cons in Hr' as [->|Hr'].
        { split; [done|]. simpl. by rewrite bool_decide_eq_true_2. }
        destruct (Hfirst r' Hr') as [Hnot Hfind].
        split; [set_solver|]. simpl.
        case_bool_decide as Hk; [set_solver|done].
      * intros x Hx Hnot.
        destruct (decide (dedup_key x = dedup_key r)) as [Hk|Hk].
        { exists r. split; [by left|done]. }
        apply elem_of_cons in Hx as [->|Hx]; [done|].
        destruct (Hall x Hx) as (r' & Hr' & Hkr'); [set_solver|].
        exists r'. split; [by right|done].
Qed.

End ExactDedup.

(** ** Stable sorting *)

Section StableSort.
Import IntelligentFilter.
Context {A : Type} (key : A → Z).

Lemma sorted_insert_Permutation x l : sorted_insert key x l ≡ₚ x :: l.
Proof.
  induction l as [|y l IH]; simpl; [done|].
  case_match; [done|]. by rewrite IH, Permutation_swap.
Qed.

Lemma sorted_Permutation l : sorted key l ≡ₚ l.
Proof.
  induction l as [|x l IH]; simpl; [done|].
  by rewrite sorted_insert_Permutation, IH.
Qed.

Lemma sorted_insert_StronglySorted x l :
  StronglySorted (fun a b => key a ≤ key b) l →
  StronglySorted (fun a b => key a ≤ key b) (sorted_insert key x l).
Proof.
  induction 1 as [|y l Hl IH Hy]; simpl.
  - repeat constructor.
  - destruct (key x <=? key y) eqn:Hle.
    + apply Z.leb_le in Hle. constructor; [by constructor|].
      constructor; [done|].
      eapply Forall_impl; [exact Hy|]. simpl. intros z Hz. lia.
    + apply Z.leb_gt in Hle. constructor; [done|].
      rewrite sorted_insert_Permutation. constructor; [lia|done].
Qed.

Lemma sorted_StronglySorted l :
  StronglySorted (fun a b => key a ≤ key b) (sorted key l).
Proof.
  induction l as [|x l IH]; simpl; [constructor|].
  by apply sorted_insert_StronglySorted.
Qed.

(** An inserted element passes smaller keys only, so it stays in
    front of the equal ones that were there. *)
Lemma sorted_insert_filter k x l :
  filter (fun a => key a = k) (sorted_insert key x l)
  = filter (fun a => key a = k) (x :: l).
Proof.
  induction l as [|y l IH]; simpl; [done|].
  destruct (key x <=? key y) eqn:Hle; [done|].
  apply Z.leb_gt in Hle.
  rewrite (filter_cons _ y (sorted_insert key x l)), IH.
  rewrite !filter_cons.
  destruct (decide (key y = k)), (decide (key x = k)); try done; lia.
Qed.

Lemma sorted_stable k l :
  filter (fun a => key a = k) (sorted key l) = filter (fun a => key a = k) l.
Proof.
  induction l as [|x l IH]; simpl; [done|].
  by rewrite sorted_insert_filter, !filter_cons, IH.
Qed.

Lemma StronglySorted_map_key l :
  StronglySorted (fun a b => key a ≤ key b) l →
  StronglySorted Z.le (map key l).
Proof.
  induction 1 as [|y l Hl IH Hy]; simpl; constructor; [done|].
  by apply Forall_fmap.
Qed.

(** The keys come out in one order whatever the order they came in. *)
Lemma sorted_keys_order_free l1 l2 :
  l1 ≡ₚ l2 → map key (sorted key l1) = map key (sorted key l2).
Proof.
  intros Hp. apply (StronglySorted_unique Z.le).
  - apply StronglySorted_map_key, sorted_StronglySorted.
  - apply StronglySorted_map_key, sorted_StronglySorted.
  - apply Permutation_map. by rewrite !sorted_Permutation.
Qed.

Lemma map_inj_on (l1 l2 : list A) :
  (∀ a b, a ∈ l1 → b ∈ l2 → key a = key b → a = b) →
  map key l1 = map key l2 → l1 = l2.
Proof.
  revert l2. induction l1 as [|a l1 IH]; intros [|b l2] Hinj Heq;
    simpl in Heq; try done.
  injection Heq as Hk Heq.
  rewrite (Hinj a b) by (done || by left).
  f_equal. apply IH; [|done].
  intros x y Hx Hy. apply Hinj; by right.
Qed.

Lemma sorted_order_free_distinct_keys l1 l2 :
  l1 ≡ₚ l2 → NoDup (map key l1) → sorted key l1 = sorted key l2.
Proof.
  intros Hp Hnd. apply map_inj_on; [|by apply sorted_keys_order_free].
  intros a b Ha Hb Hk.
  rewrite sorted_Permutation in Ha. rewrite sorted_Permutation, <-Hp in Hb.
  clear Hp. induction l1 as [|x l1 IH]; [by apply elem_of_nil in Ha|].
  simpl in Hnd. apply NoDup_cons in Hnd as [Hx Hnd].
  apply elem_of_cons in Ha as [->|Ha], Hb as [->|Hb]; try done.
  - exfalso. apply Hx. rewrite Hk. by apply list_elem_of_fmap_2.
  - exfalso. apply Hx. rewrite <-Hk. by apply list_elem_of_fmap_2.
  - by apply IH.
Qed.

End StableSort.

(** ** Content-equivalence collapsing *)

Section BetterResult.
Import IntelligentFilter.

Local Ltac by_status :=
  unfold _is_better_result;
  repeat match goal with
         | |- context [?a =? ?b] => destruct (Z.eqb_spec a b)
         | H : context [?a =? ?b] |- _ => destruct (Z.eqb_spec a b)
         end; simpl in *;
  rewrite ?Z.ltb_lt, ?Z.ltb_ge in *; try done; try lia.

Lemma better_irrefl r : _is_better_result r r = false.
Proof. by_status. Qed.

Lemma better_not_beaten x r e :
  _is_better_result x e = false → _is_better_result r e = true →
  _is_better_result x r = false.
Proof. by_status. Qed.

Lemma better_beats_rest x r e :
  _is_better_result x e = false → _is_better_result r e = true →
  _is_better_result r x = true.
Proof. by_status. Qed.

Lemma better_status_ne r e :
  _is_better_result r e = true → status_code r ≠ status_code e.
Proof. by_status. Qed.

Lemma unbeaten_same_status a b :
  _is_better_result a b = false → _is_better_result b a = false →
  status_code a = status_code b.
Proof. by_status. Qed.

(** Status 200 beats any other status; among the others the lower
    status wins; a result never beats one of its own status. *)
Lemma better_rule a b :
  _is_better_result a b = true ↔
    (status_code a = 200 ∧ status_code b ≠ 200) ∨
    (status_code a ≠ 200 ∧ status_code b ≠ 200
     ∧ status_code a < status_code b).
Proof. split; [|intros [[??]|(?&?&?)]]; by_status. Qed.

End BetterResult.

Section ListFacts.
Context {A : Type}.

Lemma find_app_Some (f : A → bool) l1 l2 x :
  find f l1 = Some x → find f (l1 ++ l2) = Some x.
Proof.
  induction l1 as [|a l1 IH]; simpl; [done|]. by destruct (f a).
Qed.

Lemma find_app_None (f : A → bool) l1 l2 :
  find f l1 = None → find f (l1 ++ l2) = find f l2.
Proof.
  induction l1 as [|a l1 IH]; simpl; [done|]. by destruct (f a).
Qed.

Lemma find_none_iff (f : A → bool) l :
  find f l = None ↔ ∀ x, x ∈ l → f x = false.
Proof.
  split.
  - intros Hf x Hx. eapply find_none; [done|]. by apply list_elem_of_In.
  - induction l as [|a l IH]; simpl; [done|]. intros Hall.
    rewrite (Hall a) by by left. apply IH. intros x Hx. apply Hall. by right.
Qed.

End ListFacts.

Section Collapse.
Import IntelligentFilter.
Context `{Collaborators}.

Lemma NoDup_map_elem_inj {A B} (f : A → B) (l : list A) x y :
  NoDup (map f l) → x ∈ l → y ∈ l → f x = f y → x = y.
Proof.
  induction l as [|a l IH]; simpl; intros Hnd Hx Hy Hf.
  - by apply elem_of_nil in Hx.
  - apply NoDup_cons in Hnd as [Ha Hnd].
    apply elem_of_cons in Hx as [->|Hx], Hy as [->|Hy]; try done.
    + exfalso. apply Ha. rewrite Hf. by apply list_elem_of_fmap_2.
    + exfalso. apply Ha. rewrite <-Hf. by apply list_elem_of_fmap_2.
    + by apply IH.
Qed.

(** With one entry per URL, the entry replaced is the cached one. *)
Lemma replace_first_exact e r l :
  e ∈ l → (∀ x, x ∈ l → url x = url e → x = e) →
  ∃ l1 l2, l = l1 ++ e :: l2 ∧ replace_first (url e) r l = l1 ++ r :: l2.
Proof.
  induction l as [|x l IH]; intros He Hurl.
  - by apply elem_of_nil in He.
  - simpl. case_bool_decide as Hx.
    + rewrite (Hurl x) by (done || by left).
      by exists [], l.
    + apply elem_of_cons in He as [->|He]; [done|].
      destruct IH as (l1 & l2 & -> & ->); [done| |].
      { intros y Hy. apply Hurl. by right. }
      by exists (x :: l1), l2.
Qed.

Lemma collapse_inv_empty : collapse_inv [] ∅ [].
Proof.
  split; [|split; [|split]].
  - intros h rep Hl. by rewrite lookup_empty in Hl.
  - intros r Hr. by apply elem_of_nil in Hr.
  - intros u Hu. by apply elem_of_nil in Hu.
  - constructor.
Qed.

(** A result of a class not met before opens the class. *)
Lemma collapse_inv_new seen cache unique r :
  cache !! content_hash r = None →
  collapse_inv seen cache unique →
  collapse_inv (seen ++ [r]) (<[content_hash r := r]> cache) (unique ++ [r]).
Proof.
  intros Hnone (Hc & Hs & Hu & Hnd).
  assert (∀ x, x ∈ seen → content_hash x ≠ content_hash r) as Hfresh.
  { intros x Hx Heq. destruct (Hs x Hx) as [e He]. congruence. }
  split; [|split; [|split]].
  - intros h rep Hl.
    destruct (decide (content_hash r = h)) as [<-|Hne].
    + rewrite lookup_insert_eq in Hl. injection Hl as <-.
      split; [set_solver|]. split; [done|]. split; [set_solver|]. split.
      * intros x Hx Hh. apply elem_of_app in Hx as [Hx|Hx].
        { by destruct (Hfresh x Hx). }
        apply list_elem_of_singleton in Hx as ->. apply better_irrefl.
      * unfold earliest_of_status. rewrite find_app_None.
        { simpl. by rewrite bool_decide_eq_true_2. }
        apply find_none_iff. intros x Hx.
        apply bool_decide_eq_false_2. intros [Hh _].
        by destruct (Hfresh x Hx).
    + rewrite lookup_insert_ne in Hl by done.
      destruct (Hc h rep Hl) as (Hin & Hh & Hun & Hbest & Hfirst).
      split; [set_solver|]. split; [done|]. split; [set_solver|]. split.
      * intros x Hx Hxh. apply elem_of_app in Hx as [Hx|Hx]; [by apply Hbest|].
        apply list_elem_of_singleton in Hx as ->. done.
      * by apply find_app_Some.
  - intros x Hx. apply lookup_insert_is_Some'.
    apply elem_of_app in Hx as [Hx|Hx]; [right; by apply Hs|].
    apply list_elem_of_singleton in Hx as ->. by left.
  - intros u Hx. apply elem_of_app in Hx as [Hx|Hx].
    + rewrite lookup_insert_ne; [by apply Hu|].
      intros Heq. specialize (Hu u Hx). congruence.
    + apply list_elem_of_singleton in Hx as ->. apply lookup_insert_eq.
  - rewrite map_app. apply NoDup_app. split; [done|]. split.
    + intros h Hh Hr. apply list_elem_of_singleton in Hr as ->.
      apply list_elem_of_fmap in Hh as (u & Heq & Hx).
      specialize (Hu u Hx). congruence.
    + apply NoDup_singleton.
Qed.

(** A result that does not beat the cached one of its class is
    dropped. *)
Lemma collapse_inv_keep seen cache unique r e :
  cache !! content_hash r = Some e →
  _is_better_result r e = false →
  collapse_inv seen cache unique →
  collapse_inv (seen ++ [r]) cache unique.
Proof.
  intros He Hworse (Hc & Hs & Hu & Hnd).
  split; [|split; [|split]]; [| |done|done].
  - intros h rep Hl.
    destruct (Hc h rep Hl) as (Hin & Hh & Hun & Hbest & Hfirst).
    split; [set_solver|]. split; [done|]. split; [done|]. split.
    + intros x Hx Hxh. apply elem_of_app in Hx as [Hx|Hx]; [by apply Hbest|].
      apply list_elem_of_singleton in Hx as ->.
      rewrite Hxh in He. by simplify_eq.
    + by apply find_app_Some.
  - intros x Hx. apply elem_of_app in Hx as [Hx|Hx]; [by apply Hs|].
    apply list_elem_of_singleton in Hx as ->. by exists e.
Qed.

(** A result that beats the cached one of its class takes its
    place, in the cache and in [unique_results]. *)
Lemma collapse_inv_better seen cache unique r e :
  cache !! content_hash r = Some e →
  _is_better_result r e = true →
  NoDup (map url seen) →
  collapse_inv seen cache unique →
  collapse_inv (seen ++ [r]) (<[content_hash r := r]> cache)
    (replace_first (url e) r unique).
Proof.
  intros He Hbetter Hurls (Hc & Hs & Hu & Hnd).
  destruct (Hc _ e He) as (Hein & Heh & Heun & Hebest & _).
  destruct (replace_first_exact e r unique) as (l1 & l2 & -> & ->); [done| |].
  { intros x Hx Hxe. apply (NoDup_map_elem_inj url seen); try done.
    by destruct (Hc _ x (Hu x Hx)) as (? & _). }
  assert (∀ u, u ∈ l1 ++ l2 → content_hash u ≠ content_hash r) as Hothers.
  { intros u Hx Heq. rewrite map_app in Hnd. simpl in Hnd.
    apply NoDup_app in Hnd as (_ & Hdisj & Htl).
    apply NoDup_cons in Htl as [Hnotin _].
    apply elem_of_app in Hx as [Hx|Hx].
    - apply (Hdisj (content_hash u)); [by apply list_elem_of_fmap_2|].
      rewrite Heq, <-Heh. by left.
    - apply Hnotin. rewrite Heh, <-Heq. by apply list_elem_of_fmap_2. }
  split; [|split; [|split]].
  - intros h rep Hl.
    destruct (decide (content_hash r = h)) as [<-|Hne].
    + rewrite lookup_insert_eq in Hl. injection Hl as <-.
      split; [set_solver|]. split; [done|]. split; [set_solver|]. split.
      * intros x Hx Hh. apply elem_of_app in Hx as [Hx|Hx].
        { eapply better_not_beaten; [|done]. by apply Hebest. }
        apply list_elem_of_singleton in Hx as ->. apply better_irrefl.
      * unfold earliest_of_status. rewrite find_app_None.
        { simpl. by rewrite bool_decide_eq_true_2. }
        apply find_none_iff. intros x Hx.
        apply bool_decide_eq_false_2. intros [Hh Hst].
        eapply (better_status_ne r x); [|done].
        eapply better_beats_rest; [|done]. by apply Hebest.
    + rewrite lookup_insert_ne in Hl by done.
      destruct (Hc h rep Hl) as (Hin & Hh & Hun & Hbest & Hfirst).
      split; [set_solver|]. split; [done|]. split.
      { apply elem_of_app in Hun as [Hun|Hun]; [set_solver|].
        apply elem_of_cons in Hun as [->|Hun]; [congruence|set_solver]. }
      split.
      * intros x Hx Hxh. apply elem_of_app in Hx as [Hx|Hx]; [by apply Hbest|].
        apply list_elem_of_singleton in Hx as ->. done.
      * by apply find_app_Some.
  - intros x Hx. apply lookup_insert_is_Some'.
    apply elem_of_app in Hx as [Hx|Hx]; [right; by apply Hs|].
    apply list_elem_of_singleton in Hx as ->. by left.
  - intros u Hx.
    destruct (decide (u = r)) as [->|Hur]; [apply lookup_insert_eq|].
    assert (u ∈ l1 ++ l2) as Hu12 by set_solver.
    rewrite lookup_insert_ne; [|intros Heq; by apply (Hothers u)].
    apply Hu. set_solver.
  - rewrite map_app in *. simpl in *. by rewrite <-Heh.
Qed.

Lemma remove_similar_loop_inv rs seen cache unique :
  collapse_inv seen cache unique →
  NoDup (map url (seen ++ rs)) →
  collapse_inv (seen ++ rs)
    (_remove_similar_loop rs cache unique).2
    (_remove_similar_loop rs cache unique).1.
Proof.
  revert seen cache unique.
  induction rs as [|r rest IH]; intros seen cache unique Hinv Hurls; simpl.
  - by rewrite app_nil_r.
  - assert (NoDup (map url seen)) as Hseen.
    { rewrite map_app in Hurls. by apply NoDup_app in Hurls as (? & _). }
    replace (seen ++ r :: rest) with ((seen ++ [r]) ++ rest) in *
      by by rewrite <-app_assoc.
    fold (content_hash r).
    destruct (cache !! content_hash r) as [e|] eqn:He.
    + destruct (_is_better_result r e) eqn:Hb.
      * apply IH; [|done]. by apply collapse_inv_better.
      * apply IH; [|done]. by eapply collapse_inv_keep.
    + apply IH; [|done]. by apply collapse_inv_new.
Qed.

Lemma remove_similar_inv rs :
  NoDup (map url rs) →
  collapse_inv rs (_remove_similar_responses rs ∅).2
    (_remove_similar_responses rs ∅).1.
Proof.
  intros Hurls. apply (remove_similar_loop_inv rs []); [|done].
  apply collapse_inv_empty.
Qed.

End Collapse.

(** ** What the stages keep *)

Section StagesKeep.
Import IntelligentFilter.
Context `{Collaborators}.

Lemma replace_first_displaces u r l :
  ∃ d, replace_first u r l ++ d ≡ₚ l ++ [r].
Proof.
  induction l as [|x l [d IH]]; simpl.
  - by exists [r].
  - case_bool_decide.
    + exists [x]. simpl.
      rewrite <-(Permutation_cons_append l x), <-(Permutation_cons_append l r).
      apply Permutation_swap.
    + exists d. simpl. by rewrite IH.
Qed.

(** Every entry of the output of the collapsing loop is an entry of
    [unique_results] or of the input, each used at most once. *)
Lemma remove_similar_loop_submultiset rs cache unique :
  ∃ dropped,
    (_remove_similar_loop rs cache unique).1 ++ dropped ≡ₚ unique ++ rs.
Proof.
  revert cache unique. induction rs as [|r rest IH]; intros cache unique; simpl.
  - exists []. done.
  - destruct (cache !! _) as [e|].
    + destruct (_is_better_result r e).
      * destruct (IH (<[_calculate_content_hash (content r) := r]> cache)
                    (replace_first (url e) r unique)) as [dropped Hp].
        destruct (replace_first_displaces (url e) r unique) as [d Hd].
        exists (dropped ++ d). rewrite app_assoc, Hp.
        rewrite <-app_assoc, (Permutation_app_comm rest d), app_assoc, Hd.
        by rewrite <-app_assoc.
      * destruct (IH cache unique) as [dropped Hp].
        exists (r :: dropped).
        rewrite <-Permutation_middle, Hp. apply Permutation_middle.
    + destruct (IH (<[_calculate_content_hash (content r) := r]> cache)
                  (unique ++ [r])) as [dropped Hp].
      exists dropped. by rewrite Hp, <-app_assoc.
Qed.

Lemma remove_similar_subset rs cache r :
  r ∈ (_remove_similar_responses rs cache).1 → r ∈ rs.
Proof.
  intros Hr.
  destruct (remove_similar_loop_submultiset rs cache []) as [dropped Hp].
  simpl in Hp. rewrite <-Hp. apply elem_of_app. by left.
Qed.

Lemma remove_similar_NoDup {B} (f : Result → B) rs cache :
  NoDup (map f rs) → NoDup (map f (_remove_similar_responses rs cache).1).
Proof.
  intros Hnd.
  destruct (remove_similar_loop_submultiset rs cache []) as [dropped Hp].
  simpl in Hp. rewrite <-Hp, map_app in Hnd.
  by apply NoDup_app in Hnd as (? & _).
Qed.

Lemma remove_duplicates_subset rs r :
  r ∈ _remove_duplicates rs → r ∈ rs.
Proof.
  unfold _remove_duplicates.
  destruct (remove_duplicates_loop_spec rs ∅ [])
    as (kept & -> & _ & Hfirst & _).
  simpl. intros Hr. destruct (Hfirst r Hr) as [_ Hfind].
  apply find_some in Hfind as [Hin _]. by apply list_elem_of_In.
Qed.

(** Whatever [filter_results] lets through was in its input and
    passed [_is_interesting]. *)
Lemma filter_results_sound cfg rs cache r :
  r ∈ (filter_results cfg rs cache).1 →
  r ∈ rs ∧ _is_interesting cfg r = true.
Proof.
  unfold filter_results. intros Hr.
  apply remove_similar_subset, remove_duplicates_subset in Hr.
  by apply list_elem_of_filter in Hr as [? ?].
Qed.

End StagesKeep.

(** ** The acceptance filter *)

Section Acceptance.
Import IntelligentFilter.
Context `{Collaborators}.

Lemma if_false_iff (c rest : bool) :
  (if c then false else rest) = false ↔ c = true ∨ rest = false.
Proof. destruct c, rest; naive_solver. Qed.

Lemma list_truthy_iff {A} (l : list A) : Py.list_truthy l = true ↔ l ≠ [].
Proof. by destruct l. Qed.

Lemma int_truthy_iff n : Py.int_truthy n = true ↔ n ≠ 0.
Proof. unfold Py.int_truthy. destruct (Z.eqb_spec n 0); naive_solver. Qed.

Lemma existsb_elem_of {A} (f : A → bool) l :
  existsb f l = true ↔ ∃ x, x ∈ l ∧ f x = true.
Proof.
  rewrite existsb_exists. by setoid_rewrite list_elem_of_In.
Qed.

Lemma is_interesting_false_iff cfg r :
  _is_interesting cfg r = false ↔
    (include_status_codes cfg ≠ []
     ∧ status_code r ∉ include_status_codes cfg)
    ∨ status_code r ∈ exclude_status_codes cfg
    ∨ (min_response_size cfg ≠ 0
       ∧ content_length r < min_response_size cfg)
    ∨ (max_response_size cfg ≠ 0
       ∧ content_length r > max_response_size cfg)
    ∨ _format_size (content_length r) ∈ exclude_sizes cfg
    ∨ (∃ p, p ∈ false_positive_patterns
            ∧ re_search p (str_lower (content r)) = true)
    ∨ (∃ t, t ∈ exclude_text cfg ∧ Py.str_in t (content r) = true)
    ∨ (∃ p, p ∈ exclude_regex cfg ∧ re_search p (content r) = true).
Proof.
  unfold _is_interesting, _is_false_positive, _matches_size.
  rewrite !if_false_iff.
  rewrite andb_true_iff, negb_true_iff, bool_decide_eq_false, list_truthy_iff.
  rewrite bool_decide_eq_true.
  rewrite !andb_true_iff, !int_truthy_iff, Z.ltb_lt, Z.gtb_gt.
  rewrite !existsb_elem_of.
  assert ((∃ x, x ∈ exclude_sizes cfg
                ∧ bool_decide (_format_size (content_length r) = x) = true)
          ↔ _format_size (content_length r) ∈ exclude_sizes cfg) as ->.
  { split.
    - intros (x & Hx & Heq). apply bool_decide_eq_true in Heq. by subst.
    - intros Hin. eexists. split; [done|]. by apply bool_decide_eq_true. }
  naive_solver.
Qed.

End Acceptance.

Section Substring.

Lemma prefix_iff t s : String.prefix t s = true ↔ ∃ b, s = t +:+ b.
Proof.
  revert s. induction t as [|a t IH]; intros [|c s]; simpl.
  - split; [by exists EmptyString|done].
  - split; [by exists (String c s)|done].
  - split; [done|]. intros [b Hb]. by rewrite app_String in Hb.
  - destruct (ascii_dec a c) as [->|Hne].
    + rewrite IH. split; intros [b Hb]; exists b.
      * by rewrite app_String, Hb.
      * rewrite app_String in Hb. by injection Hb.
    + split; [done|]. intros [b Hb]. rewrite app_String in Hb.
      injection Hb as Hc _. congruence.
Qed.

Lemma str_in_empty t : Py.str_in t EmptyString = String.prefix t EmptyString.
Proof. simpl. apply orb_false_r. Qed.

Lemma str_in_String t c s :
  Py.str_in t (String c s) = String.prefix t (String c s) || Py.str_in t s.
Proof. reflexivity. Qed.

(** [Py.str_in] is the test for a substring. *)
Lemma str_in_iff t s : Py.str_in t s = true ↔ ∃ a b, s = a +:+ t +:+ b.
Proof.
  induction s as [|c s IH].
  - rewrite str_in_empty, prefix_iff. split.
    + intros [b Hb]. by exists EmptyString, b.
    + intros ([|a0 a] & b & Hb); [by exists b|].
      by rewrite app_String in Hb.
  - rewrite str_in_String, orb_true_iff, prefix_iff, IH. split.
    + intros [[b Hb]|(a & b & Hb)]; [by exists EmptyString, b|].
      exists (String c a), b. by rewrite app_String, Hb.
    + intros ([|a0 a] & b & Hb); [left; by exists b|].
      right. rewrite app_String in Hb. injection Hb as _ Hb.
      by exists a, b.
Qed.

End Substring.

(** The size token: bytes below 1024, then whole kilobytes, then
    whole megabytes, the fraction dropped. *)
Example format_size_tokens :
  IntelligentFilter._format_size 512 = "512B"
  ∧ IntelligentFilter._format_size 1536 = "1KB"
  ∧ IntelligentFilter._format_size 5767168 = "5MB".
Proof. repeat split; by vm_compute. Qed.

(** C5 (as amended).  [_is_interesting] rejects a result exactly
    when one of these holds: the include-set is not empty and the
    status code is outside it; the status code is in the exclude-set;
    the minimum size is not zero and the content length is below it;
    the maximum size is not zero and the content length is above it;
    the formatted size is an excluded size; the body, in lower case,
    matches a built-in false-positive pattern; the body contains an
    excluded text; the body matches an excluded regular expression.
    With [exclude_status_codes = [404; 429]] no result of status 404
    is in the output of the pipeline, and with
    [min_response_size = 100] no result of content length 10 is. *)
Theorem C5_acceptance_filter `{Collaborators} (cfg : ScanConfig) (r : Result) :
  (IntelligentFilter._is_interesting cfg r = false ↔
     (include_status_codes cfg ≠ []
      ∧ status_code r ∉ include_status_codes cfg)
     ∨ status_code r ∈ exclude_status_codes cfg
     ∨ (min_response_size cfg ≠ 0
        ∧ content_length r < min_response_size cfg)
     ∨ (max_response_size cfg ≠ 0
        ∧ content_length r > max_response_size cfg)
     ∨ IntelligentFilter._format_size (content_length r) ∈ exclude_sizes cfg
     ∨ (∃ p, p ∈ IntelligentFilter.false_positive_patterns
             ∧ re_search p (str_lower (content r)) = true)
     ∨ (∃ t a b, t ∈ exclude_text cfg ∧ content r = a +:+ t +:+ b)
     ∨ (∃ p, p ∈ exclude_regex cfg ∧ re_search p (content r) = true))
  ∧ (∀ rs cache,
       exclude_status_codes cfg = [404; 429] → status_code r = 404 →
       r ∉ IntelligentFilter.prioritize_results
             (IntelligentFilter.filter_results cfg rs cache).1)
  ∧ (∀ rs cache,
       min_response_size cfg = 100 → content_length r = 10 →
       r ∉ IntelligentFilter.prioritize_results
             (IntelligentFilter.filter_results cfg rs cache).1).
Proof.
  assert (∀ rs cache,
            IntelligentFilter._is_interesting cfg r = false →
            r ∉ IntelligentFilter.prioritize_results
                  (IntelligentFilter.filter_results cfg rs cache).1) as Hout.
  { intros rs cache Hrej Hin. unfold IntelligentFilter.prioritize_results in Hin.
    rewrite sorted_Permutation in Hin.
    apply filter_results_sound in Hin as [_ Hok]. congruence. }
  split; [|split].
  - rewrite is_interesting_false_iff.
    assert ((∃ t, t ∈ exclude_text cfg ∧ Py.str_in t (content r) = true)
            ↔ (∃ t a b, t ∈ exclude_text cfg ∧ content r = a +:+ t +:+ b)) as ->;
      [|done].
    split.
    + intros (t & Ht & Hin). apply str_in_iff in Hin as (a & b & Hab).
      by exists t, a, b.
    + intros (t & a & b & Ht & Hab). exists t. split; [done|].
      apply str_in_iff. by exists a, b.
  - intros rs cache Hex Hst. apply Hout, is_interesting_false_iff.
    right; left. rewrite Hex, Hst. set_solver.
  - intros rs cache Hmin Hlen. apply Hout, is_interesting_false_iff.
    right; right; left. rewrite Hmin, Hlen. lia.
Qed.

(** C5, an instance: the configuration of Scenario B and a result of
    status 404. *)
Lemma C5_acceptance_filter_witness :
  page "https://t/gone" 404 120 "gone" ∉
    IntelligentFilter.prioritize_results
      (@IntelligentFilter.filter_results sample_world default_config
         [page "https://t/gone" 404 120 "gone"; page "https://t/a" 200 50 "hello"]
         ∅).1.
Proof.
  apply (proj1 (proj2 (@C5_acceptance_filter sample_world default_config
                         (page "https://t/gone" 404 120 "gone")))).
  - reflexivity.
  - reflexivity.
Defined.

(** C5 as first stated fails: a status code outside an empty
    include-set is not a reason to reject. *)
Lemma C5_empty_include_set_accepts :
  let cfg := with_filters [] [404; 429] 0 0 default_config in
  let r := page "https://t/a" 200 50 "hello" in
  (status_code r ∉ include_status_codes cfg)
  ∧ @IntelligentFilter._is_interesting sample_world cfg r = true.
Proof. split; [apply not_elem_of_nil|reflexivity]. Qed.

(** Results of classes that the cache does not hold, no two of one
    class, all go through [_remove_similar_responses]. *)
Lemma remove_similar_loop_fresh `{Collaborators} (rs : list Result)
    (cache : gmap string Result) (unique : list Result) :
  NoDup (map content_hash rs) →
  (∀ r, r ∈ rs → cache !! content_hash r = None) →
  (IntelligentFilter._remove_similar_loop rs cache unique).1 = unique ++ rs.
Proof.
  revert cache unique.
  induction rs as [|r rs IH]; intros cache unique Hnd Hfresh; simpl.
  - by rewrite app_nil_r.
  - apply NoDup_cons in Hnd as [Hr Hnd].
    fold (content_hash r). rewrite (Hfresh r) by by left.
    rewrite IH; [by rewrite <-app_assoc|done|].
    intros x Hx. rewrite lookup_insert_ne; [apply Hfresh; by right|].
    intros Heq. apply Hr. apply list_elem_of_fmap. by exists x.
Qed.

(** C4 (as amended).  [_remove_duplicates] keeps one result for every
    pair (url, status code) of its input, the first one seen.  The
    output of one call of the pipeline never holds two results of
    one pair, and what it holds of a pair is the first result of
    that pair among those the acceptance filter lets through; it
    holds one for every such pair when the cache of the filter knows
    none of their content classes and no two of them are of one
    class. *)
Theorem C4_exact_dedup_first_seen `{Collaborators} (rs : list Result) :
  let out := IntelligentFilter._remove_duplicates rs in
  NoDup (map url_status out)
  ∧ (∀ r, r ∈ rs → ∃ r', r' ∈ out ∧ url_status r' = url_status r)
  ∧ (∀ r', r' ∈ out →
       find (fun r => bool_decide (url_status r = url_status r')) rs = Some r')
  ∧ (∀ cfg cache,
       let accepted :=
         filter (fun r => IntelligentFilter._is_interesting cfg r = true) rs in
       let output :=
         IntelligentFilter.prioritize_results
           (IntelligentFilter.filter_results cfg rs cache).1 in
       NoDup (map url_status output)
       ∧ (∀ r', r' ∈ output →
            find (fun r => bool_decide (url_status r = url_status r'))
              accepted = Some r')
       ∧ (NoDup (map content_hash
                   (IntelligentFilter._remove_duplicates accepted)) →
          (∀ r, r ∈ accepted → cache !! content_hash r = None) →
          output
          = IntelligentFilter.prioritize_results
              (IntelligentFilter._remove_duplicates accepted))).
Proof.
  assert (∀ l, NoDup (map url_status (IntelligentFilter._remove_duplicates l)))
    as Hnodup.
  { intros l. unfold IntelligentFilter._remove_duplicates.
    destruct (remove_duplicates_loop_spec l ∅ []) as (kept & -> & Hnd & _).
    simpl. clear -Hnd. induction kept as [|k kept IH]; simpl; [constructor|].
    simpl in Hnd. apply NoDup_cons in Hnd as [Hk Hnd].
    constructor; [|by apply IH].
    intros Hin. apply Hk. apply list_elem_of_fmap in Hin as (k' & Heq & Hk').
    apply list_elem_of_fmap. exists k'. split; [|done]. by apply dedup_key_inj. }
  assert (∀ l r', r' ∈ IntelligentFilter._remove_duplicates l →
            find (fun r => bool_decide (url_status r = url_status r')) l
            = Some r') as Hfirst_seen.
  { intros l r'. unfold IntelligentFilter._remove_duplicates.
    destruct (remove_duplicates_loop_spec l ∅ [])
      as (kept & -> & _ & Hfirst & _).
    simpl. intros Hr'. destruct (Hfirst r' Hr') as [_ Hfind].
    rewrite <-Hfind. clear. induction l as [|x l IH]; simpl; [done|].
    rewrite IH.
    by rewrite (bool_decide_ext _ _ (dedup_key_inj x r')). }
  simpl. split; [apply Hnodup|]. split; [|split; [apply Hfirst_seen|]].
  - unfold IntelligentFilter._remove_duplicates.
    destruct (remove_duplicates_loop_spec rs ∅ [])
      as (kept & -> & Hnd & Hfirst & Hall).
    simpl. intros r Hr. destruct (Hall r Hr) as (r' & Hr' & Hk); [set_solver|].
    exists r'. split; [done|]. by apply dedup_key_inj.
  - intros cfg cache. unfold IntelligentFilter.prioritize_results.
    split; [|split].
    + rewrite sorted_Permutation. unfold IntelligentFilter.filter_results.
      apply remove_similar_NoDup, Hnodup.
    + intros r' Hr'. rewrite sorted_Permutation in Hr'.
      unfold IntelligentFilter.filter_results in Hr'.
      by apply remove_similar_subset, Hfirst_seen in Hr'.
    + intros Hclasses Hfresh. f_equal.
      unfold IntelligentFilter.filter_results,
        IntelligentFilter._remove_similar_responses.
      rewrite remove_similar_loop_fresh; [done|done|].
      intros r Hr. by apply Hfresh, remove_duplicates_subset.
Qed.

(** C4, an instance: the two equal results of Scenario A. *)
Lemma C4_exact_dedup_first_seen_witness :
  ∃ r', r' ∈ IntelligentFilter._remove_duplicates
               [page "/a" 200 50 "x"; page "/a" 200 50 "x"]
        ∧ url_status r' = url_status (page "/a" 200 50 "x").
Proof.
  apply (proj1 (proj2 (@C4_exact_dedup_first_seen sample_world
                         [page "/a" 200 50 "x"; page "/a" 200 50 "x"]))
           (page "/a" 200 50 "x")).
  apply list_elem_of_here.
Defined.

(** C4 as first stated fails.  The set of pairs seen is a local of
    [_remove_duplicates] and is gone when the call returns: the same
    pair submitted in two calls, with another body, is output by
    both.  And a pair may have no output at all: a result of a
    content class that is already represented is dropped with its
    pair. *)
Lemma C4_pair_output_twice :
  let first := @IntelligentFilter.filter_results sample_world default_config
                 [page "/a" 200 50 "x"] ∅ in
  let second := @IntelligentFilter.filter_results sample_world default_config
                  [page "/a" 200 50 "y"] first.2 in
  IntelligentFilter.prioritize_results first.1 = [page "/a" 200 50 "x"]
  ∧ IntelligentFilter.prioritize_results second.1 = [page "/a" 200 50 "y"]
  ∧ url_status (page "/a" 200 50 "y") = url_status (page "/a" 200 50 "x")
  ∧ IntelligentFilter.prioritize_results
      (@IntelligentFilter.filter_results sample_world default_config
         [page "/b" 200 50 "x"; page "/a" 200 50 "x"] ∅).1
    = [page "/b" 200 50 "x"].
Proof. repeat split; by vm_compute. Qed.

(** Scenario A: two equal results go in, one comes out. *)
Example scenario_A :
  IntelligentFilter.prioritize_results
    (@IntelligentFilter.filter_results sample_world default_config
       [page "/a" 200 50 "x"; page "/a" 200 50 "x"] ∅).1
  = [page "/a" 200 50 "x"].
Proof. reflexivity. Qed.

(** The score of the source is the score of the specification. *)
Lemma sort_key_score r :
  IntelligentFilter.sort_key r
  = base_score (status_code r) + length_adjustment (content_length r).
Proof.
  unfold IntelligentFilter.sort_key, base_score, length_adjustment.
  repeat case_bool_decide; repeat case_decide;
    repeat match goal with
           | |- context [?a =? ?b] => destruct (Z.eqb_spec a b)
           | |- context [?a <? ?b] => destruct (Z.ltb_spec a b)
           | |- context [?a >? ?b] =>
               rewrite (Z.gtb_ltb a b); destruct (Z.ltb_spec b a)
           end;
    try lia;
    repeat match goal with
           | H : _ ∈ [] |- _ => apply elem_of_nil in H
           | H : _ ∈ _ :: _ |- _ => apply elem_of_cons in H as [?|?]
           | H : ¬ (_ ∈ _ :: _) |- _ => rewrite !not_elem_of_cons in H
           end;
    subst; try done; try lia;
    destruct (status_code r) as [|p|p]; try done;
    repeat (destruct p as [p|p|]; try done); naive_solver lia.
Qed.

(** C3 (as amended).  [prioritize_results] returns its input sorted
    ascending by the score: base 0 for status 200, 1 for 301 and 302,
    2 for 403, 3 for 401 and 10 for any other status; plus 5 for a
    content length of zero, plus 2 for a non-zero content length
    below 100, plus 1 for a content length above 1,000,000.  The sort
    is stable: results of equal score keep the order they came in.
    Reordering the input never changes the sequence of scores that
    comes out, and never changes the sequence of results when no two
    results have the same score. *)
Theorem C3_prioritize_sorted_stable (rs rs' : list Result) :
  let out := IntelligentFilter.prioritize_results rs in
  (∀ r, IntelligentFilter.sort_key r
        = base_score (status_code r) + length_adjustment (content_length r))
  ∧ out ≡ₚ rs
  ∧ StronglySorted by_score out
  ∧ (∀ k, filter (fun r => IntelligentFilter.sort_key r = k) out
          = filter (fun r => IntelligentFilter.sort_key r = k) rs)
  ∧ (rs ≡ₚ rs' →
     map IntelligentFilter.sort_key (IntelligentFilter.prioritize_results rs')
     = map IntelligentFilter.sort_key out)
  ∧ (rs ≡ₚ rs' → NoDup (map IntelligentFilter.sort_key rs) →
     IntelligentFilter.prioritize_results rs' = out).
Proof.
  simpl. unfold IntelligentFilter.prioritize_results.
  split; [apply sort_key_score|].
  split; [apply sorted_Permutation|].
  split; [apply sorted_StronglySorted|].
  split; [intros k; apply sorted_stable|].
  split.
  - intros Hp. by apply sorted_keys_order_free.
  - intros Hp Hnd. symmetry. by apply sorted_order_free_distinct_keys.
Qed.

(** C3, an instance: a 403 and a 200 come out in one order whichever
    way they went in. *)
Lemma C3_prioritize_sorted_stable_witness :
  IntelligentFilter.prioritize_results
    [page "/a" 200 500 "a"; page "/b" 403 500 "b"]
  = IntelligentFilter.prioritize_results
      [page "/b" 403 500 "b"; page "/a" 200 500 "a"].
Proof.
  apply (proj2 (proj2 (proj2 (proj2 (proj2
           (C3_prioritize_sorted_stable
              [page "/b" 403 500 "b"; page "/a" 200 500 "a"]
              [page "/a" 200 500 "a"; page "/b" 403 500 "b"])))))).
  - apply Permutation_swap.
  - vm_compute. repeat constructor; set_solver.
Defined.

(** C3 as first stated fails: two results of one score come out in
    the order they went in, so the other order gives another
    sequence. *)
Lemma C3_order_shows_on_ties :
  [page "/a" 200 500 "a"; page "/b" 200 600 "b"]
    ≡ₚ [page "/b" 200 600 "b"; page "/a" 200 500 "a"]
  ∧ IntelligentFilter.prioritize_results
      [page "/a" 200 500 "a"; page "/b" 200 600 "b"]
    ≠ IntelligentFilter.prioritize_results
        [page "/b" 200 600 "b"; page "/a" 200 500 "a"].
Proof. split; [apply Permutation_swap|by vm_compute]. Qed.

(** C2 (as amended).  Take results with pairwise distinct URLs and
    send them through [_remove_similar_responses] on an empty cache.
    Every content-equivalence class of the input keeps exactly one
    representative.  It is a result of the class that no result of
    the class beats, where status 200 beats any other status and
    among the others the lower status beats the higher; of the
    results of that status it is the one seen first.  In another
    submission order the representative of a class has the same
    status, and it is the same result whenever no other result of
    the class has that status. *)
Theorem C2_content_collapse `{Collaborators} (rs rs' : list Result) :
  NoDup (map url rs) → rs ≡ₚ rs' →
  let out := (IntelligentFilter._remove_similar_responses rs ∅).1 in
  let out' := (IntelligentFilter._remove_similar_responses rs' ∅).1 in
  NoDup (map content_hash out)
  ∧ (∀ r, r ∈ rs → ∃ rep, rep ∈ out ∧ content_hash rep = content_hash r)
  ∧ (∀ rep, rep ∈ out →
       rep ∈ rs
       ∧ (∀ r, r ∈ rs → content_hash r = content_hash rep →
            IntelligentFilter._is_better_result r rep = false)
       ∧ earliest_of_status (content_hash rep) rep rs)
  ∧ (∀ a b, IntelligentFilter._is_better_result a b = true ↔
       (status_code a = 200 ∧ status_code b ≠ 200)
       ∨ (status_code a ≠ 200 ∧ status_code b ≠ 200
          ∧ status_code a < status_code b))
  ∧ (∀ rep rep', rep ∈ out → rep' ∈ out' →
       content_hash rep = content_hash rep' →
       status_code rep = status_code rep')
  ∧ (∀ rep, rep ∈ out →
       (∀ r, r ∈ rs → content_hash r = content_hash rep →
          status_code r = status_code rep → r = rep) →
       rep ∈ out').
Proof.
  intros Hurls Hperm out out'.
  assert (NoDup (map url rs')) as Hurls' by by rewrite <-Hperm.
  destruct (remove_similar_inv rs Hurls) as (Hc & Hs & Hu & Hnd).
  destruct (remove_similar_inv rs' Hurls') as (Hc' & Hs' & Hu' & Hnd').
  fold out in Hc, Hu, Hnd. fold out' in Hc', Hu', Hnd'.
  assert (∀ rep rep', rep ∈ out → rep' ∈ out' →
            content_hash rep = content_hash rep' →
            status_code rep = status_code rep') as Hsame.
  { intros rep rep' Hrep Hrep' Hh.
    destruct (Hc _ rep (Hu rep Hrep)) as (Hin & _ & _ & Hbest & _).
    destruct (Hc' _ rep' (Hu' rep' Hrep')) as (Hin' & _ & _ & Hbest' & _).
    apply unbeaten_same_status.
    - apply Hbest'; [by rewrite <-Hperm|done].
    - apply Hbest; [by rewrite Hperm|done]. }
  split; [done|]. split; [|split; [|split; [|split]]].
  - intros r Hr. destruct (Hs r Hr) as [rep Hrep].
    destruct (Hc _ rep Hrep) as (_ & Hh & Hun & _). by exists rep.
  - intros rep Hrep.
    destruct (Hc _ rep (Hu rep Hrep)) as (Hin & _ & _ & Hbest & Hfirst).
    done.
  - apply better_rule.
  - done.
  - intros rep Hrep Honly.
    destruct (Hc _ rep (Hu rep Hrep)) as (Hin & _ & _ & _ & _).
    destruct (Hs' rep) as [rep' Hrep']; [by rewrite <-Hperm|].
    destruct (Hc' _ rep' Hrep') as (Hin' & Hh' & Hun' & _).
    rewrite <-(Honly rep'); [done|by rewrite Hperm|done|].
    symmetry. by apply Hsame.
Qed.

(** C2, an instance: the two results of Scenario D, whose bodies
    differ in case and white space only. *)
Lemma C2_content_collapse_witness :
  NoDup (map (@content_hash sample_world)
           (@IntelligentFilter._remove_similar_responses sample_world
              [page "/a" 403 9 "Not Here"; page "/b" 200 8 "not here"] ∅).1).
Proof.
  apply (proj1 (@C2_content_collapse sample_world
                  [page "/a" 403 9 "Not Here"; page "/b" 200 8 "not here"]
                  [page "/b" 200 8 "not here"; page "/a" 403 9 "Not Here"]
                  ltac:(vm_compute; repeat constructor; set_solver)
                  ltac:(apply Permutation_swap))).
Defined.

(** Scenario D: of a 403 and a 200 with one normalised body the 200
    is kept. *)
Example scenario_D :
  (@IntelligentFilter._remove_similar_responses sample_world
     [page "/a" 403 9 "Not  Here"; page "/b" 200 8 "not here"] ∅).1
  = [page "/b" 200 8 "not here"].
Proof. reflexivity. Qed.

(** C2 as first stated fails: of two results of one class and one
    status the one submitted first is kept, so the two orders keep
    different results. *)
Lemma C2_tie_follows_order :
  let r1 := page "/a" 403 9 "Not Here" in
  let r2 := page "/b" 403 8 "not here" in
  [r1; r2] ≡ₚ [r2; r1]
  ∧ @content_hash sample_world r1 = @content_hash sample_world r2
  ∧ (@IntelligentFilter.filter_results sample_world default_config
       [r1; r2] ∅).1 = [r1]
  ∧ (@IntelligentFilter.filter_results sample_world default_config
       [r2; r1] ∅).1 = [r2]
  ∧ r1 ≠ r2.
Proof.
  split; [apply Permutation_swap|]. split; [reflexivity|].
  split; [reflexivity|]. split; [reflexivity|done].
Qed.

(** Two results of one URL: the replacement goes by URL and lands on
    the wrong entry.  The class of body [x] is left without a
    representative and the class of body [y] has two. *)
Example collapse_by_url_hits_another_class :
  (@IntelligentFilter.filter_results sample_world default_config
     [page "/a" 301 1 "x"; page "/a" 403 1 "y"; page "/c" 200 1 "y"] ∅).1
  = [page "/c" 200 1 "y"; page "/a" 403 1 "y"].
Proof. reflexivity. Qed.

(** ** The scheduler: depth of the targets *)

Section DepthBound.
Import DeepScanner.
Context `{Collaborators} {W : Type}.
Variable run : string → Z → W → option (list Result) * W.
Variable done : nat → nat → bool.
Variable cfg : ScanConfig.
Variable base : list (nat * string * Z).

(** Any bound not below [max_depth] will do. *)
Variable d : Z.
Hypothesis max_depth_le_d : max_depth cfg ≤ d.

Lemma depths_within_list_remove {A} `{EqDecision A} (x : A * Z) l k :
  depths_within k l → depths_within k (list_remove x l).
Proof.
  unfold depths_within. induction 1 as [|y l Hy Hl IH]; simpl; [done|].
  case_decide; [done|]. by constructor.
Qed.

Lemma depths_within_snoc {A} (x : A * Z) l k :
  depths_within k l → 0 ≤ x.2 ≤ k → depths_within k (l ++ [x]).
Proof.
  intros Hl Hx. apply Forall_app. split; [done|]. by apply Forall_singleton.
Qed.

Lemma enqueue_new_urls_depth new_urls depth (st : State W) :
  0 ≤ depth + 1 ≤ d → depth_inv d base st →
  depth_inv d base (enqueue_new_urls new_urls depth st).
Proof.
  intros Hdepth. revert st.
  induction new_urls as [|u rest IH]; intros st Hinv; simpl; [done|].
  case_bool_decide; [by apply IH|]. apply IH.
  destruct Hinv as (Hsub & Hfut & Hq). split; [done|]. split; [done|].
  simpl. by apply depths_within_snoc.
Qed.

Lemma recurse_into_depth scan_results depth (st : State W) :
  0 ≤ depth + 1 ≤ d → depth_inv d base st →
  depth_inv d base (recurse_into cfg scan_results depth st).2.
Proof.
  intros Hdepth. revert st.
  induction scan_results as [|r rest IH]; intros st Hinv; simpl; [done|].
  destruct (_should_recurse cfg r); [|by apply IH].
  destruct (_extract_new_urls r) as [new_urls|]; [|done].
  by apply IH, enqueue_new_urls_depth.
Qed.

Lemma log_error_depth target (st : State W) :
  depth_inv d base st → depth_inv d base (log_error target st).
Proof. done. Qed.

Lemma process_future_depth f (st : State W) :
  0 ≤ f.2 ≤ d → depth_inv d base st →
  depth_inv d base (process_future run done cfg f st).
Proof.
  destruct f as [[i target] depth]. simpl.
  intros Hdepth (Hsub & Hfut & Hq).
  destruct (done (polls st) i); [|done].
  destruct (run target depth (world st)) as [[scan_results|] w].
  - set (st1 := mkState _ _ _ _ _ _ _ _).
    assert (depth_inv d base st1) as Hinv1.
    { split; [done|]. split; [|done].
      simpl. by apply depths_within_list_remove. }
    destruct (recursive cfg && (depth <? max_depth cfg)) eqn:Hrec; [|done].
    apply andb_true_iff in Hrec as [_ Hlt]. apply Z.ltb_lt in Hlt.
    pose proof (recurse_into_depth scan_results depth st1) as Hrec.
    destruct (recurse_into cfg scan_results depth st1) as [[|] st2];
      simpl in Hrec; [apply Hrec|apply log_error_depth, Hrec]; (lia || done).
  - apply log_error_depth. split; [done|]. split; [|done].
    simpl. by apply depths_within_list_remove.
Qed.

Lemma process_snapshot_depth snapshot (st : State W) :
  depths_within d snapshot → depth_inv d base st →
  depth_inv d base
    (fold_left (fun st f => process_future run done cfg f st) snapshot st).
Proof.
  revert st. induction snapshot as [|f snapshot IH]; intros st Hsnap Hinv;
    simpl; [done|].
  apply Forall_cons in Hsnap as [Hf Hsnap].
  apply IH; [done|]. by apply process_future_depth.
Qed.

Lemma process_completed_depth (st : State W) :
  depth_inv d base st → depth_inv d base (process_completed run done cfg st).
Proof.
  intros Hinv. apply process_snapshot_depth; [apply Hinv|done].
Qed.

Lemma submit_loop_depth queue (st : State W) :
  depths_within d queue → depth_inv d base st →
  depth_inv d base (submit_loop cfg queue st).
Proof.
  revert st. induction queue as [|[target depth] rest IH];
    intros st Hqueue (Hsub & Hfut & Hq); simpl.
  - split; [done|]. split; [done|]. constructor.
  - apply Forall_cons in Hqueue as [Hentry Hrest].
    case_match; [|split; [done|]; split; [done|]; by constructor].
    apply IH; [done|]. destruct Hsub as (later & Heq & Hlater).
    split; [|split]; simpl.
    + exists (later ++ [(length (submitted st), target, depth)]).
      split; [by rewrite Heq, <-app_assoc|].
      by apply depths_within_snoc.
    + by apply depths_within_snoc.
    + done.
Qed.

Lemma scan_loop_depth fuel (st : State W) :
  depth_inv d base st → depth_inv d base (scan_loop run done cfg fuel st).2.
Proof.
  revert st. induction fuel as [|fuel IH]; intros st Hinv; simpl.
  - by destruct (finished st).
  - destruct (finished st); [done|]. apply IH.
    assert (depth_inv d base (submit_tasks cfg st)) as Hsub.
    { apply submit_loop_depth; [apply Hinv|done]. }
    by apply process_completed_depth in Hsub.
Qed.

Lemma scan_target_depth fuel target (st : State W) :
  0 ≤ d →
  (∃ later, submitted st = base ++ later ∧ depths_within d later) →
  depth_inv d base (scan_target run done cfg fuel target st).2.
Proof.
  intros Hd Hsub. unfold scan_target.
  set (st0 := mkState _ _ _ _ _ _ _ _).
  assert (depth_inv d base st0) as Hinv0.
  { split; [done|]. split; [constructor|].
    apply Forall_singleton. simpl. lia. }
  destruct (threads cfg <=? 0); [done|].
  pose proof (scan_loop_depth fuel st0 Hinv0) as Hloop.
  destruct (scan_loop run done cfg fuel st0) as [[|] st1]; done.
Qed.

Lemma scan_targets_loop_depth fuel targets all_results (st : State W) :
  0 ≤ d →
  (∃ later, submitted st = base ++ later ∧ depths_within d later) →
  ∃ later,
    submitted (scan_targets_loop run done cfg fuel targets all_results st).2
    = base ++ later
    ∧ depths_within d later.
Proof.
  intros Hd. revert all_results st.
  induction targets as [|target rest IH]; intros all_results st Hsub; simpl;
    [done|].
  pose proof (scan_target_depth fuel target st Hd Hsub) as Hinv.
  destruct (scan_target run done cfg fuel target st) as [[rs| |] st1];
    simpl in Hinv; [|apply Hinv..].
  apply IH, Hinv.
Qed.

End DepthBound.

(** ** The scheduler: what is enqueued *)

Section Enqueue.
Import DeepScanner.
Context `{Collaborators} {W : Type}.
Variable run : string → Z → W → option (list Result) * W.
Variable done : nat → nat → bool.
Variable cfg : ScanConfig.

Lemma enqueue_new_urls_queue new_urls depth (st : State W) :
  ∃ new, scan_queue (enqueue_new_urls new_urls depth st) = scan_queue st ++ new
         ∧ Forall (fun entry => entry.2 = depth + 1) new.
Proof.
  revert st. induction new_urls as [|u rest IH]; intros st; simpl.
  - exists []. by rewrite app_nil_r.
  - case_bool_decide; [apply IH|].
    destruct (IH (mkState (scan_queue st ++ [(u, depth + 1)]) (futures st)
                    (results st) ({[u]} ∪ visited_urls st) (world st)
                    (submitted st) (error_log st) (polls st)))
      as (new & -> & Hnew).
    exists ((u, depth + 1) :: new). simpl.
    split; [by rewrite <-app_assoc|]. by constructor.
Qed.

Lemma recurse_into_queue scan_results depth (st : State W) :
  ∃ new, scan_queue (recurse_into cfg scan_results depth st).2
         = scan_queue st ++ new
         ∧ Forall (fun entry => entry.2 = depth + 1) new.
Proof.
  revert st. induction scan_results as [|r rest IH]; intros st; simpl.
  - exists []. by rewrite app_nil_r.
  - destruct (_should_recurse cfg r); [|apply IH].
    destruct (_extract_new_urls r) as [new_urls|].
    + destruct (enqueue_new_urls_queue new_urls depth st) as (new1 & Hq1 & Hn1).
      destruct (IH (enqueue_new_urls new_urls depth st)) as (new2 & -> & Hn2).
      exists (new1 ++ new2). rewrite Hq1, <-app_assoc.
      split; [done|]. by apply Forall_app.
    + exists []. by rewrite app_nil_r.
Qed.

(** A completed future adds to the queue only if the scan is
    recursive and its depth is below [max_depth], and then only
    entries one level deeper. *)
Lemma process_future_queue f (st : State W) :
  ∃ new, scan_queue (process_future run done cfg f st) = scan_queue st ++ new
         ∧ Forall (fun entry => entry.2 = f.2 + 1
                                ∧ recursive cfg = true
                                ∧ f.2 < max_depth cfg) new.
Proof.
  destruct f as [[i target] depth]. simpl.
  assert (∃ new, scan_queue st = scan_queue st ++ new
                 ∧ Forall (fun entry => entry.2 = depth + 1
                                        ∧ recursive cfg = true
                                        ∧ depth < max_depth cfg) new) as Hnone.
  { exists []. by rewrite app_nil_r. }
  destruct (done (polls st) i); [|done].
  destruct (run target depth (world st)) as [[scan_results|] w]; [|done].
  set (st1 := mkState _ _ _ _ _ _ _ _).
  destruct (recursive cfg && (depth <? max_depth cfg)) eqn:Hrec; [|done].
  apply andb_true_iff in Hrec as [Hr Hlt]. apply Z.ltb_lt in Hlt.
  destruct (recurse_into_queue scan_results depth st1) as (new & Hq & Hnew).
  exists new. split.
  - by destruct (recurse_into cfg scan_results depth st1) as [[|] st2].
  - eapply Forall_impl; [exact Hnew|]. by intros e ->.
Qed.


End Enqueue.

(** C6 (as amended).  With maximum depth [d], every target handed
    to a worker has a depth from 0 to max(d, 0); so for [d] not
    below zero no target deeper than [d] is processed.  A completed
    target adds to the queue only if the scan is recursive and its
    depth is strictly below [d], and what it adds is one level
    deeper than itself. *)
Theorem C6_depth_bound `{Collaborators} {W : Type}
    (run : string → Z → W → option (list Result) * W)
    (done : nat → nat → bool) (cfg : ScanConfig) (fuel : nat)
    (targets : list string) (st : DeepScanner.State W)
    (f : nat * string * Z) :
  (∃ later,
     DeepScanner.submitted
       (DeepScanner.scan_targets run done cfg fuel targets st).2
     = DeepScanner.submitted st ++ later
     ∧ depths_within (Z.max 0 (max_depth cfg)) later)
  ∧ (∃ new,
       DeepScanner.scan_queue (DeepScanner.process_future run done cfg f st)
       = DeepScanner.scan_queue st ++ new
       ∧ Forall (fun entry => entry.2 = f.2 + 1
                              ∧ recursive cfg = true
                              ∧ f.2 < max_depth cfg) new).
Proof.
  split; [|apply process_future_queue].
  apply (scan_targets_loop_depth run done cfg (DeepScanner.submitted st)
           (Z.max 0 (max_depth cfg))); [lia|lia|].
  exists []. split; [by rewrite app_nil_r|constructor].
Qed.

(** Scenario C: with [max_depth = 1] the link on the root page is
    scanned at depth 1 and the link on that page is not scanned. *)
Example scenario_C :
  let cfg := with_recursion true 1 [200; 301] 1 default_config in
  DeepScanner.submitted
    (@DeepScanner.scan_target sample_world unit chain_worker done_at_once
       cfg 10 "https://t/" (DeepScanner.initial_state tt)).2
  = [(0%nat, "https://t/", 0); (1%nat, "https://t/sub", 1)].
Proof. by vm_compute. Qed.

(** C6 as first stated fails for a negative maximum depth: the seed
    is processed at depth 0, which is above it. *)
Lemma C6_negative_max_depth :
  let cfg := with_recursion true (-1) [200; 301] 1 default_config in
  let st := (@DeepScanner.scan_target sample_world unit chain_worker
               done_at_once cfg 10 "https://t/"
               (DeepScanner.initial_state tt)).2 in
  DeepScanner.submitted st = [(0%nat, "https://t/", 0)]
  ∧ ∃ f, f ∈ DeepScanner.submitted st ∧ max_depth cfg < f.2.
Proof.
  split; [by vm_compute|].
  exists (0%nat, "https://t/", 0). split; [|done].
  vm_compute. apply list_elem_of_here.
Qed.

(** ** The scheduler: links found by recursion *)

Section VisitedOnce.
Import DeepScanner.
Context `{Collaborators} {W : Type}.
Variable run : string → Z → W → option (list Result) * W.
Variable done : nat → nat → bool.
Variable cfg : ScanConfig.

Lemma enqueue_new_urls_visited new_urls depth (st : State W) :
  0 ≤ depth → visited_inv st →
  visited_inv (enqueue_new_urls new_urls depth st).
Proof.
  intros Hdepth. revert st.
  induction new_urls as [|u rest IH]; intros st Hinv; simpl; [done|].
  case_bool_decide as Hvisited; [by apply IH|]. apply IH.
  destruct Hinv as (Hnd & Hsub & Hfut & Hq).
  assert (discovered
            (mkState (scan_queue st ++ [(u, depth + 1)]) (futures st)
               (results st) ({[u]} ∪ visited_urls st) (world st)
               (submitted st) (error_log st) (polls st))
          = discovered st ++ [u]) as Hdisc.
  { unfold discovered. simpl. rewrite filter_app, map_app, app_assoc.
    f_equal. rewrite filter_cons_True by (simpl; lia). done. }
  split; [|split; [|split]].
  - rewrite Hdisc. apply NoDup_app. split; [done|]. split.
    + intros x Hx Hu. apply list_elem_of_singleton in Hu as ->.
      by apply Hvisited, Hsub.
    + apply NoDup_singleton.
  - intros x. rewrite Hdisc. simpl. intros Hx.
    apply elem_of_app in Hx as [Hx|Hx].
    + apply elem_of_union_r. by apply Hsub.
    + apply list_elem_of_singleton in Hx as ->.
      by apply elem_of_union_l, elem_of_singleton.
  - done.
  - simpl. apply Forall_app. split; [done|].
    apply Forall_singleton. simpl. lia.
Qed.

Lemma recurse_into_visited scan_results depth (st : State W) :
  0 ≤ depth → visited_inv st →
  visited_inv (recurse_into cfg scan_results depth st).2.
Proof.
  intros Hdepth. revert st.
  induction scan_results as [|r rest IH]; intros st Hinv; simpl; [done|].
  destruct (_should_recurse cfg r); [|by apply IH].
  destruct (_extract_new_urls r) as [new_urls|]; [|done].
  by apply IH, enqueue_new_urls_visited.
Qed.

Lemma Forall_list_remove {A} `{EqDecision A} (P : A → Prop) x l :
  Forall P l → Forall P (list_remove x l).
Proof.
  induction 1 as [|y l Hy Hl IH]; simpl; [done|].
  case_decide; [done|]. by constructor.
Qed.

Lemma process_future_visited f (st : State W) :
  0 ≤ f.2 → visited_inv st →
  visited_inv (process_future run done cfg f st).
Proof.
  destruct f as [[i target] depth]. simpl.
  intros Hdepth (Hnd & Hsub & Hfut & Hq).
  destruct (done (polls st) i); [|done].
  destruct (run target depth (world st)) as [[scan_results|] w].
  - set (st1 := mkState _ _ _ _ _ _ _ _).
    assert (visited_inv st1) as Hinv1.
    { split; [done|]. split; [done|]. split; [|done].
      by apply Forall_list_remove. }
    destruct (recursive cfg && (depth <? max_depth cfg)); [|done].
    pose proof (recurse_into_visited scan_results depth st1 Hdepth Hinv1)
      as Hrec.
    by destruct (recurse_into cfg scan_results depth st1) as [[|] st2].
  - split; [done|]. split; [done|]. split; [|done].
    by apply Forall_list_remove.
Qed.

Lemma process_snapshot_visited snapshot (st : State W) :
  Forall (fun f => 0 ≤ f.2) snapshot → visited_inv st →
  visited_inv
    (fold_left (fun st f => process_future run done cfg f st) snapshot st).
Proof.
  revert st. induction snapshot as [|f snapshot IH]; intros st Hsnap Hinv;
    simpl; [done|].
  apply Forall_cons in Hsnap as [Hf Hsnap].
  apply IH; [done|]. by apply process_future_visited.
Qed.

Lemma submit_loop_visited queue (st : State W) :
  scan_queue st = queue → visited_inv st →
  visited_inv (submit_loop cfg queue st).
Proof.
  revert st. induction queue as [|[target depth] rest IH];
    intros st Hqueue (Hnd & Hsub & Hfut & Hq).
  - simpl. split; [|split; [|split]]; try done.
    + unfold discovered in *. simpl. by rewrite Hqueue in Hnd.
    + unfold discovered in *. simpl. by rewrite Hqueue in Hsub.
  - simpl. case_match.
    + apply IH; [done|].
      rewrite Hqueue in Hq. apply Forall_cons in Hq as [Hd Hrest].
      assert (discovered
                (mkState rest
                   (futures st ++ [(length (submitted st), target, depth)])
                   (results st) (visited_urls st) (world st)
                   (submitted st ++ [(length (submitted st), target, depth)])
                   (error_log st) (polls st))
              = discovered st) as Hdisc.
      { unfold discovered. simpl. rewrite Hqueue.
        rewrite filter_app, map_app, <-app_assoc. f_equal.
        rewrite !filter_cons, filter_nil. simpl.
        by destruct (decide (depth ≠ 0)). }
      split; [by rewrite Hdisc|]. split; [by rewrite Hdisc|]. split; [|done].
      simpl. apply Forall_app. split; [done|]. by apply Forall_singleton.
    + split; [|split; [|split]]; try done.
      * unfold discovered in *. simpl. by rewrite Hqueue in Hnd.
      * unfold discovered in *. simpl. by rewrite Hqueue in Hsub.
      * simpl. by rewrite <-Hqueue.
Qed.

Lemma scan_loop_visited fuel (st : State W) :
  visited_inv st → visited_inv (scan_loop run done cfg fuel st).2.
Proof.
  revert st. induction fuel as [|fuel IH]; intros st Hinv; simpl.
  - by destruct (finished st).
  - destruct (finished st); [done|]. apply IH.
    assert (visited_inv (submit_tasks cfg st)) as Hsub
      by by apply submit_loop_visited.
    apply (process_snapshot_visited (futures (submit_tasks cfg st))) in Hsub;
      [done|apply Hsub].
Qed.

Lemma scan_target_visited fuel target (st : State W) :
  visited_inv st → visited_inv (scan_target run done cfg fuel target st).2.
Proof.
  intros (Hnd & Hsub & _ & _). unfold scan_target.
  set (st0 := mkState _ _ _ _ _ _ _ _).
  assert (visited_inv st0) as Hinv0.
  { unfold discovered in Hnd, Hsub.
    unfold visited_inv, discovered, st0. simpl. rewrite app_nil_r.
    split; [|split; [|split]].
    - by apply NoDup_app in Hnd as (? & _).
    - intros u Hu. apply Hsub, elem_of_app. by left.
    - constructor.
    - by apply Forall_singleton. }
  destruct (threads cfg <=? 0); [done|].
  pose proof (scan_loop_visited fuel st0 Hinv0) as Hloop.
  by destruct (scan_loop run done cfg fuel st0) as [[|] st1].
Qed.

(** A link that recursion finds is handed to a worker at most once:
    it enters [visited_urls] together with its entry in the queue,
    and a link already there is not enqueued. *)
Lemma discovered_links_scheduled_once fuel targets (st : State W) :
  visited_inv st →
  visited_inv (scan_targets run done cfg fuel targets st).2.
Proof.
  unfold scan_targets. generalize (@nil Result) as all_results.
  revert st. induction targets as [|target rest IH];
    intros st all_results Hinv; simpl; [done|].
  pose proof (scan_target_visited fuel target st Hinv) as Hnext.
  destruct (scan_target run done cfg fuel target st) as [[rs| |] st1];
    simpl in Hnext; [by apply IH|done|done].
Qed.

End VisitedOnce.

Lemma visited_inv_initial {W} (w : W) :
  visited_inv (DeepScanner.initial_state w).
Proof.
  split; [constructor|]. split; [|split; constructor].
  intros u Hu. by apply elem_of_nil in Hu.
Qed.

(** C1, the failing run: a recursive brute-force scan, by the
    scanner itself with the crawler off, of a site whose pages link
    to the root.  The seed is not entered in [visited_urls], so the
    link to it is taken for new: the root is handed to a worker a
    second time and the same URL under it is requested a second
    time. *)
Theorem C1_seed_scheduled_twice :
  let cfg := with_recursion true 2 [200; 301; 302; 403] 1
               (set_crawling false default_config) in
  let run := @DeepScanner.scanner_scan_targets home_link_site cfg
               ["index.html"] done_at_once 10 ["https://t/"]
               (DeepScanner.initial_state
                  DeepScanner.initial_scanner_state) in
  (∃ rs, run.1 = Returned rs)
  ∧ DeepScanner.submitted run.2
    = [(0%nat, "https://t/", 0); (1%nat, "https://t/", 1)]
  ∧ submitted_urls run.2 = ["https://t/"; "https://t/"]
  ∧ requests_of (DeepScanner.trace (DeepScanner.world run.2))
    = [request_for cfg "https://t/index.html";
       request_for cfg "https://t/index.html"].
Proof.
  split; [by eexists; vm_compute|]. split; [by vm_compute|].
  split; by vm_compute.
Qed.




(** The same command line with [-i abc]: [update_from_args] raises
    before the check for targets is reached. *)
Example main_bad_status_codes :
  Main.main (W := unit) (H := sample_world) (fun _ => None)
    (fun _ _ => true) (fun _ _ => None) (fun _ => None) (fun _ => true)
    (fun _ => EmptyString) (fun _ => EmptyString) (fun _ _ _ => chain_worker)
    done_at_once 5 (set_include_status "abc" words_only) tt
  = (Main.Uncaught, None).
Proof. reflexivity. Qed.


(** ** Probes that fail *)

Section FailedProbe.
Import DeepScanner.
Context `{Collaborators}.

Lemma requests_of_app e1 e2 :
  requests_of (e1 ++ e2) = requests_of e1 ++ requests_of e2.
Proof. apply omap_app. Qed.

Lemma make_request_requests cfg target_url :
  requests_of (BruteForcer._make_request cfg target_url).2
  = [request_for cfg target_url].
Proof.
  unfold BruteForcer._make_request. fold (request_for cfg target_url).
  destruct (session_request _) as [response|e]; simpl; [|done].
  by case_match.
Qed.

Lemma apply_delay_requests cfg : requests_of (BruteForcer._apply_delay cfg) = [].
Proof. unfold BruteForcer._apply_delay. by repeat case_match. Qed.

(** Every word is probed, whatever became of the words before it. *)
Lemma scan_loop_spec cfg base_url words results events :
  (BruteForcer.scan_loop cfg base_url words results events).1
  = results
    ++ omap (fun word =>
               (BruteForcer._make_request cfg
                  (BruteForcer.target_url_of base_url word)).1) words
  ∧ requests_of (BruteForcer.scan_loop cfg base_url words results events).2
    = requests_of events
      ++ map (fun word =>
                request_for cfg (BruteForcer.target_url_of base_url word))
           words.
Proof.
  revert results events.
  induction words as [|word rest IH]; intros results events; simpl.
  - by rewrite !app_nil_r.
  - pose proof (make_request_requests cfg
                  (BruteForcer.target_url_of base_url word)) as Hreq.
    destruct (BruteForcer._make_request cfg
                (BruteForcer.target_url_of base_url word)) as [result evs].
    simpl in Hreq.
    destruct (IH (match result with
                  | Some r => results ++ [r]
                  | None => results
                  end) (events ++ evs ++ BruteForcer._apply_delay cfg)) as [-> ->].
    rewrite !requests_of_app, Hreq, apply_delay_requests. simpl.
    split; [|by rewrite <-app_assoc].
    destruct result; simpl; [by rewrite <-app_assoc|done].
Qed.

Lemma update_stats_other kwargs stats key :
  (∀ kv, kv ∈ kwargs → kv.1 ≠ key) →
  RealtimeMonitor.update_stats kwargs stats !! key = stats !! key.
Proof.
  revert stats. induction kwargs as [|[k v] rest IH]; intros stats Hne; simpl;
    [done|].
  assert (k ≠ key) as Hk by (apply (Hne (k, v)); by left).
  assert (∀ kv, kv ∈ rest → kv.1 ≠ key) as Hrest
    by (intros kv Hkv; apply Hne; by right).
  destruct (stats !! k); rewrite IH by done; [|done].
  by rewrite lookup_insert_ne.
Qed.



End FailedProbe.




(** ** The rate cap *)

Lemma set_max_rate_same c : set_max_rate (max_rate c) c = c.
Proof. by destruct c. Qed.

Section RateCap.
Context `{Collaborators}.
Variable cfg : ScanConfig.
Variable rate : Z.

Lemma apply_delay_max_rate :
  BruteForcer._apply_delay (set_max_rate rate cfg)
  = BruteForcer._apply_delay cfg.
Proof. reflexivity. Qed.

Lemma make_request_max_rate target_url :
  BruteForcer._make_request (set_max_rate rate cfg) target_url
  = BruteForcer._make_request cfg target_url.
Proof. reflexivity. Qed.

Lemma brute_scan_loop_max_rate base_url words results events :
  BruteForcer.scan_loop (set_max_rate rate cfg) base_url words results events
  = BruteForcer.scan_loop cfg base_url words results events.
Proof.
  revert results events.
  induction words as [|word rest IH]; intros results events; simpl; [done|].
  rewrite make_request_max_rate, apply_delay_max_rate.
  destruct (BruteForcer._make_request cfg _) as [result evs]. apply IH.
Qed.

Lemma is_interesting_max_rate r :
  IntelligentFilter._is_interesting (set_max_rate rate cfg) r
  = IntelligentFilter._is_interesting cfg r.
Proof. reflexivity. Qed.

Lemma filter_results_max_rate rs cache :
  IntelligentFilter.filter_results (set_max_rate rate cfg) rs cache
  = IntelligentFilter.filter_results cfg rs cache.
Proof. reflexivity. Qed.

Lemma scan_url_max_rate wordlist target depth st :
  DeepScanner._scan_url (set_max_rate rate cfg) wordlist target depth st
  = DeepScanner._scan_url cfg wordlist target depth st.
Proof.
  unfold DeepScanner._scan_url, BruteForcer.scan.
  rewrite brute_scan_loop_max_rate. reflexivity.
Qed.

End RateCap.

(** The scheduler sees of a worker only what it returns. *)
Section WorkerExt.
Import DeepScanner.
Context `{Collaborators} {W : Type}.
Variables run1 run2 : string → Z → W → option (list Result) * W.
Variable done : nat → nat → bool.
Variable cfg : ScanConfig.
Hypothesis run_ext :
  ∀ target depth w, run1 target depth w = run2 target depth w.

Lemma process_future_ext f (st : State W) :
  process_future run1 done cfg f st = process_future run2 done cfg f st.
Proof.
  destruct f as [[i target] depth]. simpl. by rewrite run_ext.
Qed.

Lemma process_snapshot_ext snapshot (st : State W) :
  fold_left (fun st f => process_future run1 done cfg f st) snapshot st
  = fold_left (fun st f => process_future run2 done cfg f st) snapshot st.
Proof.
  revert st. induction snapshot as [|f snapshot IH]; intros st; simpl; [done|].
  by rewrite process_future_ext, IH.
Qed.

Lemma scan_loop_ext fuel (st : State W) :
  scan_loop run1 done cfg fuel st = scan_loop run2 done cfg fuel st.
Proof.
  revert st. induction fuel as [|fuel IH]; intros st; simpl; [done|].
  destruct (finished st); [done|].
  unfold process_completed. by rewrite process_snapshot_ext, IH.
Qed.

Lemma scan_targets_ext fuel targets (st : State W) :
  scan_targets run1 done cfg fuel targets st
  = scan_targets run2 done cfg fuel targets st.
Proof.
  unfold scan_targets. generalize (@nil Result) as all_results.
  revert st. induction targets as [|target rest IH];
    intros st all_results; simpl; [done|].
  unfold scan_target. rewrite scan_loop_ext.
  repeat case_match; by simplify_eq.
Qed.

End WorkerExt.

(** C9.  Nothing on the scan path reads [max_rate]: with any other
    value in that field the delay between requests, the requests and
    results of the brute-force scan, the verdict of the acceptance
    filter, the outcome of [_scan_url] and the outcome of
    [scan_targets] are what they were. *)
Theorem C9_max_rate_unused `{Collaborators} (cfg : ScanConfig) (rate : Z)
    (wordlist : list string) (target : string) (depth : Z)
    (st : DeepScanner.ScannerState) (done : nat → nat → bool) (fuel : nat)
    (targets : list string) (sst : DeepScanner.State DeepScanner.ScannerState)
    (r : Result) :
  BruteForcer._apply_delay (set_max_rate rate cfg) = BruteForcer._apply_delay cfg
  ∧ BruteForcer.scan (set_max_rate rate cfg) wordlist target
    = BruteForcer.scan cfg wordlist target
  ∧ IntelligentFilter._is_interesting (set_max_rate rate cfg) r
    = IntelligentFilter._is_interesting cfg r
  ∧ DeepScanner._scan_url (set_max_rate rate cfg) wordlist target depth st
    = DeepScanner._scan_url cfg wordlist target depth st
  ∧ DeepScanner.scanner_scan_targets (set_max_rate rate cfg) wordlist done
      fuel targets sst
    = DeepScanner.scanner_scan_targets cfg wordlist done fuel targets sst.
Proof.
  split; [apply apply_delay_max_rate|].
  split; [apply brute_scan_loop_max_rate|].
  split; [apply is_interesting_max_rate|].
  split; [apply scan_url_max_rate|].
  unfold DeepScanner.scanner_scan_targets, DeepScanner.scanner_run.
  rewrite (scan_targets_ext
             (DeepScanner._scan_url (set_max_rate rate cfg) wordlist)
             (DeepScanner._scan_url cfg wordlist));
    [reflexivity|].
  intros u k w. apply scan_url_max_rate.
Qed.

(** * Further properties *)

(** ** Numbers as texts *)

Lemma not_numeric_spec c d :
  not_numeric c = true →
  In d ["0"; "1"; "2"; "3"; "4"; "5"; "6"; "7"; "8"; "9"; "-"]%char →
  Ascii.eqb d c = false.
Proof.
  unfold not_numeric. rewrite forallb_forall. intros Hc Hd.
  by apply negb_true_iff, Hc.
Qed.

Lemma pretty_N_char_numeric c x :
  not_numeric c = true → Ascii.eqb (pretty_N_char x) c = false.
Proof.
  intros Hc. apply not_numeric_spec; [done|]. clear Hc.
  unfold pretty_N_char. repeat case_match; simpl; tauto.
Qed.

Lemma pretty_N_go_numeric c x s :
  not_numeric c = true →
  has_char c s = false → has_char c (pretty_N_go x s) = false.
Proof.
  intros Hc. revert s. induction (N.lt_wf_0 x) as [x _ IH]; intros s Hs.
  assert (x = 0 ∨ 0 < x)%N as [->|Hpos] by lia.
  - by rewrite pretty_N_go_0.
  - rewrite pretty_N_go_step by done. apply IH.
    + by apply N.div_lt.
    + simpl. by rewrite pretty_N_char_numeric.
Qed.

Lemma pretty_N_numeric c (x : N) :
  not_numeric c = true → has_char c (pretty x) = false.
Proof.
  intros Hc. unfold pretty, pretty_N. case_decide.
  - cbn [has_char]. rewrite orb_false_r. apply not_numeric_spec; simpl; tauto.
  - by apply pretty_N_go_numeric.
Qed.

(** A number is printed with digits and the sign only. *)
Lemma str_of_int_numeric c n :
  not_numeric c = true → has_char c (Py.str_of_int n) = false.
Proof.
  intros Hc. unfold Py.str_of_int, pretty, pretty_Z. destruct n as [|p|p].
  - cbn [has_char]. rewrite orb_false_r. apply not_numeric_spec; simpl; tauto.
  - by apply pretty_N_numeric.
  - rewrite app_String, app_empty. cbn [has_char].
    apply orb_false_iff. split; [|by apply pretty_N_numeric].
    apply not_numeric_spec; simpl; tauto.
Qed.

(** A text is cut in one way only at the first occurrence of a
    character. *)
Lemma split_at_first_char c p1 p2 t1 t2 :
  has_char c p1 = false → has_char c p2 = false →
  p1 +:+ String c t1 = p2 +:+ String c t2 → p1 = p2 ∧ t1 = t2.
Proof.
  revert p2. induction p1 as [|a p1 IH]; intros [|b p2];
    rewrite ?app_String, ?app_empty; simpl; intros Hp1 Hp2 Heq.
  - by injection Heq.
  - injection Heq as <- _. by rewrite Ascii.eqb_refl in Hp2.
  - injection Heq as -> _. by rewrite Ascii.eqb_refl in Hp1.
  - injection Heq as -> Heq.
    apply orb_false_iff in Hp1 as [_ Hp1].
    apply orb_false_iff in Hp2 as [_ Hp2].
    by destruct (IH p2 Hp1 Hp2 Heq) as [-> ->].
Qed.

(** ** The size tokens *)

Lemma format_size_bucket size :
  IntelligentFilter._format_size size
  = Py.str_of_int (size_bucket size).2 +:+ (size_bucket size).1.
Proof.
  unfold IntelligentFilter._format_size, size_bucket.
  destruct (Z.ltb_spec size 1024); [by rewrite decide_True|].
  rewrite decide_False by lia.
  destruct (Z.ltb_spec size (1024 * 1024));
    [by rewrite decide_True|by rewrite decide_False by lia].
Qed.

Lemma size_bucket_unit size :
  (size_bucket size).1 = "B" ∨ (size_bucket size).1 = "KB"
  ∨ (size_bucket size).1 = "MB".
Proof. unfold size_bucket. repeat case_decide; simpl; auto. Qed.

Lemma size_token_inj (n1 n2 : Z) (u1 u2 : string) :
  (u1 = "B" ∨ u1 = "KB" ∨ u1 = "MB") →
  (u2 = "B" ∨ u2 = "KB" ∨ u2 = "MB") →
  Py.str_of_int n1 +:+ u1 = Py.str_of_int n2 +:+ u2 →
  n1 = n2 ∧ u1 = u2.
Proof.
  intros Hu1 Hu2 Heq.
  assert (∀ c, not_numeric c = true →
            has_char c u1 = has_char c u2) as Hsame.
  { intros c Hc.
    assert (has_char c (Py.str_of_int n1 +:+ u1)
            = has_char c (Py.str_of_int n2 +:+ u2)) as Hh by by rewrite Heq.
    by rewrite !has_char_app, !str_of_int_numeric in Hh. }
  assert (u1 = u2) as <-.
  { pose proof (Hsame "K"%char eq_refl) as HK.
    pose proof (Hsame "M"%char eq_refl) as HM.
    destruct Hu1 as [->| [->| ->]], Hu2 as [->| [->| ->]];
      done. }
  split; [|done].
  assert (∃ c rest, u1 = String c rest ∧ not_numeric c = true)
    as (c & rest & -> & Hc).
  { destruct Hu1 as [->| [->| ->]]; by eexists _, _. }
  apply split_at_first_char in Heq as [Heq _];
    [|by apply str_of_int_numeric..].
  by apply (inj pretty) in Heq.
Qed.

(** X1.  Two sizes are printed as the same token exactly when
    they fall in the same unit (bytes below 1024, KB below 1024*1024,
    MB from there) with the same truncated count, so that an
    excluded size such as [1KB] stands for the lengths 1024 to 2047;
    the scanner's own copy of [_format_size] prints the same
    tokens. *)
Theorem X1_format_size_buckets (a b : Z) :
  (IntelligentFilter._format_size a = IntelligentFilter._format_size b
   ↔ size_bucket a = size_bucket b)
  ∧ (IntelligentFilter._format_size a = "1KB" ↔ 1024 ≤ a < 2048)
  ∧ ScannerOutput._format_size a = IntelligentFilter._format_size a.
Proof.
  assert (∀ x y, IntelligentFilter._format_size x
                 = IntelligentFilter._format_size y
                 ↔ size_bucket x = size_bucket y) as Hiff.
  { intros x y. rewrite !format_size_bucket. split.
    - intros Heq.
      apply size_token_inj in Heq as [Hn Hu]; [|apply size_bucket_unit..].
      destruct (size_bucket x), (size_bucket y); simpl in *; congruence.
    - by intros ->. }
  split; [apply Hiff|]. split; [|done].
  change "1KB" with (IntelligentFilter._format_size 1024).
  rewrite Hiff. unfold size_bucket.
  rewrite (decide_False (P := 1024 < 1024)) by lia.
  rewrite (decide_True (P := 1024 < 1024 * 1024)) by lia.
  change (1024 `div` 1024) with 1.
  pose proof (Z.div_mod a 1024). pose proof (Z.mod_pos_bound a 1024).
  repeat case_decide; split; intros Hx; simplify_eq; try lia.
  f_equal. lia.
Qed.

(** ** The order of results by status *)

Local Ltac status_cases :=
  unfold IntelligentFilter._is_better_result in *;
  repeat match goal with
         | |- context [?a =? ?b] => destruct (Z.eqb_spec a b)
         | H : context [?a =? ?b] |- _ => destruct (Z.eqb_spec a b)
         end; simpl in *;
  rewrite ?Z.ltb_lt, ?Z.ltb_ge in *; try done; try lia.

(** X2.  [_is_better_result] is a strict order on results that
    looks at the status code only: no result beats itself, two
    results never beat each other, beating is transitive, and of two
    results with different status codes one beats the other. *)
Theorem X2_better_result_strict_order (a b c : Result) :
  let better := IntelligentFilter._is_better_result in
  better a a = false
  ∧ (better a b = true → better b a = false)
  ∧ (better a b = true → better b c = true → better a c = true)
  ∧ (better a b = false → better b a = false →
     status_code a = status_code b)
  ∧ (status_code a = status_code b → better a c = better b c).
Proof.
  simpl. repeat split; intros; status_cases.
Qed.

(** ** The content hash *)

Lemma isspace_ascii_lower c :
  Py.isspace_ascii (Py.ascii_lower c) = Py.isspace_ascii c.
Proof. by destruct c as [[] [] [] [] [] [] [] []]. Qed.

Lemma ascii_lower_idem c : Py.ascii_lower (Py.ascii_lower c) = Py.ascii_lower c.
Proof. by destruct c as [[] [] [] [] [] [] [] []]. Qed.

Lemma ascii_lower_is_ascii c :
  (Ascii.N_of_ascii (Py.ascii_lower c) <? 128)%N
  = (Ascii.N_of_ascii c <? 128)%N.
Proof. by destruct c as [[] [] [] [] [] [] [] []]. Qed.

Lemma lower_idem s :
  Py.lower_ascii (Py.lower_ascii s) = Py.lower_ascii s.
Proof.
  induction s as [|c s IH]; simpl; [done|]. by rewrite ascii_lower_idem, IH.
Qed.

Lemma lower_app s1 s2 :
  Py.lower_ascii (s1 +:+ s2) = Py.lower_ascii s1 +:+ Py.lower_ascii s2.
Proof.
  induction s1 as [|c s1 IH]; [done|].
  rewrite app_String. simpl. by rewrite IH.
Qed.

Lemma strip_whitespace_app s1 s2 :
  Py.strip_whitespace_ascii (s1 +:+ s2)
  = Py.strip_whitespace_ascii s1 +:+ Py.strip_whitespace_ascii s2.
Proof.
  induction s1 as [|c s1 IH]; [done|].
  rewrite app_String. simpl. rewrite IH. by destruct (Py.isspace_ascii c).
Qed.

Lemma strip_whitespace_idem s :
  Py.strip_whitespace_ascii (Py.strip_whitespace_ascii s)
  = Py.strip_whitespace_ascii s.
Proof.
  induction s as [|c s IH]; simpl; [done|].
  destruct (Py.isspace_ascii c) eqn:Hc; simpl; [done|]. by rewrite Hc, IH.
Qed.

Lemma lower_strip_whitespace s :
  Py.lower_ascii (Py.strip_whitespace_ascii s)
  = Py.strip_whitespace_ascii (Py.lower_ascii s).
Proof.
  induction s as [|c s IH]; simpl; [done|].
  rewrite isspace_ascii_lower.
  destruct (Py.isspace_ascii c); simpl; by rewrite IH.
Qed.

Lemma is_ascii_app s1 s2 :
  Py.is_ascii (s1 +:+ s2) = Py.is_ascii s1 && Py.is_ascii s2.
Proof.
  induction s1 as [|c s1 IH]; [done|].
  rewrite app_String. simpl. by rewrite IH, andb_assoc.
Qed.

Lemma is_ascii_lower s : Py.is_ascii (Py.lower_ascii s) = Py.is_ascii s.
Proof.
  induction s as [|c s IH]; simpl; [done|].
  by rewrite ascii_lower_is_ascii, IH.
Qed.

Lemma is_ascii_strip_whitespace s :
  Py.is_ascii s = true → Py.is_ascii (Py.strip_whitespace_ascii s) = true.
Proof.
  induction s as [|c s IH]; simpl; [done|].
  intros [Hc Hs]%andb_true_iff.
  destruct (Py.isspace_ascii c); simpl; [by apply IH|].
  by rewrite Hc, IH.
Qed.

(** On an ASCII body the content hash is the digest of the body in
    lower case without its white space. *)
Lemma content_hash_ascii `{Collaborators} (s : string) :
  (∀ t, Py.is_ascii t = true → str_lower t = Py.lower_ascii t) →
  (∀ t, Py.is_ascii t = true →
        remove_whitespace t = Py.strip_whitespace_ascii t) →
  Py.is_ascii s = true →
  IntelligentFilter._calculate_content_hash s
  = md5_hexdigest (Py.strip_whitespace_ascii (Py.lower_ascii s)).
Proof.
  intros Hlower Hspace Hs. unfold IntelligentFilter._calculate_content_hash.
  rewrite (Hlower s Hs), Hspace; [done|]. by rewrite is_ascii_lower.
Qed.

(** X3.  On bodies of ASCII characters, where [str.lower] folds the
    letters A to Z and [\s] matches the characters 9 to 13 and 28 to
    32, the content hash does not see letter case or white space: it
    is the same for a body and for that body in lower case, with all
    white space removed, with a white-space character put in
    anywhere, or with any character replaced by its lower-case
    form. *)
Theorem X3_content_hash_ignores_case_and_space `{Collaborators}
    (s s1 s2 : string) (c : ascii) :
  (∀ t, Py.is_ascii t = true → str_lower t = Py.lower_ascii t) →
  (∀ t, Py.is_ascii t = true →
        remove_whitespace t = Py.strip_whitespace_ascii t) →
  Py.is_ascii s = true →
  Py.is_ascii (s1 +:+ String c s2) = true →
  let hash := IntelligentFilter._calculate_content_hash in
  hash (Py.lower_ascii s) = hash s
  ∧ hash (Py.strip_whitespace_ascii s) = hash s
  ∧ (Py.isspace_ascii c = true →
     hash (s1 +:+ String c s2) = hash (s1 +:+ s2))
  ∧ hash (s1 +:+ String (Py.ascii_lower c) s2) = hash (s1 +:+ String c s2).
Proof.
  intros Hlower Hspace Hs Hparts. simpl.
  pose proof Hparts as Hparts'.
  rewrite is_ascii_app in Hparts'. simpl in Hparts'.
  apply andb_true_iff in Hparts' as [Hs1 [Hc Hs2]%andb_true_iff].
  assert (Py.is_ascii (s1 +:+ s2) = true) as Hjoined
    by by rewrite is_ascii_app, Hs1, Hs2.
  assert (Py.is_ascii (s1 +:+ String (Py.ascii_lower c) s2) = true)
    as Hlowered.
  { rewrite is_ascii_app. simpl.
    by rewrite ascii_lower_is_ascii, Hs1, Hc, Hs2. }
  rewrite !content_hash_ascii;
    try done; try (by rewrite is_ascii_lower);
    try (by apply is_ascii_strip_whitespace).
  split; [by rewrite lower_idem|].
  split; [by rewrite lower_strip_whitespace, strip_whitespace_idem|].
  split.
  - intros Hsp. f_equal. rewrite !lower_app, !strip_whitespace_app. simpl.
    by rewrite isspace_ascii_lower, Hsp.
  - f_equal. rewrite !lower_app. simpl. by rewrite ascii_lower_idem.
Qed.

(** X3, an instance: a page and the same page in capitals over two
    lines. *)
Lemma X3_content_hash_ignores_case_and_space_witness :
  let hash := @IntelligentFilter._calculate_content_hash sample_world in
  hash (Py.lower_ascii "Not Found") = hash "Not Found"
  ∧ hash (Py.strip_whitespace_ascii "Not Found") = hash "Not Found"
  ∧ hash ("Not" +:+ String " " "Found") = hash ("Not" +:+ "Found")
  ∧ hash "notfound" = "notfound".
Proof.
  simpl.
  destruct (@X3_content_hash_ignores_case_and_space sample_world
              "Not Found" "Not" "Found" " "%char
              ltac:(reflexivity) ltac:(reflexivity) eq_refl eq_refl)
    as (Hlower & Hspace & Hinsert & _).
  split; [exact Hlower|]. split; [exact Hspace|].
  split; [exact (Hinsert eq_refl)|reflexivity].
Defined.

(** ** The cache of the filter across calls *)

Section CacheAcrossCalls.
Import IntelligentFilter.
Context `{Collaborators}.

Lemma replace_first_elem u r l x :
  x ∈ replace_first u r l → x = r ∨ x ∈ l.
Proof.
  induction l as [|y l IH]; simpl; [by intros ?%elem_of_nil|].
  case_bool_decide.
  - intros [->|?]%elem_of_cons; [by left|right; by right].
  - intros [->|?]%elem_of_cons; [right; by left|].
    destruct IH as [?|?]; [done|by left|right; by right].
Qed.

Lemma replace_first_absent u r l :
  (∀ x, x ∈ l → url x ≠ u) → replace_first u r l = l.
Proof.
  induction l as [|y l IH]; intros Hl; simpl; [done|].
  rewrite bool_decide_eq_false_2 by (apply Hl; by left).
  rewrite IH; [done|]. intros x Hx. apply Hl. by right.
Qed.

(** Through the loop no result of a class that the cache held at
    the start gets into [unique_results]: the representative of such
    a class is the one of the start or a result of this call that
    was cached without being listed, and neither is found when a
    better result looks for the entry to replace. *)
Lemma remove_similar_loop_cached (cache0 : gmap string Result)
    rs cache unique :
  NoDup (map url rs) →
  (∀ x r, x ∈ unique → r ∈ rs → url x ≠ url r) →
  (∀ h, is_Some (cache0 !! h) → is_Some (cache !! h)) →
  (∀ h e, is_Some (cache0 !! h) → cache !! h = Some e →
     (∀ x, x ∈ unique → url x ≠ url e) ∧ (∀ r, r ∈ rs → url r ≠ url e)) →
  (∀ x, x ∈ unique → cache0 !! content_hash x = None) →
  ∀ x, x ∈ (_remove_similar_loop rs cache unique).1 →
    cache0 !! content_hash x = None.
Proof.
  revert cache unique.
  induction rs as [|r rs IH]; intros cache unique Hnd Hdisj Hdom Hrep Hun;
    simpl; [done|].
  simpl in Hnd. apply NoDup_cons in Hnd as [Hr Hnd].
  assert (∀ y, y ∈ rs → url y ≠ url r) as Hfresh.
  { intros y Hy Heq. apply Hr. rewrite <-Heq.
    apply list_elem_of_fmap. by exists y. }
  fold (content_hash r). destruct (cache !! content_hash r) as [e|] eqn:He.
  - destruct (_is_better_result r e) eqn:Hb.
    + destruct (cache0 !! content_hash r) as [e0|] eqn:He0.
      * destruct (Hrep (content_hash r) e) as [Hue _]; [by eexists|done|].
        rewrite replace_first_absent by done.
        apply IH; [done|..|done].
        -- intros x y Hx Hy. apply Hdisj; [done|by right].
        -- intros h Hh. destruct (decide (h = content_hash r)) as [->|Hne];
             [by rewrite lookup_insert_eq|].
           rewrite lookup_insert_ne by done. by apply Hdom.
        -- intros h e' Hh. destruct (decide (h = content_hash r)) as [->|Hne].
           ++ rewrite lookup_insert_eq. intros [= <-]. split.
              ** intros x Hx. apply Hdisj; [done|by left].
              ** done.
           ++ rewrite lookup_insert_ne by done. intros He'.
              destruct (Hrep h e' Hh He') as [H1 H2].
              split; [done|]. intros y Hy. apply H2. by right.
      * apply IH; [done|..].
        -- intros x y [->|Hx]%replace_first_elem Hy.
           ++ intros Heq. by apply (Hfresh y).
           ++ apply Hdisj; [done|by right].
        -- intros h Hh. destruct (decide (h = content_hash r)) as [->|Hne];
             [by rewrite lookup_insert_eq|].
           rewrite lookup_insert_ne by done. by apply Hdom.
        -- intros h e' Hh. destruct (decide (h = content_hash r)) as [->|Hne].
           { rewrite He0 in Hh. by destruct Hh. }
           rewrite lookup_insert_ne by done. intros He'.
           destruct (Hrep h e' Hh He') as [H1 H2]. split.
           ++ intros x [->|Hx]%replace_first_elem; [|by apply H1].
              apply H2. by left.
           ++ intros y Hy. apply H2. by right.
        -- by intros x [->|Hx]%replace_first_elem; [|apply Hun].
    + apply IH; [done|..|done].
      * intros x y Hx Hy. apply Hdisj; [done|by right].
      * done.
      * intros h e' Hh He'. destruct (Hrep h e' Hh He') as [H1 H2].
        split; [done|]. intros y Hy. apply H2. by right.
  - assert (cache0 !! content_hash r = None) as He0.
    { destruct (cache0 !! content_hash r) eqn:He0; [|done].
      destruct (Hdom (content_hash r)) as [? Hsome]; [by eexists|].
      by rewrite He in Hsome. }
    apply IH; [done|..].
    + intros x y [Hx|Hx]%elem_of_app Hy.
      * apply Hdisj; [done|by right].
      * apply list_elem_of_singleton in Hx as ->.
        intros Heq. by apply (Hfresh y).
    + intros h Hh. destruct (decide (h = content_hash r)) as [->|Hne];
        [by rewrite lookup_insert_eq|].
      rewrite lookup_insert_ne by done. by apply Hdom.
    + intros h e' Hh. destruct (decide (h = content_hash r)) as [->|Hne].
      { rewrite He0 in Hh. by destruct Hh. }
      rewrite lookup_insert_ne by done. intros He'.
      destruct (Hrep h e' Hh He') as [H1 H2]. split.
      * intros x [Hx|Hx]%elem_of_app; [by apply H1|].
        apply list_elem_of_singleton in Hx as ->. apply H2. by left.
      * intros y Hy. apply H2. by right.
    + intros x [Hx|Hx]%elem_of_app; [by apply Hun|].
      by apply list_elem_of_singleton in Hx as ->.
Qed.

(** Once the loop is through, none of the results it has seen beats
    the representative of its class. *)
Lemma remove_similar_loop_settled seen rs cache unique :
  (∀ r, r ∈ seen →
     ∃ e, cache !! content_hash r = Some e
          ∧ _is_better_result r e = false) →
  ∀ r, r ∈ seen ++ rs →
    ∃ e, (_remove_similar_loop rs cache unique).2 !! content_hash r = Some e
         ∧ _is_better_result r e = false.
Proof.
  revert seen cache unique.
  induction rs as [|x rs IH]; intros seen cache unique Hseen; simpl.
  { intros r. rewrite app_nil_r. apply Hseen. }
  intros r Hr. replace (seen ++ x :: rs) with ((seen ++ [x]) ++ rs) in Hr
    by by rewrite <-app_assoc.
  fold (content_hash x).
  destruct (cache !! content_hash x) as [e|] eqn:He;
    [destruct (_is_better_result x e) eqn:Hb|];
    (apply (IH (seen ++ [x])); [|done]);
    (intros y [Hy|Hy]%elem_of_app;
     [|apply list_elem_of_singleton in Hy as ->]).
  - destruct (decide (content_hash y = content_hash x)) as [Heq|Hne].
    + exists x. rewrite Heq, lookup_insert_eq. split; [done|].
      destruct (Hseen y Hy) as (e' & He' & Hbe).
      rewrite Heq, He in He'. simplify_eq. revert Hb Hbe. status_cases.
    + rewrite lookup_insert_ne by done. by apply Hseen.
  - exists x. rewrite lookup_insert_eq. split; [done|]. status_cases.
  - by apply Hseen.
  - by exists e.
  - destruct (decide (content_hash y = content_hash x)) as [Heq|Hne].
    + destruct (Hseen y Hy) as (e' & He' & _). by rewrite Heq, He in He'.
    + rewrite lookup_insert_ne by done. by apply Hseen.
  - exists x. rewrite lookup_insert_eq. split; [done|]. status_cases.
Qed.

(** Results that do not beat the representatives of their classes
    leave the cache and [unique_results] as they are. *)
Lemma remove_similar_loop_nothing rs cache unique :
  (∀ r, r ∈ rs →
     ∃ e, cache !! content_hash r = Some e
          ∧ _is_better_result r e = false) →
  _remove_similar_loop rs cache unique = (unique, cache).
Proof.
  induction rs as [|r rs IH]; intros Hrs; simpl; [done|].
  fold (content_hash r).
  destruct (Hrs r) as (e & -> & ->); [by left|].
  apply IH. intros y Hy. apply Hrs. by right.
Qed.

End CacheAcrossCalls.

(** X4.  The cache of the filter outlives the call.  When the
    results of a call have pairwise distinct URLs, none of them the
    URL of a cached result, no result of a content class that the
    cache already holds comes out of [_remove_similar_responses]:
    not even one that beats the cached representative, which it
    replaces in the cache without being listed. *)
Theorem X4_cached_class_yields_nothing `{Collaborators}
    (rs : list Result) (cache : gmap string Result) (u : Result) :
  NoDup (map url rs) →
  (∀ h e r, cache !! h = Some e → r ∈ rs → url r ≠ url e) →
  is_Some (cache !! content_hash u) →
  u ∉ (IntelligentFilter._remove_similar_responses rs cache).1.
Proof.
  intros Hnd Hurls Hu Hin.
  unfold IntelligentFilter._remove_similar_responses in Hin.
  apply (remove_similar_loop_cached cache) in Hin.
  - rewrite Hin in Hu. by destruct Hu.
  - done.
  - by intros ?? ?%elem_of_nil.
  - done.
  - intros h e _ He. split; [by intros ? ?%elem_of_nil|].
    intros r Hr. by apply (Hurls h).
  - by intros ? ?%elem_of_nil.
Qed.

(** X4, an instance: the cache holds a page of status 404, and a
    page of status 200 with the same body comes in under another
    URL; it beats the cached page and is not listed. *)
Lemma X4_cached_class_yields_nothing_witness :
  let cached := page "https://t/a" 404 5 "hello" in
  let found := page "https://t/b" 200 5 "hello" in
  IntelligentFilter._is_better_result found cached = true
  ∧ (found ∉ (@IntelligentFilter._remove_similar_responses sample_world
                [found] {["hello" := cached]}).1).
Proof.
  split; [reflexivity|].
  apply (@X4_cached_class_yields_nothing sample_world
           [page "https://t/b" 200 5 "hello"]
           {["hello" := page "https://t/a" 404 5 "hello"]}).
  - apply NoDup_singleton.
  - intros h e r [-> <-]%lookup_singleton_Some ->%list_elem_of_singleton.
    discriminate.
  - by eexists.
Defined.

(** X5.  What the filter has let through once it does not let
    through again: the same results sent through [filter_results] a
    second time, with the cache the first call left, give the empty
    list and leave the cache as it is. *)
Theorem X5_second_pass_returns_nothing `{Collaborators}
    (cfg : ScanConfig) (rs : list Result) (cache : gmap string Result) :
  let after := (IntelligentFilter.filter_results cfg rs cache).2 in
  IntelligentFilter.filter_results cfg rs after = ([], after).
Proof.
  simpl. unfold IntelligentFilter.filter_results,
    IntelligentFilter._remove_similar_responses.
  set (l := IntelligentFilter._remove_duplicates _).
  apply remove_similar_loop_nothing. intros r Hr.
  apply (remove_similar_loop_settled [] l cache []); [|done].
  by intros ? ?%elem_of_nil.
Qed.

(** ** Exact deduplication, again *)

Section DedupAgain.
Import IntelligentFilter.

Lemma remove_duplicates_loop_sublist rs seen acc :
  ∃ kept, _remove_duplicates_loop rs seen acc = acc ++ kept
          ∧ kept `sublist_of` rs.
Proof.
  revert seen acc. induction rs as [|r rs IH]; intros seen acc; simpl.
  - exists []. by rewrite app_nil_r.
  - case_bool_decide.
    + destruct (IH seen acc) as (kept & -> & Hsub).
      exists kept. split; [done|]. by apply sublist_cons.
    + destruct (IH ({[dedup_key r]} ∪ seen) (acc ++ [r]))
        as (kept & -> & Hsub).
      exists (r :: kept). split; [by rewrite <-app_assoc|].
      by apply sublist_skip.
Qed.

(** Results with pairwise distinct keys, none of them seen, all go
    through. *)
Lemma remove_duplicates_loop_fixed rs seen acc :
  NoDup (map dedup_key rs) →
  (∀ r, r ∈ rs → dedup_key r ∉ seen) →
  _remove_duplicates_loop rs seen acc = acc ++ rs.
Proof.
  revert seen acc. induction rs as [|r rs IH]; intros seen acc Hnd Hseen;
    simpl; [by rewrite app_nil_r|].
  simpl in Hnd. apply NoDup_cons in Hnd as [Hr Hnd].
  rewrite bool_decide_eq_false_2 by (apply Hseen; by left).
  rewrite IH; [by rewrite <-app_assoc|done|].
  intros x Hx. apply not_elem_of_union. split; [|apply Hseen; by right].
  intros Heq%elem_of_singleton. apply Hr. rewrite <-Heq.
  apply list_elem_of_fmap. by exists x.
Qed.

End DedupAgain.

(** X6.  [_remove_duplicates] keeps the order of its input (its
    output is the input with entries left out), changes nothing in a
    list it has already been through, and changes nothing in a list
    without two results of one URL and status code. *)
Theorem X6_remove_duplicates_order_and_idempotence (rs : list Result) :
  let out := IntelligentFilter._remove_duplicates rs in
  out `sublist_of` rs
  ∧ IntelligentFilter._remove_duplicates out = out
  ∧ (NoDup (map url_status rs) → out = rs).
Proof.
  simpl. unfold IntelligentFilter._remove_duplicates. split; [|split].
  - destruct (remove_duplicates_loop_sublist rs ∅ []) as (kept & -> & Hsub).
    done.
  - destruct (remove_duplicates_loop_spec rs ∅ []) as (kept & -> & Hnd & _).
    simpl. by rewrite remove_duplicates_loop_fixed.
  - intros Hnd. rewrite remove_duplicates_loop_fixed; [done| |done].
    clear -Hnd. induction rs as [|r rs IH]; simpl in *; [constructor|].
    apply NoDup_cons in Hnd as [Hr Hnd]. constructor; [|by apply IH].
    intros (x & Hk & Hx)%list_elem_of_fmap. apply Hr.
    apply list_elem_of_fmap. exists x. split; [|done].
    by apply dedup_key_inj.
Qed.

(** ** One unit of work *)

Section ScanUrlOutput.
Import DeepScanner.
Context `{Collaborators}.

Lemma start_monitoring_cache st :
  response_cache (start_monitoring st) = response_cache st.
Proof. unfold start_monitoring. by destruct (is_monitoring st). Qed.

Lemma start_monitoring_stats st :
  monitor_stats (start_monitoring st) = monitor_stats st.
Proof. unfold start_monitoring. by destruct (is_monitoring st). Qed.

Lemma start_monitoring_visited st :
  crawler_visited (start_monitoring st) = crawler_visited st.
Proof. unfold start_monitoring. by destruct (is_monitoring st). Qed.

(** [_scan_url] returns what the probe sources gathered, analysed,
    filtered against the cache of the filter and put in order. *)
Lemma scan_url_decompose cfg wordlist target depth st :
  (_scan_url cfg wordlist target depth st).1
  = (fun raw =>
       IntelligentFilter.prioritize_results
         (IntelligentFilter.filter_results cfg (map analyze_update raw)
            (response_cache st)).1)
    <$> gathered cfg wordlist target (crawler_visited st).
Proof.
  unfold _scan_url, gathered.
  destruct (BruteForcer.scan cfg wordlist target) as [brute events].
  destruct (brute_force cfg), (crawling cfg), (fuzz_patterns cfg);
    cbn [crawler_visited monitor_update emit];
    rewrite ?start_monitoring_visited;
    try destruct (crawler_scan _ _ _) as [[crawl|] visited];
    try destruct (fuzzer_scan _ _ _ _) as [fuzz|];
    cbn [response_cache monitor_update emit set_crawler_visited app fst snd
         fmap option_fmap option_map];
    rewrite ?app_nil_r, ?start_monitoring_cache, <-?app_assoc;
    try done;
    by destruct (IntelligentFilter.filter_results _ _ _) as [filtered cache].
Qed.

Lemma remove_duplicates_NoDup rs :
  NoDup (map url_status (IntelligentFilter._remove_duplicates rs)).
Proof.
  unfold IntelligentFilter._remove_duplicates.
  destruct (remove_duplicates_loop_spec rs ∅ []) as (kept & -> & Hnd & _).
  simpl. clear -Hnd. induction kept as [|k kept IH]; simpl; [constructor|].
  simpl in Hnd. apply NoDup_cons in Hnd as [Hk Hnd].
  constructor; [|by apply IH].
  intros (k' & Heq & Hk')%list_elem_of_fmap. apply Hk.
  apply list_elem_of_fmap. exists k'. split; [|done]. by apply dedup_key_inj.
Qed.

Lemma take_chars_length n s : (String.length (Py.take_chars n s) ≤ n)%nat.
Proof.
  revert s. induction n as [|n IH]; intros [|c s]; simpl; try lia.
  specialize (IH s). lia.
Qed.

(** What a brute-force probe returns carries the URL probed, at
    most 1000 characters of body and the name of its source. *)
Lemma make_request_result cfg target_url r events :
  BruteForcer._make_request cfg target_url = (Some r, events) →
  url r = target_url
  ∧ (String.length (content r) ≤ 1000)%nat
  ∧ scan_type r = "brute_force".
Proof.
  unfold BruteForcer._make_request.
  destruct (session_request _) as [response|e]; [|done].
  intros Heq. apply (f_equal fst) in Heq. cbn [fst] in Heq.
  apply (inj Some) in Heq. subst r. cbn [url content scan_type].
  split; [done|]. split; [|done].
  destruct (Nat.ltb_spec 1000 (String.length (resp_text response)));
    [apply take_chars_length|done].
Qed.

Lemma brute_scan_results cfg wordlist target r :
  r ∈ (BruteForcer.scan cfg wordlist target).1 →
  ∃ word, word ∈ wordlist
          ∧ (BruteForcer._make_request cfg
               (BruteForcer.target_url_of target word)).1 = Some r.
Proof.
  unfold BruteForcer.scan.
  rewrite (proj1 (scan_loop_spec cfg target wordlist [] _)). simpl.
  by intros (word & Hw & Hr)%list_elem_of_omap; exists word.
Qed.

Lemma monitor_update_same key value st :
  monitor_stats (monitor_update [(key, value)] st) !! key
  = (fun old => old + value) <$> monitor_stats st !! key.
Proof.
  unfold monitor_update. cbn [monitor_stats]. simpl.
  destruct (monitor_stats st !! key) eqn:Hk; simpl; [|done].
  by rewrite lookup_insert_eq.
Qed.

Lemma monitor_update_other key key' value st :
  key ≠ key' →
  monitor_stats (monitor_update [(key, value)] st) !! key'
  = monitor_stats st !! key'.
Proof.
  intros Hne. unfold monitor_update. cbn [monitor_stats].
  apply update_stats_other.
  by intros kv ->%list_elem_of_singleton.
Qed.

End ScanUrlOutput.

(** X7.  Whatever [_scan_url] returns is in ascending order of
    score, holds no two results of one URL and status code, and holds
    only results that pass [_is_interesting] and whose
    [content_length] is the number of characters of the stored body:
    the analysis step writes that number over the length the probe
    had measured. *)
Theorem X7_scan_url_output `{Collaborators} (cfg : ScanConfig)
    (wordlist : list string) (target : string) (depth : Z)
    (st : DeepScanner.ScannerState) (out : list Result) :
  (DeepScanner._scan_url cfg wordlist target depth st).1 = Some out →
  StronglySorted by_score out
  ∧ NoDup (map url_status out)
  ∧ Forall (fun r =>
              IntelligentFilter._is_interesting cfg r = true
              ∧ content_length r = Z.of_nat (String.length (content r)))
      out.
Proof.
  rewrite scan_url_decompose.
  destruct (gathered cfg wordlist target _) as [raw|]; [|done].
  intros [= <-]. unfold IntelligentFilter.prioritize_results.
  split; [apply sorted_StronglySorted|]. split.
  - rewrite sorted_Permutation. unfold IntelligentFilter.filter_results.
    apply remove_similar_NoDup, remove_duplicates_NoDup.
  - apply Forall_forall. intros r Hr. rewrite sorted_Permutation in Hr.
    apply filter_results_sound in Hr as [Hr Hi]. split; [done|].
    by apply list_elem_of_fmap in Hr as (x & -> & _).
Qed.

(** X7, an instance: the word list [index.html], [admin] against a
    host that answers every request with the same page, the crawler
    being off. *)
Lemma X7_scan_url_output_witness :
  StronglySorted by_score [page "https://t/index.html" 200 10 "https://t/"]
  ∧ NoDup (map url_status [page "https://t/index.html" 200 10 "https://t/"])
  ∧ Forall (fun r =>
              @IntelligentFilter._is_interesting home_link_site
                (set_crawling false default_config) r = true
              ∧ content_length r = Z.of_nat (String.length (content r)))
      [page "https://t/index.html" 200 10 "https://t/"].
Proof.
  apply (@X7_scan_url_output home_link_site
           (set_crawling false default_config)
           ["index.html"; "admin"] "https://t/" 0
           DeepScanner.initial_scanner_state).
  vm_compute. reflexivity.
Defined.

(** X8.  With crawler and fuzzer switched off, every result that
    [_scan_url] returns comes from the probe of a word of the word
    list, at the URL built for that word, and its [content_length] is
    at most 1000: the brute forcer stores no more than 1000
    characters of a body, and the analysis step sets the length to
    that of the stored body. *)
Theorem X8_brute_force_results `{Collaborators} (cfg : ScanConfig)
    (wordlist : list string) (target : string) (depth : Z)
    (st : DeepScanner.ScannerState) (out : list Result) :
  crawling cfg = false → fuzz_patterns cfg = false →
  (DeepScanner._scan_url cfg wordlist target depth st).1 = Some out →
  Forall (fun r =>
            0 ≤ content_length r ≤ 1000
            ∧ scan_type r = "brute_force"
            ∧ ∃ word, word ∈ wordlist
                      ∧ url r = BruteForcer.target_url_of target word) out.
Proof.
  intros Hc Hf. rewrite scan_url_decompose. unfold gathered.
  rewrite Hc, Hf. simpl. rewrite app_nil_r. intros [= <-].
  apply Forall_forall. intros r Hr.
  unfold IntelligentFilter.prioritize_results in Hr.
  rewrite sorted_Permutation in Hr.
  apply filter_results_sound in Hr as [Hr _].
  apply list_elem_of_fmap in Hr as (x & -> & Hx).
  destruct (brute_force cfg); [|by apply elem_of_nil in Hx].
  apply brute_scan_results in Hx as (word & Hw & Hx).
  destruct (BruteForcer._make_request cfg _) as [res events] eqn:Hreq.
  simpl in Hx. subst res.
  apply make_request_result in Hreq as (Hu & Hlen & Hty). simpl.
  split; [lia|]. split; [done|]. by exists word.
Qed.

(** X8, an instance: one word, probed at a host that answers with
    a page of 10 characters. *)
Lemma X8_brute_force_results_witness :
  let cfg := mkScanConfig [] None [] [] true false false 2 [200] false false
               1 0 0 0 10 0 [200] [404; 429] 0 0 [] [] []
               "DeepDir/5.0" "GET" false in
  Forall (fun r =>
            0 ≤ content_length r ≤ 1000
            ∧ scan_type r = "brute_force"
            ∧ ∃ word, word ∈ ["a.txt"]
                      ∧ url r = @BruteForcer.target_url_of home_link_site
                                  "https://t/" word)
    [page "https://t/a.txt" 200 10 "https://t/"].
Proof.
  apply (@X8_brute_force_results home_link_site
           (mkScanConfig [] None [] [] true false false 2 [200] false false
              1 0 0 0 10 0 [200] [404; 429] 0 0 [] [] []
              "DeepDir/5.0" "GET" false)
           ["a.txt"] "https://t/" 0 DeepScanner.initial_scanner_state).
  - reflexivity.
  - reflexivity.
  - vm_compute. reflexivity.
Defined.

(** X9.  The counters after [_scan_url] has returned:
    [total_requests] has grown by the number of results the probe
    sources handed over (a request that failed, or a response the
    fuzzer dropped, is not among them), [found_paths] by the number
    of results returned, and [successful_requests] is as it was. *)
Theorem X9_scan_url_counters `{Collaborators} (cfg : ScanConfig)
    (wordlist : list string) (target : string) (depth : Z)
    (st : DeepScanner.ScannerState) (raw : list Result) :
  gathered cfg wordlist target (DeepScanner.crawler_visited st) = Some raw →
  ∃ out,
    (DeepScanner._scan_url cfg wordlist target depth st).1 = Some out
    ∧ let stats :=
        DeepScanner.monitor_stats
          (DeepScanner._scan_url cfg wordlist target depth st).2 in
      stats !! "total_requests"
      = (fun n => n + Z.of_nat (length raw))
        <$> DeepScanner.monitor_stats st !! "total_requests"
      ∧ stats !! "found_paths"
        = (fun n => n + Z.of_nat (length out))
          <$> DeepScanner.monitor_stats st !! "found_paths"
      ∧ stats !! "successful_requests"
        = DeepScanner.monitor_stats st !! "successful_requests".
Proof.
  intros Hraw. pose proof (scan_url_decompose cfg wordlist target depth st) as Hd.
  rewrite Hraw in Hd. simpl in Hd. eexists. split; [exact Hd|].
  revert Hd Hraw. unfold DeepScanner._scan_url, gathered.
  destruct (BruteForcer.scan cfg wordlist target) as [brute events].
  destruct (brute_force cfg), (crawling cfg), (fuzz_patterns cfg);
    cbn [DeepScanner.crawler_visited DeepScanner.monitor_update
         DeepScanner.emit];
    rewrite ?start_monitoring_visited;
    try destruct (crawler_scan _ _ _) as [[crawl|] visited];
    try destruct (fuzzer_scan _ _ _ _) as [fuzz|];
    cbn [fst snd]; try done;
    destruct (IntelligentFilter.filter_results _ _ _) as [filtered cache];
    cbn [fst snd]; intros [= <-] [= <-];
    (split; [|split]);
    repeat first
      [ rewrite monitor_update_same
      | rewrite monitor_update_other by done
      | progress (cbn [DeepScanner.monitor_stats DeepScanner.set_response_cache
                       DeepScanner.set_crawler_visited DeepScanner.emit]) ];
    rewrite ?start_monitoring_stats;
    try done;
    (destruct (DeepScanner.monitor_stats st !! "total_requests"); simpl;
     [f_equal; rewrite ?length_app; simpl; lia|done]).
Qed.

(** X9, an instance: two words are probed with the crawler off,
    the two pages have the same body, and one result is returned. *)
Lemma X9_scan_url_counters_witness :
  ∃ out,
    (@DeepScanner._scan_url home_link_site
       (set_crawling false default_config)
       ["index.html"; "admin"] "https://t/" 0
       DeepScanner.initial_scanner_state).1 = Some out
    ∧ let stats :=
        DeepScanner.monitor_stats
          (@DeepScanner._scan_url home_link_site
             (set_crawling false default_config)
             ["index.html"; "admin"] "https://t/" 0
             DeepScanner.initial_scanner_state).2 in
      stats !! "total_requests"
      = (fun n => n + Z.of_nat
                        (length [page "https://t/index.html" 200 10 "https://t/";
                                 page "https://t/admin/" 200 10 "https://t/"]))
        <$> DeepScanner.monitor_stats DeepScanner.initial_scanner_state
            !! "total_requests"
      ∧ stats !! "found_paths"
        = (fun n => n + Z.of_nat (length out))
          <$> DeepScanner.monitor_stats DeepScanner.initial_scanner_state
              !! "found_paths"
      ∧ stats !! "successful_requests"
        = DeepScanner.monitor_stats DeepScanner.initial_scanner_state
          !! "successful_requests".
Proof.
  apply (@X9_scan_url_counters home_link_site
           (set_crawling false default_config)
           ["index.html"; "admin"] "https://t/" 0
           DeepScanner.initial_scanner_state
           [page "https://t/index.html" 200 10 "https://t/";
            page "https://t/admin/" 200 10 "https://t/"]).
  vm_compute. reflexivity.
Defined.

(** ** The scheduler: the pool *)

Section Pool.
Import DeepScanner.
Context `{Collaborators} {W : Type}.
Variable run : string → Z → W → option (list Result) * W.
Variable done : nat → nat → bool.
Variable cfg : ScanConfig.

Lemma submit_loop_pool queue (st : State W) :
  Z.of_nat (length (futures st)) ≤ Z.max 0 (threads cfg) →
  let s := submit_loop cfg queue st in
  Z.of_nat (length (futures s)) ≤ Z.max 0 (threads cfg)
  ∧ (scan_queue s = [] ∨ threads cfg ≤ Z.of_nat (length (futures s))).
Proof.
  revert st. induction queue as [|[target depth] rest IH]; intros st Hb; simpl.
  - split; [done|by left].
  - destruct (Z.ltb_spec (Z.of_nat (length (futures st))) (threads cfg)).
    + apply IH. simpl. rewrite length_app. simpl. lia.
    + simpl. split; [done|by right].
Qed.

Lemma list_remove_length {A} `{EqDecision A} (x : A) l :
  (length (list_remove x l) ≤ length l)%nat.
Proof.
  induction l as [|y l IH]; simpl; [done|].
  destruct (decide (y = x)); simpl; lia.
Qed.

Lemma enqueue_new_urls_futures new_urls depth (st : State W) :
  futures (enqueue_new_urls new_urls depth st) = futures st.
Proof.
  revert st. induction new_urls as [|u rest IH]; intros st; simpl; [done|].
  case_bool_decide; by rewrite IH.
Qed.

Lemma recurse_into_futures scan_results depth (st : State W) :
  futures (recurse_into cfg scan_results depth st).2 = futures st.
Proof.
  revert st. induction scan_results as [|r rest IH]; intros st; simpl; [done|].
  destruct (_should_recurse cfg r); [|apply IH].
  destruct (_extract_new_urls r); [|done].
  by rewrite IH, enqueue_new_urls_futures.
Qed.

(** A future that is processed leaves the list; nothing else
    changes the list. *)
Lemma process_future_futures f (st : State W) :
  futures (process_future run done cfg f st)
  = if done (polls st) f.1.1 then list_remove f (futures st) else futures st.
Proof.
  destruct f as [[i target] depth]. simpl.
  destruct (done (polls st) i); [|done].
  destruct (run target depth (world st)) as [[scan_results|] w]; [|done].
  set (st1 := mkState _ _ _ _ _ _ _ _).
  destruct (recursive cfg && (depth <? max_depth cfg)); [|done].
  pose proof (recurse_into_futures scan_results depth st1) as Hf.
  by destruct (recurse_into cfg scan_results depth st1) as [[|] st2].
Qed.

Lemma process_snapshot_pool snapshot (st : State W) :
  (length (futures (fold_left (fun st f => process_future run done cfg f st)
                      snapshot st))
   ≤ length (futures st))%nat.
Proof.
  revert st. induction snapshot as [|f rest IH]; intros st; simpl; [done|].
  etrans; [apply IH|]. rewrite process_future_futures.
  destruct (done _ _); [apply list_remove_length|done].
Qed.

Lemma one_round_pool (st : State W) :
  Z.of_nat (length (futures st)) ≤ Z.max 0 (threads cfg) →
  Z.of_nat (length (futures (one_round run done cfg st)))
  ≤ Z.max 0 (threads cfg).
Proof.
  intros Hb. unfold one_round, next_round, process_completed. simpl.
  pose proof (process_snapshot_pool (futures (submit_tasks cfg st))
                (submit_tasks cfg st)).
  pose proof (proj1 (submit_loop_pool (scan_queue st) st Hb)).
  unfold submit_tasks in *. simpl in *. lia.
Qed.

Lemma after_rounds_pool k (st : State W) :
  Z.of_nat (length (futures st)) ≤ Z.max 0 (threads cfg) →
  Z.of_nat (length (futures (after_rounds run done cfg k st)))
  ≤ Z.max 0 (threads cfg).
Proof.
  intros Hb. induction k as [|k IH]; simpl; [done|].
  by apply one_round_pool.
Qed.

(** The loop of [scan_target], one round at a time. *)
Lemma scan_loop_rounds fuel (st : State W) :
  ∃ k, (k ≤ fuel)%nat
       ∧ (scan_loop run done cfg fuel st).2 = after_rounds run done cfg k st.
Proof.
  revert st. induction fuel as [|fuel IH]; intros st; simpl.
  - exists 0%nat. split; [done|]. by destruct (finished st).
  - destruct (finished st); [by exists 0%nat; split; [lia|]|].
    destruct (IH (next_round (process_completed run done cfg
                                (submit_tasks cfg st)))) as (k & Hk & ->).
    exists (S k). split; [lia|].
    unfold after_rounds. by rewrite Nat.iter_succ_r.
Qed.

End Pool.

(** X10.  The pool is never over-filled and never idle while work
    waits: after any number of rounds of the loop of [scan_target],
    when the tasks of the next round have been submitted, no more
    than [threads] futures are in flight, and the queue is empty
    unless [threads] futures are in flight. *)
Theorem X10_pool_bound `{Collaborators} {W : Type}
    (run : string → Z → W → option (list Result) * W)
    (done : nat → nat → bool) (cfg : ScanConfig) (k : nat)
    (st : DeepScanner.State W) :
  Z.of_nat (length (DeepScanner.futures st)) ≤ Z.max 0 (threads cfg) →
  let s := DeepScanner.submit_tasks cfg (after_rounds run done cfg k st) in
  Z.of_nat (length (DeepScanner.futures s)) ≤ Z.max 0 (threads cfg)
  ∧ (DeepScanner.scan_queue s = []
     ∨ threads cfg ≤ Z.of_nat (length (DeepScanner.futures s))).
Proof.
  intros Hb. apply submit_loop_pool. by apply after_rounds_pool.
Qed.

(** X10, an instance: three targets wait for a pool of two workers
    whose futures are never done. *)
Lemma X10_pool_bound_witness :
  let cfg := with_recursion false 2 [200] 2 default_config in
  let st := DeepScanner.mkState
              [("https://t/a", 0); ("https://t/b", 0); ("https://t/c", 0)]
              [] [] ∅ tt [] [] 0%nat in
  let s := DeepScanner.submit_tasks cfg
             (@after_rounds sample_world unit chain_worker
                (fun _ _ => false) cfg 3 st) in
  Z.of_nat (length (DeepScanner.futures s)) ≤ Z.max 0 (threads cfg)
  ∧ (DeepScanner.scan_queue s = []
     ∨ threads cfg ≤ Z.of_nat (length (DeepScanner.futures s))).
Proof.
  apply (@X10_pool_bound sample_world unit chain_worker (fun _ _ => false)
           (with_recursion false 2 [200] 2 default_config) 3
           (DeepScanner.mkState
              [("https://t/a", 0); ("https://t/b", 0); ("https://t/c", 0)]
              [] [] ∅ tt [] [] 0%nat)).
  vm_compute. discriminate.
Defined.

(** ** The scheduler: workers that raise *)

Section RaisingWorker.
Import DeepScanner.
Context `{Collaborators} {W : Type}.
Variable run : string → Z → W → option (list Result) * W.
Variable done : nat → nat → bool.
Variable cfg : ScanConfig.
Hypothesis run_raises : ∀ target depth w, (run target depth w).1 = None.
Hypothesis pool : 0 < threads cfg.

Lemma seed_only_in_flight seed base (s : State W) :
  let f := (length (submitted base), seed, 0) in
  results s = [] → visited_urls s = visited_urls base →
  scan_queue s = [] → futures s = [f] →
  submitted s = submitted base ++ [f] → error_log s = error_log base →
  seed_only seed base (next_round (process_completed run done cfg s)).
Proof.
  intros f Hr Hv Hq Hf Hs He.
  unfold process_completed. rewrite Hf. simpl.
  destruct (done (polls s) (length (submitted base))).
  - pose proof (run_raises seed 0 (world s)) as Hrun.
    destruct (run seed 0 (world s)) as [[scan_results|] w]; [done|].
    rewrite Hf. simpl. rewrite decide_True by done.
    split; [done|]. split; [done|]. right. right. simpl.
    by rewrite Hs, He.
  - split; [done|]. split; [done|]. right. left. by simpl.
Qed.

Lemma one_round_seed_only seed base (s : State W) :
  seed_only seed base s → seed_only seed base (one_round run done cfg s).
Proof.
  intros (Hr & Hv & [(Hq & Hf & Hs & He)|[(Hq & Hf & Hs & He)|(Hq & Hf & Hs & He)]]);
    unfold one_round, submit_tasks; rewrite Hq; simpl.
  - rewrite Hf. simpl. change (Z.of_nat 0) with 0.
    destruct (Z.ltb_spec 0 (threads cfg)) as [_|]; [|lia].
    apply seed_only_in_flight; simpl; try done.
    + by rewrite Hs.
    + by rewrite Hs.
  - apply seed_only_in_flight; simpl; done.
  - unfold process_completed. simpl. rewrite Hf. simpl.
    split; [done|]. split; [done|]. right. right. by simpl.
Qed.

Lemma scan_loop_seed_only seed base fuel (s : State W) :
  seed_only seed base s →
  seed_only seed base (scan_loop run done cfg fuel s).2
  ∧ ((scan_loop run done cfg fuel s).1 = true →
     finished (scan_loop run done cfg fuel s).2 = true).
Proof.
  revert s. induction fuel as [|fuel IH]; intros s Hs; simpl.
  - destruct (finished s) eqn:Hfin; simpl; [done|]. by split.
  - destruct (finished s) eqn:Hfin; simpl; [done|].
    apply IH. by apply one_round_seed_only.
Qed.

End RaisingWorker.

(** X11.  When the worker of every target raises, [scan_target]
    does not raise: it returns the empty list, having handed the
    seed to a worker once and logged one error for it; nothing is
    added to [visited_urls]. *)
Theorem X11_raising_worker_yields_nothing `{Collaborators} {W : Type}
    (run : string → Z → W → option (list Result) * W)
    (done : nat → nat → bool) (cfg : ScanConfig) (fuel : nat)
    (target : string) (st st' : DeepScanner.State W) (rs : list Result) :
  (∀ target depth w, (run target depth w).1 = None) →
  0 < threads cfg →
  DeepScanner.scan_target run done cfg fuel target st = (Returned rs, st') →
  rs = []
  ∧ DeepScanner.error_log st'
    = DeepScanner.error_log st ++ [DeepScanner.normalize_target target]
  ∧ DeepScanner.submitted st'
    = DeepScanner.submitted st
      ++ [(length (DeepScanner.submitted st),
           DeepScanner.normalize_target target, 0)]
  ∧ DeepScanner.visited_urls st' = DeepScanner.visited_urls st.
Proof.
  intros Hraise Hpool. unfold DeepScanner.scan_target.
  destruct (Z.leb_spec (threads cfg) 0) as [|_]; [lia|].
  set (st0 := DeepScanner.mkState _ _ _ _ _ _ _ _).
  assert (seed_only (DeepScanner.normalize_target target) st st0) as Hinv.
  { split; [done|]. split; [done|]. by left. }
  apply (scan_loop_seed_only run done cfg Hraise Hpool _ _ fuel) in Hinv
    as [Hinv Hfin].
  destruct (DeepScanner.scan_loop run done cfg fuel st0) as [[|] st1];
    [|done].
  intros [= <- <-]. simpl in *. specialize (Hfin eq_refl).
  unfold DeepScanner.finished in Hfin.
  destruct Hinv as (Hr & Hv & [(Hq & _)|[(_ & Hf & _)|(_ & _ & Hs & He)]]).
  - by rewrite Hq in Hfin.
  - rewrite Hf in Hfin. by destruct (DeepScanner.scan_queue st1).
  - done.
Qed.

(** X11, an instance: one target, a pool of ten workers. *)
Lemma X11_raising_worker_yields_nothing_witness :
  let st := DeepScanner.initial_state tt in
  let st' := (@DeepScanner.scan_target sample_world unit raising_worker
                done_at_once default_config 2 "t" st).2 in
  ([] : list Result) = []
  ∧ DeepScanner.error_log st'
    = DeepScanner.error_log st ++ [DeepScanner.normalize_target "t"]
  ∧ DeepScanner.submitted st'
    = DeepScanner.submitted st
      ++ [(length (DeepScanner.submitted st),
           DeepScanner.normalize_target "t", 0)]
  ∧ DeepScanner.visited_urls st' = DeepScanner.visited_urls st.
Proof.
  apply (@X11_raising_worker_yields_nothing sample_world unit raising_worker
           done_at_once default_config 2 "t" (DeepScanner.initial_state tt)).
  - reflexivity.
  - reflexivity.
  - reflexivity.
Defined.

(** ** A crawler or fuzzer that raises *)

(** X12.  When the scan of the crawler raises, [_scan_url] raises
    with it, after the brute-force scan has sent a request for every
    word: the results of those requests are lost, the counter of
    requests has been raised by their number, and the cache of the
    filter is untouched.  What the crawler visited before it raised
    stays visited. *)
Theorem X12_crawler_error_loses_brute_results `{Collaborators}
    (cfg : ScanConfig) (wordlist : list string) (target : string)
    (depth : Z) (st : DeepScanner.ScannerState) :
  crawling cfg = true →
  (crawler_scan (timeout cfg) target (DeepScanner.crawler_visited st)).1
  = None →
  let after := DeepScanner._scan_url cfg wordlist target depth st in
  after.1 = None
  ∧ DeepScanner.response_cache after.2 = DeepScanner.response_cache st
  ∧ DeepScanner.crawler_visited after.2
    = (crawler_scan (timeout cfg) target (DeepScanner.crawler_visited st)).2
  ∧ (brute_force cfg = true →
     requests_of (DeepScanner.trace after.2)
     = requests_of (DeepScanner.trace st)
       ++ map (fun word =>
                 request_for cfg (BruteForcer.target_url_of target word))
            wordlist
     ∧ DeepScanner.monitor_stats after.2 !! "total_requests"
       = (fun n => n + Z.of_nat
                         (length (BruteForcer.scan cfg wordlist target).1))
         <$> DeepScanner.monitor_stats st !! "total_requests").
Proof.
  intros Hc Hraise. simpl. unfold DeepScanner._scan_url.
  rewrite Hc.
  pose proof (proj2 (scan_loop_spec cfg target wordlist []
    [EvLog "INFO"
       ("Starting brute force scan on " +:+ target +:+ " with "
        +:+ pretty (length wordlist) +:+ " words")])) as Hreq.
  fold (BruteForcer.scan cfg wordlist target) in Hreq.
  destruct (BruteForcer.scan cfg wordlist target) as [brute events].
  destruct (brute_force cfg);
    cbn [DeepScanner.crawler_visited DeepScanner.monitor_update
         DeepScanner.emit];
    rewrite start_monitoring_visited;
    destruct (crawler_scan _ _ _) as [crawled visited];
    simpl in Hraise; subst crawled; simpl.
  - split; [done|]. split; [apply start_monitoring_cache|].
    split; [done|]. intros _. split.
    + rewrite requests_of_app. simpl in Hreq. rewrite Hreq.
      f_equal. unfold DeepScanner.start_monitoring.
      destruct (DeepScanner.is_monitoring st); simpl; [done|].
      by rewrite requests_of_app, app_nil_r.
    + rewrite start_monitoring_stats.
      destruct (DeepScanner.monitor_stats st !! "total_requests") eqn:Hn;
        simpl; [by rewrite lookup_insert_eq|done].
  - split; [done|]. split; [apply start_monitoring_cache|done].
Qed.

(** X12, an instance: the default configuration, in which the
    crawler is on, two words to probe and a host that answers. *)
Lemma X12_crawler_error_loses_brute_results_witness :
  let after := @DeepScanner._scan_url home_link_site default_config
                 ["a.txt"; "b.txt"] "https://t/" 0
                 DeepScanner.initial_scanner_state in
  after.1 = None
  ∧ DeepScanner.crawler_visited after.2 = {["https://t/"]} ∪ ∅.
Proof.
  simpl.
  destruct (@X12_crawler_error_loses_brute_results home_link_site
              default_config ["a.txt"; "b.txt"] "https://t/" 0
              DeepScanner.initial_scanner_state eq_refl eq_refl)
    as (Hnone & _ & Hvisited & _).
  split; [exact Hnone|exact Hvisited].
Defined.

(** ** Several targets *)

Section SeveralTargets.
Import DeepScanner.
Context `{Collaborators} {W : Type}.
Variable run : string → Z → W → option (list Result) * W.
Variable done : nat → nat → bool.
Variable cfg : ScanConfig.

Lemma scan_targets_loop_acc fuel targets acc (st : State W) :
  scan_targets_loop run done cfg fuel targets acc st
  = match scan_targets_loop run done cfg fuel targets [] st with
    | (Returned rs, st') => (Returned (acc ++ rs), st')
    | other => other
    end.
Proof.
  revert acc st. induction targets as [|t rest IH]; intros acc st; simpl.
  - by rewrite app_nil_r.
  - destruct (scan_target run done cfg fuel t st) as [[rs| |] st1]; [|done..].
    rewrite (IH (acc ++ rs)), (IH rs).
    destruct (scan_targets_loop run done cfg fuel rest [] st1)
      as [[rs'| |] st2]; [|done..].
    by rewrite app_assoc.
Qed.

Lemma scan_targets_loop_app fuel ts1 ts2 acc (st : State W) :
  scan_targets_loop run done cfg fuel (ts1 ++ ts2) acc st
  = match scan_targets_loop run done cfg fuel ts1 acc st with
    | (Returned rs1, st1) => scan_targets_loop run done cfg fuel ts2 rs1 st1
    | other => other
    end.
Proof.
  revert acc st. induction ts1 as [|t rest IH]; intros acc st; simpl; [done|].
  destruct (scan_target run done cfg fuel t st) as [[rs| |] st1]; [|done..].
  apply IH.
Qed.

End SeveralTargets.

(** X13.  [scan_targets] works the targets off one after the
    other: scanning a list of targets is scanning a first part of it
    and then the rest in the state the first part left (with its
    [visited_urls]), and the results are those of the first part
    followed by those of the rest.  With a pool size that is not
    positive the first target already raises, and nothing is handed
    to a worker. *)
Theorem X13_scan_targets_in_sequence `{Collaborators} {W : Type}
    (run : string → Z → W → option (list Result) * W)
    (done : nat → nat → bool) (cfg : ScanConfig) (fuel : nat)
    (ts1 ts2 : list string) (st : DeepScanner.State W) :
  DeepScanner.scan_targets run done cfg fuel (ts1 ++ ts2) st
  = match DeepScanner.scan_targets run done cfg fuel ts1 st with
    | (Returned rs1, st1) =>
        match DeepScanner.scan_targets run done cfg fuel ts2 st1 with
        | (Returned rs2, st2) => (Returned (rs1 ++ rs2), st2)
        | other => other
        end
    | other => other
    end
  ∧ (threads cfg ≤ 0 → ts1 ≠ [] →
     (DeepScanner.scan_targets run done cfg fuel ts1 st).1 = Raised
     ∧ DeepScanner.submitted
         (DeepScanner.scan_targets run done cfg fuel ts1 st).2
       = DeepScanner.submitted st).
Proof.
  unfold DeepScanner.scan_targets. split.
  - rewrite scan_targets_loop_app.
    destruct (DeepScanner.scan_targets_loop run done cfg fuel ts1 [] st)
      as [[rs1| |] st1]; [|done..].
    apply scan_targets_loop_acc.
  - intros Hpool Hne. destruct ts1 as [|t rest]; [done|]. simpl.
    unfold DeepScanner.scan_target.
    by destruct (Z.leb_spec (threads cfg) 0) as [_|]; [|lia].
Qed.

(** ** Links for recursion *)

Section NewUrls.
Import DeepScanner.
Context `{Collaborators}.

Lemma extract_loop_scope base_url parsed_base matches found urls :
  extract_loop base_url parsed_base matches found = Some urls →
  ∃ new, urls = found ++ new
         ∧ (length new ≤ length matches)%nat
         ∧ Forall (fun u => ∃ parsed_new,
                      urlparse u = Some parsed_new
                      ∧ parsed_new.2 = parsed_base.2) new.
Proof.
  revert found. induction matches as [|m rest IH]; intros found; simpl.
  - intros [= <-]. exists []. by rewrite app_nil_r.
  - set (new_url := if Py.startswith m "/" then _ else _).
    destruct (urlparse new_url) as [parsed_new|] eqn:Hp; [|done].
    case_bool_decide as Hnet.
    + intros (new & -> & Hlen & Hall)%IH.
      exists (new_url :: new). split; [by rewrite <-app_assoc|].
      split; [simpl; lia|]. constructor; [by exists parsed_new|done].
    + intros (new & -> & Hlen & Hall)%IH.
      exists new. split; [done|]. split; [lia|done].
Qed.

End NewUrls.

(** X14.  The links [_extract_new_urls] returns all lie on the host
    of the page they were found on: each parses to the network
    location of the URL of the result; there are no more of them than
    [href] values in the body, and no link is returned when the body
    holds none. *)
Theorem X14_extracted_links_same_host `{Collaborators} (result : Result)
    (links : list string) :
  DeepScanner._extract_new_urls result = Some links →
  ∃ parsed_base,
    urlparse (url result) = Some parsed_base
    ∧ Forall (fun u => ∃ parsed_new,
                 urlparse u = Some parsed_new
                 ∧ parsed_new.2 = parsed_base.2) links
    ∧ (length links ≤ length (find_hrefs (content result)))%nat.
Proof.
  unfold DeepScanner._extract_new_urls.
  destruct (urlparse (url result)) as [parsed_base|]; [|done].
  intros (new & -> & Hlen & Hall)%extract_loop_scope.
  by exists parsed_base.
Qed.

(** X14, an instance: a page of the host [t] with a link to a page
    of that host. *)
Lemma X14_extracted_links_same_host_witness :
  ∃ parsed_base,
    @urlparse sample_world "https://t/" = Some parsed_base
    ∧ Forall (fun u => ∃ parsed_new,
                 @urlparse sample_world u = Some parsed_new
                 ∧ parsed_new.2 = parsed_base.2) ["https://t/x"]
    ∧ (length ["https://t/x"]
       ≤ length (@find_hrefs sample_world "https://t/x"))%nat.
Proof.
  apply (@X14_extracted_links_same_host sample_world
           (page "https://t/" 200 11 "https://t/x") ["https://t/x"]).
  reflexivity.
Defined.

(** ** Writing the results out *)

Section OutputFacts.
Import ScannerOutput.

Lemma text_loop_spec quiet results output events :
  text_loop quiet results output events
  = (output ++ map text_line results,
     events ++ (if quiet then []
                else map (fun r => Print (text_line r)) results)).
Proof.
  revert output events.
  induction results as [|r rest IH]; intros output events; simpl.
  - rewrite app_nil_r. by destruct quiet; rewrite app_nil_r.
  - rewrite IH, <-app_assoc. destruct quiet; simpl; [done|].
    by rewrite <-app_assoc.
Qed.

Lemma printed_app e1 e2 : printed (e1 ++ e2) = printed e1 ++ printed e2.
Proof. apply omap_app. Qed.

Lemma written_paths_app e1 e2 :
  written_paths (e1 ++ e2) = written_paths e1 ++ written_paths e2.
Proof. apply omap_app. Qed.

Lemma printed_prints {A} (f : A → string) l :
  printed (map (fun x => Print (f x)) l) = map f l.
Proof. induction l as [|x l IH]; simpl; [done|]. by rewrite <-IH. Qed.

Lemma written_paths_prints {A} (f : A → string) l :
  written_paths (map (fun x => Print (f x)) l) = [].
Proof. by induction l as [|x l IH]. Qed.

End OutputFacts.

(** X15.  A line of the text output tells its result apart: two
    results are printed as the same line exactly when they have the
    same status code, content length and URL, even if the URL holds
    spaces. *)
Theorem X15_text_line_determines_result (r1 r2 : Result) :
  ScannerOutput.text_line r1 = ScannerOutput.text_line r2
  ↔ (status_code r1, content_length r1, url r1)
    = (status_code r2, content_length r2, url r2).
Proof.
  unfold ScannerOutput.text_line. split.
  - intros Heq.
    change (?a +:+ " " +:+ ?b) with (a +:+ String " " b) in Heq.
    apply split_at_first_char in Heq as [Hs Heq];
      [|by apply str_of_int_numeric..].
    change (?a +:+ " " +:+ ?b) with (a +:+ String " " b) in Heq.
    apply split_at_first_char in Heq as [Hl Hu];
      [|by apply str_of_int_numeric..].
    apply (inj pretty) in Hs, Hl. congruence.
  - by intros [= -> -> ->].
Qed.

(** X16.  What [output_results] does to the outside, whatever the
    format: it writes to one file, the output file, when one is
    named, and to none otherwise; in quiet mode it prints nothing.
    The text format (the one taken for every format name other than
    [json], [csv] and [html]) prints every line even when it also
    writes the file, which holds the lines joined by line feeds; the
    JSON and HTML formats print only when no file is named; the CSV
    format never prints, so without an output file it gives no output
    at all. *)
Theorem X16_output_results_effects (quiet : bool)
    (json_dumps csv_rows : list Result → string)
    (results : list Result) (output_file : option string)
    (format_type : string) :
  let events :=
    ScannerOutput.output_results quiet json_dumps csv_rows results
      output_file format_type in
  let path := default EmptyString output_file in
  written_paths events
  = (if Py.opt_str_truthy output_file then [path] else [])
  ∧ (quiet = true → printed events = [])
  ∧ (format_type ∉ ["json"; "csv"; "html"] →
     printed events
     = (if quiet then [] else map ScannerOutput.text_line results)
     ∧ (Py.opt_str_truthy output_file = true →
        ScannerOutput.WriteFile path
          (PyStr.join ScannerOutput.newline
             (map ScannerOutput.text_line results)) ∈ events))
  ∧ (format_type ∈ ["json"; "html"] →
     Py.opt_str_truthy output_file = true → printed events = [])
  ∧ (format_type = "csv" → printed events = []).
Proof.
  simpl. unfold ScannerOutput.output_results, ScannerOutput._output_json,
    ScannerOutput._output_csv, ScannerOutput._output_html,
    ScannerOutput._output_text.
  rewrite text_loop_spec.
  repeat case_bool_decide; subst;
    destruct output_file as [[|c path]|], quiet; simpl;
    rewrite ?written_paths_app, ?printed_app, ?printed_prints,
      ?written_paths_prints, ?app_nil_r; simpl;
    repeat split; intros; try done;
    try (exfalso; set_solver); set_solver.
Qed.

(** ** The word list *)

Section WordlistFacts.
Import Wordlist.
Context `{Collaborators}.
Variable read_file : string → FileRead.

Lemma read_wordlists_spec paths words events :
  read_wordlists read_file paths words events
  = (words
     ++ mjoin (map (fun path => match read_file path with
                                | Lines lines => file_words lines
                                | _ => []
                                end) paths),
     events ++ omap (wordlist_log read_file) paths).
Proof.
  revert words events.
  induction paths as [|path rest IH]; intros words events; simpl.
  - by rewrite !app_nil_r.
  - unfold wordlist_log.
    destruct (read_file path) as [ls| |e] eqn:Hr; rewrite IH; simpl;
      unfold wordlist_log; by rewrite <-?app_assoc.
Qed.

Lemma file_words_elem lines w :
  w ∈ file_words lines
  ↔ w ≠ EmptyString ∧ ∃ line, line ∈ lines ∧ str_strip line = w.
Proof.
  unfold file_words. rewrite list_elem_of_fmap. split.
  - intros (line & -> & [Ht Hl]%list_elem_of_filter).
    split; [by destruct (str_strip line)|by exists line].
  - intros (Hne & line & Hl & <-). exists line. split; [done|].
    apply list_elem_of_filter. split; [|done]. by destruct (str_strip line).
Qed.

Lemma extend_word_length force word exts :
  length (extend_word force word exts)
  = ((if force then 2 else 1) * length exts)%nat.
Proof.
  induction exts as [|ext rest IH]; simpl; [by destruct force|].
  rewrite length_app, IH. destruct force; simpl; [lia|].
  destruct (Py.str_in "%EXT%" word); simpl; lia.
Qed.

Lemma apply_extensions_length force exts words :
  length (apply_extensions force exts words)
  = (length words * (1 + (if force then 2 else 1) * length exts))%nat.
Proof.
  induction words as [|word rest IH]; simpl; [done|].
  rewrite length_app, IH, extend_word_length. lia.
Qed.

Lemma apply_extensions_base force exts words w :
  w ∈ words → w ∈ apply_extensions force exts words.
Proof.
  induction words as [|word rest IH]; simpl; [by intros ?%elem_of_nil|].
  intros [->|Hw]%elem_of_cons; [by left|].
  right. apply elem_of_app. right. by apply IH.
Qed.

End WordlistFacts.

(** X17.  [_load_wordlist] never raises: a word list that cannot
    be read is skipped with one log record (a warning when the file
    is missing, an error otherwise), in the order of the configured
    paths.  The base words are the stripped non-blank lines of the
    readable word lists, each once, whatever file it came from; they
    are the word list when no extension is configured, and what the
    extensions are applied to otherwise. *)
Theorem X17_load_wordlist_base_words `{Collaborators}
    (read_file : string → Wordlist.FileRead) (cfg : ScanConfig) (force_extensions : bool) :
  let base := base_words read_file cfg in
  NoDup base
  ∧ (∀ w, w ∈ base ↔
       w ≠ EmptyString
       ∧ ∃ path lines line,
           path ∈ wordlists cfg ∧ read_file path = Wordlist.Lines lines
           ∧ line ∈ lines ∧ str_strip line = w)
  ∧ (Wordlist._load_wordlist read_file cfg force_extensions).1
    = (if Py.list_truthy (extensions cfg)
       then Wordlist.apply_extensions force_extensions (extensions cfg) base
       else base)
  ∧ (Wordlist._load_wordlist read_file cfg force_extensions).2
    = omap (wordlist_log read_file) (wordlists cfg).
Proof.
  simpl. unfold Wordlist._load_wordlist, base_words.
  rewrite read_wordlists_spec. simpl.
  set (all := mjoin _).
  split; [apply NoDup_elements|]. split; [|done].
  intros w. rewrite elem_of_elements, elem_of_list_to_set.
  unfold all. rewrite list_elem_of_join. split.
  - intros (l & Hw & (path & -> & Hpath)%list_elem_of_fmap).
    destruct (read_file path) as [lines| |e] eqn:Hread;
      [|by apply elem_of_nil in Hw..].
    apply file_words_elem in Hw as (Hne & line & Hl & Hs).
    split; [done|]. by exists path, lines, line.
  - intros (Hne & path & lines & line & Hpath & Hread & Hl & Hs).
    exists (Wordlist.file_words lines). split.
    + apply file_words_elem. split; [done|]. by exists line.
    + apply list_elem_of_fmap. exists path. by rewrite Hread.
Qed.

(** X18.  Applying the extensions keeps every base word and adds,
    for each base word and each extension, one entry, or two when
    extensions are forced: the word list has [n * (1 + k)] entries
    for [n] base words and [k] extensions, [n * (1 + 2 * k)] when
    forced.  Nothing removes duplicates after this step: with forced
    extensions and two extensions or more, the directory form of a
    base word is in the list more than once. *)
Theorem X18_load_wordlist_extensions `{Collaborators}
    (read_file : string → Wordlist.FileRead) (cfg : ScanConfig) (force_extensions : bool) :
  let base := base_words read_file cfg in
  let words := (Wordlist._load_wordlist read_file cfg force_extensions).1 in
  length words
  = (length base
     * (1 + (if force_extensions then 2 else 1) * length (extensions cfg)))%nat
  ∧ (∀ w, w ∈ base → w ∈ words)
  ∧ (force_extensions = true → (2 ≤ length (extensions cfg))%nat →
     base ≠ [] → ¬ NoDup words).
Proof.
  simpl. unfold Wordlist._load_wordlist.
  destruct (Wordlist.read_wordlists read_file (wordlists cfg) [] [])
    as [all events] eqn:Hread.
  assert (base_words read_file cfg
          = elements (list_to_set all : gset string)) as ->
    by (unfold base_words; by rewrite Hread).
  simpl. set (base := elements _).
  destruct (extensions cfg) as [|e1 exts] eqn:Hexts; simpl.
  - split; [destruct force_extensions; lia|]. split; [done|].
    intros _ ?. lia.
  - split; [apply (apply_extensions_length _ (e1 :: exts))|].
    split; [intros w; apply (apply_extensions_base _ (e1 :: exts))|].
    intros -> Hlen Hbase Hnd.
    destruct base as [|w rest]; [done|].
    destruct exts as [|e2 exts]; [simpl in Hlen; lia|].
    simpl in Hnd.
    apply NoDup_cons in Hnd as [_ Hnd]. apply NoDup_cons in Hnd as [_ Hnd].
    apply NoDup_cons in Hnd as [Hnd _]. apply Hnd. right. by left.
Qed.

(** ** The URL probed for a word *)

Lemma rev_app_append s1 s2 acc :
  String.rev_app (s1 +:+ s2) acc = String.rev_app s2 (String.rev_app s1 acc).
Proof.
  revert acc. induction s1 as [|c s1 IH]; intros acc; [done|].
  rewrite app_String. simpl. apply IH.
Qed.

Lemma endswith_appended s c :
  Py.endswith (s +:+ String c EmptyString) (String c EmptyString) = true.
Proof.
  unfold Py.endswith, String.rev. rewrite rev_app_append. simpl.
  destruct (ascii_dec c c); [|done]. by destruct (String.rev_app s _).
Qed.

(** X19.  The URL probed for a word ends with a slash unless its
    last path segment holds a dot; and one leading slash of a word
    is dropped before the word is joined to the base URL, so that
    [/word] and [word] are probed at the same URL: a word never
    replaces the path of the base URL. *)
Theorem X19_target_url_shape `{Collaborators} (base_url word : string) :
  let target_url := BruteForcer.target_url_of base_url word in
  (Py.endswith target_url "/" = true
   ∨ Py.str_in "." (Py.last_segment target_url) = true)
  ∧ (Py.startswith word "/" = false →
     BruteForcer.target_url_of base_url (String "/" word) = target_url).
Proof.
  simpl. split.
  - unfold BruteForcer.target_url_of.
    set (joined := if Py.startswith word "/" then _ else _).
    destruct (Py.endswith joined "/") eqn:He; simpl; [by left|].
    destruct (Py.str_in "." (Py.last_segment joined)) eqn:Hd; simpl;
      [by right|].
    left. apply endswith_appended.
  - intros Hw. unfold BruteForcer.target_url_of. rewrite Hw.
    assert (Py.startswith (String "/" word) "/" = true) as ->
      by (unfold Py.startswith; simpl; by destruct word).
    done.
Qed.

(** ** Validation of the configuration *)

(** X20.  [Config.validate] says no exactly when the configuration
    names neither a URL nor a URL file (an empty file name counts as
    none); it changes nothing but [wordlists], and that only when no
    word list is configured, to the default word lists; and a second
    call gives the verdict and the configuration of the first. *)
Theorem X20_validate_defaults_wordlists (default_wordlists : list string)
    (c : ScanConfig) :
  let verdict := (Config.validate default_wordlists c).1 in
  let c' := (Config.validate default_wordlists c).2 in
  (verdict = false
   ↔ urls c = [] ∧ (url_file c = None ∨ url_file c = Some EmptyString))
  ∧ c' = (if verdict && negb (Py.list_truthy (wordlists c))
          then set_wordlists default_wordlists c else c)
  ∧ Config.validate default_wordlists c' = (verdict, c').
Proof.
  simpl. unfold Config.validate, set_wordlists.
  destruct c as [us uf wl]. simpl.
  destruct us as [|u us], uf as [[|ch f]|], wl as [|w wl]; simpl;
    (split; [naive_solver|]); (split; [done|]);
    by destruct default_wordlists.
Qed.

(** ** The crawler *)

Section CrawlerFacts.
Import CrawlerScan.
Context `{Collaborators}.

Lemma crawl_url_spec cfg target_url :
  requests_of (Crawler._crawl_url cfg target_url).2
  = [Crawler.get_request cfg target_url]
  ∧ ∀ r, (Crawler._crawl_url cfg target_url).1 = Some r →
         url r = target_url ∧ scan_type r = "crawler".
Proof.
  unfold Crawler._crawl_url.
  destruct (session_request _) as [response|e]; simpl; [|done].
  split; [done|]. by intros r [= <-].
Qed.

Lemma extract_urls_raises js soup_links extract_js_urls result :
  _extract_urls js soup_links extract_js_urls result = None ↔ js = None.
Proof. unfold _extract_urls. by destruct js. Qed.

(** What the loop of [scan] does from any state of its variables:
    it fetches URLs that were not visited, each once, marks them
    visited, and keeps within the limit of 1000 visited URLs. *)
Local Ltac nothing_fetched :=
  exists [], []; simpl; rewrite ?app_nil_r;
  split; [set_solver|]; split; [constructor|]; split; [set_solver|];
  split; [done|]; split; [constructor|]; split; [lia|];
  split; [by left|]; done.

Lemma crawl_loop_spec js soup_links extract_js_urls in_scope fuel cfg
    base_url to_visit (visited : gset string) results events :
  ∃ fetched new,
    let out := scan_loop js soup_links extract_js_urls in_scope fuel cfg
                 base_url to_visit visited results events in
    out.1.2 = list_to_set fetched ∪ visited
    ∧ NoDup fetched
    ∧ (∀ u, u ∈ fetched → u ∉ visited)
    ∧ requests_of out.2
      = requests_of events ++ map (Crawler.get_request cfg) fetched
    ∧ Forall (fun r => url r ∈ fetched ∧ scan_type r = "crawler") new
    ∧ (length new ≤ length fetched)%nat
    ∧ (fetched = [] ∨ (size visited + length fetched ≤ 1000)%nat)
    ∧ match out.1.1 with
      | Returned rs => rs = results ++ new ∧ (js = None → new = [])
      | Raised => js = None ∧ fetched ≠ []
      | OutOfFuel => True
      end.
Proof.
  revert to_visit visited results events.
  induction fuel as [|fuel IH]; intros to_visit visited results events.
  - destruct to_visit as [|current rest]; [nothing_fetched|].
    simpl. destruct (Z.of_nat (size visited) <? 1000); nothing_fetched.
  - destruct to_visit as [|current rest]; [nothing_fetched|].
    simpl. destruct (Z.ltb_spec (Z.of_nat (size visited)) 1000) as [Hlim|Hlim];
      simpl; [|nothing_fetched].
    case_bool_decide as Hseen; [apply IH|].
    assert (size ({[current]} ∪ visited) = S (size visited)) as Hsize.
    { rewrite size_union by set_solver. by rewrite size_singleton. }
    destruct (crawl_url_spec cfg current) as [Hreq Hres].
    destruct (Crawler._crawl_url cfg current) as [[r|] evs]; simpl in *.
    + destruct (Hres r eq_refl) as [Hurl Htype].
      destruct (_extract_urls js soup_links extract_js_urls r)
        as [new_urls|] eqn:Hext.
      * destruct (IH (add_new_urls in_scope base_url new_urls
                        ({[current]} ∪ visited) rest)
                    ({[current]} ∪ visited) (results ++ [r]) (events ++ evs))
          as (fetched & new & Hv & Hnd & Hfresh & Hrq & Hnew & Hlen & Hsz
              & Hout).
        exists (current :: fetched), (r :: new). simpl in *.
        split; [rewrite Hv; set_solver|].
        split; [constructor; [|done]; intros Hin;
                apply Hfresh in Hin; set_solver|].
        split; [intros u [->|Hu]%elem_of_cons;
                [done|apply Hfresh in Hu; set_solver]|].
        split; [by rewrite Hrq, requests_of_app, Hreq, <-app_assoc|].
        split.
        { constructor; [split; [rewrite Hurl; by left|done]|].
          eapply Forall_impl; [exact Hnew|].
          intros x [? ?]. split; [by right|done]. }
        split; [lia|].
        split; [right; destruct Hsz as [->|Hsz]; simpl; lia|].
        destruct (scan_loop _ _ _ _ _ _ _ _ _ _ _).1.1 as [rs| |];
          [|by destruct Hout|done].
        destruct Hout as [-> Hjs]. split; [by rewrite <-app_assoc|].
        intros ->. done.
      * apply extract_urls_raises in Hext.
        exists [current], []. simpl.
        split; [set_solver|]. split; [apply NoDup_singleton|].
        split; [by intros u ->%list_elem_of_singleton|].
        split; [by rewrite requests_of_app, Hreq|].
        split; [constructor|]. split; [lia|].
        split; [right; simpl; lia|done].
    + destruct (IH rest ({[current]} ∪ visited) results (events ++ evs))
        as (fetched & new & Hv & Hnd & Hfresh & Hrq & Hnew & Hlen & Hsz
            & Hout).
      exists (current :: fetched), new. simpl in *.
      split; [rewrite Hv; set_solver|].
      split; [constructor; [|done]; intros Hin;
              apply Hfresh in Hin; set_solver|].
      split; [intros u [->|Hu]%elem_of_cons;
              [done|apply Hfresh in Hu; set_solver]|].
      split; [by rewrite Hrq, requests_of_app, Hreq, <-app_assoc|].
      split.
      { eapply Forall_impl; [exact Hnew|].
        intros x [? ?]. split; [by right|done]. }
      split; [lia|].
      split; [right; destruct Hsz as [->|Hsz]; simpl; lia|].
      destruct (scan_loop _ _ _ _ _ _ _ _ _ _ _).1.1 as [rs| |];
        [done|by destruct Hout|done].
Qed.

(** The loop of [scan] ends: every round takes a URL off the list
    or adds one to the at most 1000 visited URLs. *)
Lemma crawl_loop_terminates js soup_links extract_js_urls in_scope cfg
    base_url n :
  ∀ to_visit (visited : gset string) results events,
    (1000 - size visited ≤ n)%nat →
    ∃ fuel,
      (scan_loop js soup_links extract_js_urls in_scope fuel cfg base_url
         to_visit visited results events).1.1 ≠ OutOfFuel.
Proof.
  induction n as [|n IHn]; intros to_visit;
    induction to_visit as [|current rest IHt];
    intros visited results events Hn;
    try (by exists 0%nat).
  - exists 0%nat. simpl.
    destruct (Z.ltb_spec (Z.of_nat (size visited)) 1000); [lia|done].
  - destruct (Z.ltb_spec (Z.of_nat (size visited)) 1000) as [Hlim|Hlim].
    2:{ exists 0%nat. simpl.
        destruct (Z.ltb_spec (Z.of_nat (size visited)) 1000); [lia|done]. }
    assert (∀ fuel,
      scan_loop js soup_links extract_js_urls in_scope (S fuel) cfg base_url
        (current :: rest) visited results events
      = if bool_decide (current ∈ visited)
        then scan_loop js soup_links extract_js_urls in_scope fuel cfg
               base_url rest visited results events
        else
          let visited := {[current]} ∪ visited in
          let '(result, evs) := Crawler._crawl_url cfg current in
          let events := events ++ evs in
          match result with
          | Some r =>
              let results := results ++ [r] in
              match _extract_urls js soup_links extract_js_urls r with
              | Some new_urls =>
                  scan_loop js soup_links extract_js_urls in_scope fuel cfg
                    base_url
                    (add_new_urls in_scope base_url new_urls visited rest)
                    visited results events
              | None => (Raised, visited, events)
              end
          | None =>
              scan_loop js soup_links extract_js_urls in_scope fuel cfg
                base_url rest visited results events
          end) as Hstep.
    { intros fuel. simpl.
      by destruct (Z.ltb_spec (Z.of_nat (size visited)) 1000); [|lia]. }
    destruct (decide (current ∈ visited)) as [Hseen|Hseen].
    + destruct (IHt visited results events Hn) as [fuel Hfuel].
      exists (S fuel). rewrite Hstep. by rewrite bool_decide_eq_true_2.
    + assert (size ({[current]} ∪ visited) = S (size visited)) as Hsize.
      { rewrite size_union by set_solver. by rewrite size_singleton. }
      destruct (Crawler._crawl_url cfg current) as [[r|] evs] eqn:Hcrawl.
      * destruct (_extract_urls js soup_links extract_js_urls r)
          as [new_urls|] eqn:Hext.
        -- destruct (IHn (add_new_urls in_scope base_url new_urls
                            ({[current]} ∪ visited) rest)
                       ({[current]} ∪ visited) (results ++ [r])
                       (events ++ evs)) as [fuel Hfuel]; [lia|].
           exists (S fuel). rewrite Hstep.
           rewrite bool_decide_eq_false_2 by done. simpl.
           by rewrite ?Hcrawl, ?Hext.
        -- exists 1%nat. rewrite Hstep.
           rewrite bool_decide_eq_false_2 by done. simpl.
           by rewrite ?Hcrawl, ?Hext.
      * destruct (IHn rest ({[current]} ∪ visited) results (events ++ evs))
          as [fuel Hfuel]; [lia|].
        exists (S fuel). rewrite Hstep.
        rewrite bool_decide_eq_false_2 by done. simpl.
        by rewrite ?Hcrawl.
Qed.

End CrawlerFacts.

(** X22.  [Crawler.scan] reads [self.config.js] once it has fetched
    a page, and the configuration class declares no such field.
    With the attribute missing the scan never returns a result:
    whenever it returns, it returns the empty list; and when the
    first request is answered, it raises right after that one
    request. *)
Theorem X22_crawler_scan_without_js `{Collaborators}
    (soup_links extract_js_urls : string → string → list string)
    (in_scope : string → string → bool) (fuel : nat) (cfg : ScanConfig)
    (base_url : string) (visited : gset string) :
  let scan := CrawlerScan.scan None soup_links extract_js_urls in_scope in
  (∀ rs, (scan fuel cfg base_url visited).1.1 = Returned rs → rs = [])
  ∧ (∀ response,
       base_url ∉ visited → Z.of_nat (size visited) < 1000 →
       session_request (Crawler.get_request cfg base_url)
       = HttpResponse response →
       scan (S fuel) cfg base_url visited
       = (Raised, {[base_url]} ∪ visited,
          [EvLog "INFO" ("Starting crawl from " +:+ base_url);
           EvRequest (Crawler.get_request cfg base_url)])).
Proof.
  simpl. split.
  - intros rs Hrs. unfold CrawlerScan.scan in Hrs.
    destruct (crawl_loop_spec None soup_links extract_js_urls in_scope fuel
                cfg base_url [base_url] visited []
                [EvLog "INFO" ("Starting crawl from " +:+ base_url)])
      as (fetched & new & _ & _ & _ & _ & _ & _ & _ & Hout).
    simpl in Hout. rewrite Hrs in Hout. destruct Hout as [-> Hnew].
    by rewrite Hnew.
  - intros response Hfresh Hlim Hresp. unfold CrawlerScan.scan. simpl.
    destruct (Z.ltb_spec (Z.of_nat (size visited)) 1000); [|lia]. simpl.
    rewrite bool_decide_eq_false_2 by done.
    unfold Crawler._crawl_url. by rewrite Hresp.
Qed.

(** X23.  [Crawler.scan] fetches no URL twice, in one call or over
    the life of the crawler: the URLs it requests are pairwise
    distinct, none was visited before the call, and all are visited
    after it; once 1000 URLs are visited nothing more is fetched.
    Every result is the page of a URL fetched in this call; a base
    URL that was visited before gives the empty list without a
    request; and the loop always comes to an end. *)
Theorem X23_crawler_scan_visits_once `{Collaborators} (js : option bool)
    (soup_links extract_js_urls : string → string → list string)
    (in_scope : string → string → bool) (fuel : nat) (cfg : ScanConfig)
    (base_url : string) (visited : gset string) :
  let scan := CrawlerScan.scan js soup_links extract_js_urls in_scope in
  let out := scan fuel cfg base_url visited in
  (∃ fetched,
     NoDup fetched
     ∧ (∀ u, u ∈ fetched → u ∉ visited)
     ∧ out.1.2 = list_to_set fetched ∪ visited
     ∧ requests_of out.2 = map (Crawler.get_request cfg) fetched
     ∧ (fetched = [] ∨ (size visited + length fetched ≤ 1000)%nat)
     ∧ (∀ rs, out.1.1 = Returned rs →
          (length rs ≤ length fetched)%nat
          ∧ Forall (fun r => url r ∈ fetched ∧ scan_type r = "crawler") rs))
  ∧ (base_url ∈ visited →
     scan (S fuel) cfg base_url visited
     = (Returned [], visited,
        [EvLog "INFO" ("Starting crawl from " +:+ base_url)]))
  ∧ (∃ enough, (scan enough cfg base_url visited).1.1 ≠ OutOfFuel).
Proof.
  simpl. unfold CrawlerScan.scan. split; [|split].
  - destruct (crawl_loop_spec js soup_links extract_js_urls in_scope fuel
                cfg base_url [base_url] visited []
                [EvLog "INFO" ("Starting crawl from " +:+ base_url)])
      as (fetched & new & Hv & Hnd & Hfresh & Hreq & Hnew & Hlen & Hsz & Hout).
    exists fetched. simpl in *.
    split; [done|]. split; [done|]. split; [done|]. split; [done|].
    split; [done|]. intros rs Hrs. rewrite Hrs in Hout.
    by destruct Hout as [-> _].
  - intros Hseen. simpl.
    destruct (Z.of_nat (size visited) <? 1000); simpl; [|done].
    rewrite bool_decide_eq_true_2 by done. by destruct fuel.
  - by apply (crawl_loop_terminates js soup_links extract_js_urls in_scope
                cfg base_url (1000 - size visited)).
Qed.

(** ** The fuzzer *)

Section FuzzerFacts.
Context `{Collaborators}.

Lemma fuzz_request_spec cfg target_url :
  (Fuzzer._make_request cfg target_url).2
  = [EvRequest (Crawler.get_request cfg target_url)]
  ∧ ∀ r, (Fuzzer._make_request cfg target_url).1 = Some r →
         url r = target_url
         ∧ (status_code r ∉ [404; 403; 429])
         ∧ (String.length (content r) ≤ 500)%nat
         ∧ scan_type r = "fuzzer".
Proof.
  unfold Fuzzer._make_request.
  destruct (session_request _) as [response|e]; [|done].
  case_bool_decide as Hstatus; cbn [negb fst snd]; [by split|].
  split; [done|]. intros r Heq. apply (inj Some) in Heq. subst r.
  cbn [url status_code content scan_type].
  split; [done|]. split; [done|]. split; [|done].
  destruct (Nat.ltb_spec 500 (String.length (resp_text response)));
    [apply take_chars_length|done].
Qed.

Lemma fuzz_loop_spec cfg base_url patterns results events :
  FuzzerScan.scan_loop cfg base_url patterns results events
  = (results
     ++ omap (fun pattern =>
                (Fuzzer._make_request cfg (urljoin base_url pattern)).1)
          patterns,
     events
     ++ map (fun pattern =>
               EvRequest (Crawler.get_request cfg (urljoin base_url pattern)))
          patterns).
Proof.
  revert results events.
  induction patterns as [|pattern rest IH]; intros results events; simpl.
  - by rewrite !app_nil_r.
  - destruct (fuzz_request_spec cfg (urljoin base_url pattern)) as [Hev _].
    destruct (Fuzzer._make_request cfg (urljoin base_url pattern))
      as [[r|] evs]; simpl in *; subst evs; rewrite IH;
      by rewrite <-!app_assoc.
Qed.

End FuzzerFacts.

(** X24.  [Fuzzer.scan] sends one [GET] request per pattern, in
    the order of the patterns, to the pattern joined to the base URL,
    whatever became of the requests before; it never sleeps between
    requests and logs nothing but its first line, so the configured
    delays and HTTP method do not reach it.  Its results are the
    answered requests whose status code is not 404, 403 or 429, in
    that order, each with at most 500 characters of body. *)
Theorem X24_fuzzer_scan `{Collaborators} (cfg : ScanConfig)
    (patterns : list string) (base_url : string) :
  let out := FuzzerScan.scan cfg patterns base_url in
  out.2
  = EvLog "INFO"
      ("Starting fuzzing scan on " +:+ base_url +:+ " with "
       +:+ pretty (length patterns) +:+ " patterns")
    :: map (fun pattern =>
              EvRequest (Crawler.get_request cfg (urljoin base_url pattern)))
         patterns
  ∧ out.1
    = omap (fun pattern =>
              (Fuzzer._make_request cfg (urljoin base_url pattern)).1)
        patterns
  ∧ Forall (fun r =>
              (status_code r ∉ [404; 403; 429])
              ∧ (String.length (content r) ≤ 500)%nat
              ∧ scan_type r = "fuzzer"
              ∧ ∃ pattern, pattern ∈ patterns
                           ∧ url r = urljoin base_url pattern) out.1.
Proof.
  simpl. unfold FuzzerScan.scan. rewrite fuzz_loop_spec. simpl.
  split; [done|]. split; [done|].
  apply Forall_forall. intros r (pattern & Hp & Hr)%list_elem_of_omap.
  destruct (fuzz_request_spec cfg (urljoin base_url pattern)) as [_ Hres].
  destruct (Hres r Hr) as (Hurl & Hstatus & Hlen & Htype).
  split; [done|]. split; [done|]. split; [done|]. by exists pattern.
Qed.

(** ** Categories *)

Section CategorizeFacts.
Import Categorize.
Context `{Collaborators}.

Lemma categorize_step_category categories result :
  categorize_step categories result
  = append_to (category_of result) result categories.
Proof.
  unfold categorize_step, category_of.
  repeat (destruct (any_in _ _); [done|]). done.
Qed.

Lemma category_of_key result :
  category_of result ∈ category_keys ∧ category_of result ≠ "sensitive_data".
Proof.
  unfold category_of, category_keys.
  repeat (destruct (any_in _ _); [split; [set_solver|done]|]).
  split; [set_solver|done].
Qed.

Lemma empty_categories_lookup key :
  empty_categories !! key
  = if decide (key ∈ category_keys) then Some [] else None.
Proof.
  unfold empty_categories, category_keys. simpl.
  repeat match goal with
         | |- <[?k := _]> _ !! key = _ =>
             destruct (decide (key = k)) as [->|?];
             [by rewrite lookup_insert_eq, decide_True by set_solver
             |rewrite lookup_insert_ne by done]
         end.
  rewrite lookup_empty. by rewrite decide_False by set_solver.
Qed.

Lemma categorize_loop_lookup results seen categories key :
  (∀ k, categories !! k
        = if decide (k ∈ category_keys)
          then Some (filter (fun r => category_of r = k) seen) else None) →
  fold_left categorize_step results categories !! key
  = if decide (key ∈ category_keys)
    then Some (filter (fun r => category_of r = key) (seen ++ results))
    else None.
Proof.
  revert seen categories.
  induction results as [|r rest IH]; intros seen categories Hinv; simpl.
  - by rewrite app_nil_r.
  - replace (seen ++ r :: rest) with ((seen ++ [r]) ++ rest)
      by by rewrite <-app_assoc.
    apply IH. intros k. rewrite categorize_step_category. unfold append_to.
    rewrite filter_app, filter_cons, filter_nil.
    destruct (decide (category_of r = k)) as [<-|Hne].
    + rewrite lookup_alter_eq, Hinv.
      by destruct (decide (category_of r ∈ category_keys)).
    + rewrite lookup_alter_ne by done. rewrite Hinv, app_nil_r. done.
Qed.

End CategorizeFacts.

(** X25.  [categorize_results] sorts every result into exactly one
    of ten lists: the dictionary it returns has the ten category keys
    and no other, the list under a key holds the results of that
    category in the order of the input, and the category of a result
    is the first, in the order of the branches, one of whose words
    occurs in the lower-cased URL (so a URL that holds [admin] is an
    admin panel whatever else it holds), [other] when none does.
    Nothing is ever put under [sensitive_data]. *)
Theorem X25_categorize_results_partition `{Collaborators}
    (results : list Result) (key : string) (result : Result) :
  let categories := Categorize.categorize_results results in
  categories !! key
  = (if decide (key ∈ category_keys)
     then Some (filter (fun r => category_of r = key) results) else None)
  ∧ dom categories = (list_to_set category_keys : gset string)
  ∧ categories !! "sensitive_data" = Some []
  ∧ (Py.str_in "admin" (str_lower (url result)) = true →
     category_of result = "admin_panels")
  ∧ category_of result ∈ category_keys.
Proof.
  simpl. unfold Categorize.categorize_results.
  assert (∀ k, fold_left Categorize.categorize_step results
                 Categorize.empty_categories !! k
               = if decide (k ∈ category_keys)
                 then Some (filter (fun r => category_of r = k) results)
                 else None) as Hlookup.
  { intros k.
    apply (categorize_loop_lookup results [] Categorize.empty_categories).
    intros k'. apply empty_categories_lookup. }
  split; [apply Hlookup|]. split; [|split; [|split]].
  - apply set_eq. intros k. rewrite elem_of_dom, Hlookup.
    destruct (decide (k ∈ category_keys)) as [Hk|Hk];
      unfold category_keys in Hk.
    + split; [intros _; set_solver|by eexists].
    + split; [by intros [? ?]|intros; exfalso; set_solver].
  - rewrite Hlookup. rewrite decide_True by (unfold category_keys; set_solver).
    f_equal. clear Hlookup. induction results as [|r rest IH]; [done|].
    rewrite filter_cons, IH.
    by rewrite decide_False by apply category_of_key.
  - intros Hadmin. unfold category_of, Categorize.any_in. simpl.
    by rewrite Hadmin.
  - apply category_of_key.
Qed.

(** ** The targets of the command line *)

(** X26.  When the targets of the command line can be loaded, they
    are the URL given with [-u], if one is given, followed by the
    stripped non-blank lines of the URL list in their order,
    duplicates included; none of them is an empty text.  They cannot
    be loaded exactly when the URL list cannot be opened. *)
Theorem X26_load_targets `{Collaborators}
    (read_lines : string → option (list string))
    (args : Cli.Args) (targets : list string) :
  Main.load_targets read_lines args = Some targets →
  (∃ lines : list string,
     match Cli.arg_url_list args with
     | Some path =>
         if Py.str_truthy path then read_lines path = Some lines
         else lines = []
     | None => lines = []
     end
     ∧ targets
       = match Cli.arg_url args with
         | Some u => if Py.str_truthy u then [u] else []
         | None => []
         end
         ++ map str_strip
              (filter (fun line => str_strip line ≠ EmptyString) lines))
  ∧ Forall (fun target => target ≠ EmptyString) targets
  ∧ (∀ u, Cli.arg_url args = Some u → u ≠ EmptyString →
       ∃ rest, targets = u :: rest)
  ∧ (Cli.arg_url_list args = None → (length targets ≤ 1)%nat)
  ∧ ∀ args', Main.load_targets read_lines args' = None
             ↔ ∃ path, Cli.arg_url_list args' = Some path
                       ∧ path ≠ EmptyString ∧ read_lines path = None.
Proof.
  assert (∀ lines : list string,
            filter (fun line => Py.str_truthy (str_strip line) = true) lines
            = filter (fun line => str_strip line ≠ EmptyString) lines)
    as Hfilter.
  { intros lines. apply list_filter_iff. intros line.
    by destruct (str_strip line). }
  assert (∀ lines : list string,
            Forall (fun target => target ≠ EmptyString)
              (map str_strip
                 (filter (fun line => str_strip line ≠ EmptyString) lines)))
    as Hlines.
  { intros lines. apply Forall_forall.
    by intros t (line & -> & [Ht _]%list_elem_of_filter)%list_elem_of_fmap. }
  intros Hload. split; [|split; [|split; [|split]]].
  - revert Hload. unfold Main.load_targets.
    destruct (Cli.arg_url_list args) as [[|c path]|]; simpl.
    + intros [= <-]. exists []. by rewrite app_nil_r.
    + destruct (read_lines _) as [lines|]; [|done].
      intros [= <-]. exists lines. by rewrite Hfilter.
    + intros [= <-]. exists []. by rewrite app_nil_r.
  - revert Hload. unfold Main.load_targets.
    destruct (Cli.arg_url args) as [[|c u]|],
      (Cli.arg_url_list args) as [[|c' path]|]; simpl;
      try destruct (read_lines _) as [lines|]; intros [= <-];
      rewrite ?Hfilter; try (constructor; [done|]); try done; apply Hlines.
  - revert Hload. unfold Main.load_targets.
    intros Hload u Hu Hne. rewrite Hu in Hload.
    destruct u as [|c u]; [done|]. simpl in Hload.
    destruct (Cli.arg_url_list args) as [[|c' path]|]; simpl in Hload;
      try destruct (read_lines _) as [lines|]; simplify_eq; by eexists.
  - revert Hload. unfold Main.load_targets. intros Hload Hnone.
    rewrite Hnone in Hload.
    destruct (Cli.arg_url args) as [[|c u]|]; simplify_eq; simpl; lia.
  - intros args'. unfold Main.load_targets.
    destruct (Cli.arg_url_list args') as [[|c path]|]; simpl.
    + split; [done|]. by intros (path & [= <-] & ? & _).
    + destruct (read_lines _) as [lines|] eqn:Hread.
      * split; [done|]. intros (path' & [= <-] & _ & ?). congruence.
      * split; [|done]. intros _. by eexists.
    + split; [done|]. by intros (path & ? & _).
Qed.

(** X26, an instance: a URL and a list of two lines, one blank. *)
Lemma X26_load_targets_witness :
  ∃ lines : list string,
    lines = [" https://s/ "; "  "]
    ∧ ["https://t/"; "https://s/"]
      = ["https://t/"]
        ++ map (@str_strip sample_world)
             (filter (fun line => @str_strip sample_world line ≠ EmptyString)
                lines).
Proof.
  destruct (@X26_load_targets sample_world
              (fun _ => Some [" https://s/ "; "  "]) url_and_url_list
              ["https://t/"; "https://s/"] eq_refl)
    as [(lines & Hlines & Htargets) _].
  exists lines. split; [|exact Htargets].
  simpl in Hlines. by injection Hlines.
Defined.

(** ** A target scanned again *)

Section Rescan.
Import DeepScanner.
Context `{Collaborators}.

Lemma scan_url_cache cfg wordlist target depth st :
  response_cache (_scan_url cfg wordlist target depth st).2
  = match gathered cfg wordlist target (crawler_visited st) with
    | Some raw =>
        (IntelligentFilter.filter_results cfg (map analyze_update raw)
           (response_cache st)).2
    | None => response_cache st
    end.
Proof.
  unfold _scan_url, gathered.
  destruct (BruteForcer.scan cfg wordlist target) as [brute events].
  destruct (brute_force cfg), (crawling cfg), (fuzz_patterns cfg);
    cbn [crawler_visited monitor_update emit];
    rewrite ?start_monitoring_visited;
    try destruct (crawler_scan _ _ _) as [[crawl|] visited];
    try destruct (fuzzer_scan _ _ _ _) as [fuzz|];
    cbn [response_cache monitor_update emit set_crawler_visited
         set_response_cache app fst snd];
    rewrite ?app_nil_r, ?start_monitoring_cache, <-?app_assoc;
    try done;
    by destruct (IntelligentFilter.filter_results _ _ _) as [filtered cache].
Qed.

End Rescan.

(** X27.  A target scanned a second time yields nothing, when the
    crawler is off or hands over the same as in the first scan: the
    brute forcer and the fuzzer then find what they found before,
    and [_scan_url] returns the empty list, since the cache of the
    filter already holds a representative for every content class.
    (A seed that is scheduled again therefore adds requests, but no
    results.) *)
Theorem X27_rescan_returns_nothing `{Collaborators} (cfg : ScanConfig)
    (wordlist : list string) (target : string) (depth depth' : Z)
    (st : DeepScanner.ScannerState) :
  let first := DeepScanner._scan_url cfg wordlist target depth st in
  (crawling cfg = true →
   (crawler_scan (timeout cfg) target (DeepScanner.crawler_visited first.2)).1
   = (crawler_scan (timeout cfg) target (DeepScanner.crawler_visited st)).1) →
  (DeepScanner._scan_url cfg wordlist target depth' first.2).1
  = (fun _ => []) <$> first.1.
Proof.
  simpl. intros Hcrawl. rewrite !scan_url_decompose, scan_url_cache.
  assert (gathered cfg wordlist target
            (DeepScanner.crawler_visited
               (DeepScanner._scan_url cfg wordlist target depth st).2)
          = gathered cfg wordlist target (DeepScanner.crawler_visited st))
    as ->.
  { unfold gathered. destruct (crawling cfg); [|done]. by rewrite Hcrawl. }
  destruct (gathered cfg wordlist target _) as [raw|]; [|done]. simpl.
  f_equal.
  unfold IntelligentFilter.filter_results,
    IntelligentFilter._remove_similar_responses.
  set (l := IntelligentFilter._remove_duplicates _).
  rewrite (remove_similar_loop_nothing l); [done|].
  intros r Hr.
  apply (remove_similar_loop_settled [] l (DeepScanner.response_cache st) []);
    [|done].
  by intros ? ?%elem_of_nil.
Qed.

(** X27, an instance: a brute-force scan, the crawler off, of a host
    that answers; the first scan returns a page, the second
    nothing. *)
Lemma X27_rescan_returns_nothing_witness :
  let cfg := set_crawling false default_config in
  let first := @DeepScanner._scan_url home_link_site cfg ["index.html"]
                 "https://t/" 0 DeepScanner.initial_scanner_state in
  first.1 = Some [page "https://t/index.html" 200 10 "https://t/"]
  ∧ (@DeepScanner._scan_url home_link_site cfg ["index.html"] "https://t/" 1
       first.2).1 = Some [].
Proof.
  simpl. split; [reflexivity|].
  apply (@X27_rescan_returns_nothing home_link_site
           (set_crawling false default_config) ["index.html"] "https://t/"
           0 1 DeepScanner.initial_scanner_state).
  intros Hcrawl. discriminate Hcrawl.
Defined.

(** With the crawler on it is otherwise.  Against a host that
    answers, the first scan of a target raises with the crawler,
    which has by then entered the target among the URLs it visited;
    in the second scan the crawler finds the target visited and
    returns nothing, and [_scan_url] returns what the brute forcer
    found. *)
Example rescan_after_crawler_error :
  let first := @DeepScanner._scan_url home_link_site default_config
                 ["index.html"] "https://t/" 0
                 DeepScanner.initial_scanner_state in
  first.1 = None
  ∧ (@DeepScanner._scan_url home_link_site default_config ["index.html"]
       "https://t/" 1 first.2).1
    = Some [page "https://t/index.html" 200 10 "https://t/"].
Proof. split; by vm_compute. Qed.

(** ** The modes of the command line *)

(** X28.  [update_from_args] stores the value of every flag and of
    every option with a default, given or not: the scan modes, the
    recursion switch and depth, the pool size and the delay of the
    configuration are those of the command line, whatever the
    configuration (a configuration file, the defaults of
    [ScanConfig]) said before.  [--hybrid] changes no field that is
    read.  So a command line without [--brute], [--crawl] and
    [--fuzz-patterns] switches every probe source off: [_scan_url]
    then returns the empty list and sends no request. *)
Theorem X28_command_line_sets_the_modes `{Collaborators}
    (parse_int : string → option Z) (args : Cli.Args) (c c' : ScanConfig)
    (min_size max_size : option string) :
  Cli.update_from_args parse_int args c = Some (c', min_size, max_size) →
  (brute_force c' = Cli.arg_brute args
   ∧ crawling c' = Cli.arg_crawl args
   ∧ fuzz_patterns c' = Cli.arg_fuzz_patterns args
   ∧ recursive c' = Cli.arg_recursive args
   ∧ max_depth c' = Cli.arg_depth args
   ∧ threads c' = Cli.arg_threads args
   ∧ delay c' = Cli.arg_delay args)
  ∧ (∀ flag, Cli.update_from_args parse_int (set_hybrid flag args) c
             = Some (c', min_size, max_size))
  ∧ (Cli.arg_brute args = false → Cli.arg_crawl args = false →
     Cli.arg_fuzz_patterns args = false →
     ∀ wordlist target depth st,
       (DeepScanner._scan_url c' wordlist target depth st).1 = Some []
       ∧ requests_of
           (DeepScanner.trace
              (DeepScanner._scan_url c' wordlist target depth st).2)
         = requests_of (DeepScanner.trace st)).
Proof.
  intros Hupdate.
  assert (brute_force c' = Cli.arg_brute args
          ∧ crawling c' = Cli.arg_crawl args
          ∧ fuzz_patterns c' = Cli.arg_fuzz_patterns args
          ∧ recursive c' = Cli.arg_recursive args
          ∧ max_depth c' = Cli.arg_depth args
          ∧ threads c' = Cli.arg_threads args
          ∧ delay c' = Cli.arg_delay args) as Hmodes.
  { unfold Cli.update_from_args in Hupdate.
    repeat case_match; simplify_eq; done. }
  split; [done|]. split; [by destruct args|].
  destruct Hmodes as (Hb & Hc & Hf & _).
  intros Hbrute Hcrawl Hfuzz wordlist target depth st.
  rewrite Hbrute in Hb. rewrite Hcrawl in Hc. rewrite Hfuzz in Hf.
  split.
  - rewrite scan_url_decompose. unfold gathered. by rewrite Hb, Hc, Hf.
  - unfold DeepScanner._scan_url. rewrite Hb, Hc, Hf. simpl.
    unfold DeepScanner.start_monitoring.
    destruct (DeepScanner.is_monitoring st); simpl; [done|].
    by rewrite requests_of_app, app_nil_r.
Qed.

(** X28, an instance: the command line
    [deepdir.py -u https://t/ -w words.txt] on the default
    configuration, in which brute force and crawling are on. *)
Lemma X28_command_line_sets_the_modes_witness :
  let c' := mkScanConfig ["https://t/"] None ["words.txt"]
              ["php"; "html"; "js"; "txt"] false false false 2
              [200; 301; 302; 403] false false 10 0 0 0 10 0
              [200; 301; 302; 403] [404; 429] 0 0 [] [] []
              "DeepDir/5.0" "GET" false in
  brute_force default_config = true
  ∧ crawling default_config = true
  ∧ ∀ wordlist target depth st,
      (@DeepScanner._scan_url home_link_site c' wordlist target depth st).1
      = Some []
      ∧ requests_of
          (DeepScanner.trace
             (@DeepScanner._scan_url home_link_site c' wordlist target depth
                st).2)
        = requests_of (DeepScanner.trace st).
Proof.
  simpl. split; [done|]. split; [done|].
  apply (proj2 (proj2
    (@X28_command_line_sets_the_modes home_link_site (fun _ => None)
       url_and_wordlist default_config _ None None eq_refl)));
    reflexivity.
Defined.

(** ** The scheduler: what is handed to the workers *)

(** X29.  Started with nothing visited, [scan_targets] hands no
    link found by recursion to a worker twice, over all targets of
    the call: the URLs submitted or queued at a depth other than 0
    are pairwise distinct, and each of them is in [visited_urls]. *)
Theorem X29_recursion_links_once `{Collaborators} {W : Type}
    (run : string → Z → W → option (list Result) * W)
    (done : nat → nat → bool) (cfg : ScanConfig) (fuel : nat)
    (targets : list string) (w : W) :
  let st' := (DeepScanner.scan_targets run done cfg fuel targets
                (DeepScanner.initial_state w)).2 in
  NoDup (discovered st')
  ∧ (∀ u, u ∈ discovered st' → u ∈ DeepScanner.visited_urls st')
  ∧ Forall (fun f => 0 ≤ f.2) (DeepScanner.futures st').
Proof.
  simpl.
  destruct (discovered_links_scheduled_once run done cfg fuel targets
              (DeepScanner.initial_state w) (visited_inv_initial w))
    as (Hnd & Hvisited & Hfutures & _).
  by split; [|split].
Qed.

Section NoRecursion.
Import DeepScanner.
Context `{Collaborators} {W : Type}.
Variable run : string → Z → W → option (list Result) * W.
Variable done : nat → nat → bool.
Variable cfg : ScanConfig.
Hypothesis no_recursion : recursive cfg = false.

Lemma enqueue_new_urls_submitted new_urls depth (st : State W) :
  submitted (enqueue_new_urls new_urls depth st) = submitted st.
Proof.
  revert st. induction new_urls as [|u rest IH]; intros st; simpl; [done|].
  case_bool_decide; by rewrite IH.
Qed.

Lemma recurse_into_submitted scan_results depth (st : State W) :
  submitted (recurse_into cfg scan_results depth st).2 = submitted st.
Proof.
  revert st. induction scan_results as [|r rest IH]; intros st; simpl; [done|].
  destruct (_should_recurse cfg r); [|apply IH].
  destruct (_extract_new_urls r); [|done].
  by rewrite IH, enqueue_new_urls_submitted.
Qed.

Lemma process_future_submitted f (st : State W) :
  submitted (process_future run done cfg f st) = submitted st.
Proof.
  destruct f as [[i target] depth]. simpl.
  destruct (done (polls st) i); [|done].
  destruct (run target depth (world st)) as [[scan_results|] w]; [|done].
  set (st1 := mkState _ _ _ _ _ _ _ _).
  destruct (recursive cfg && (depth <? max_depth cfg)); [|done].
  pose proof (recurse_into_submitted scan_results depth st1) as Hs.
  by destruct (recurse_into cfg scan_results depth st1) as [[|] st2].
Qed.

(** Without recursion a completed future adds nothing to the
    queue. *)
Lemma process_future_no_recursion f (st : State W) :
  scan_queue (process_future run done cfg f st) = scan_queue st.
Proof.
  destruct (process_future_queue run done cfg f st) as (new & -> & Hnew).
  destruct new as [|entry new]; [by rewrite app_nil_r|].
  apply Forall_cons in Hnew as [(_ & Hrec & _) _]. congruence.
Qed.

Lemma process_snapshot_no_recursion snapshot (st : State W) :
  let st' := fold_left (fun st f => process_future run done cfg f st)
               snapshot st in
  scan_queue st' = scan_queue st ∧ submitted st' = submitted st.
Proof.
  revert st. induction snapshot as [|f rest IH]; intros st; simpl; [done|].
  destruct (IH (process_future run done cfg f st)) as [-> ->].
  by rewrite process_future_no_recursion, process_future_submitted.
Qed.

(** Submitting moves targets from the queue to the workers. *)
Lemma submit_loop_moves queue (st : State W) :
  let st' := submit_loop cfg queue st in
  submitted_urls st' ++ map fst (scan_queue st')
  = submitted_urls st ++ map fst queue.
Proof.
  revert st. induction queue as [|[target depth] rest IH]; intros st; simpl.
  - done.
  - destruct (Z.of_nat (length (futures st)) <? threads cfg); [|done].
    rewrite IH. unfold submitted_urls. simpl.
    by rewrite map_app, <-app_assoc.
Qed.

Lemma one_round_no_recursion (st : State W) :
  let st' := one_round run done cfg st in
  submitted_urls st' ++ map fst (scan_queue st')
  = submitted_urls st ++ map fst (scan_queue st).
Proof.
  simpl. unfold one_round, next_round, process_completed, submitted_urls.
  simpl.
  destruct (process_snapshot_no_recursion (futures (submit_tasks cfg st))
              (submit_tasks cfg st)) as [-> ->].
  apply submit_loop_moves.
Qed.

Lemma scan_loop_no_recursion fuel (st : State W) :
  let st' := (scan_loop run done cfg fuel st).2 in
  submitted_urls st' ++ map fst (scan_queue st')
  = submitted_urls st ++ map fst (scan_queue st)
  ∧ ((scan_loop run done cfg fuel st).1 = true → scan_queue st' = []).
Proof.
  revert st. induction fuel as [|fuel IH]; intros st; simpl.
  - destruct (finished st) eqn:Hfin; simpl; [|done].
    split; [done|]. intros _. unfold finished in Hfin.
    by destruct (scan_queue st).
  - destruct (finished st) eqn:Hfin; simpl.
    + split; [done|]. intros _. unfold finished in Hfin.
      by destruct (scan_queue st).
    + destruct (IH (one_round run done cfg st)) as [Heq Hq].
      split; [|done]. unfold one_round in Heq. rewrite Heq.
      apply one_round_no_recursion.
Qed.

Lemma scan_target_no_recursion fuel target (st : State W) rs st' :
  scan_target run done cfg fuel target st = (Returned rs, st') →
  submitted_urls st' = submitted_urls st ++ [normalize_target target].
Proof.
  unfold scan_target. destruct (threads cfg <=? 0); [done|].
  set (st0 := mkState _ _ _ _ _ _ _ _).
  destruct (scan_loop_no_recursion fuel st0) as [Heq Hq].
  destruct (scan_loop run done cfg fuel st0) as [[|] st1]; [|done].
  intros [= <- <-]. simpl in *. rewrite Hq in Heq by done.
  by rewrite app_nil_r in Heq.
Qed.

End NoRecursion.

(** X30.  Without recursion a scan that returns has handed exactly
    the targets to the workers, each once, normalised, in the order
    given: a target named twice is scanned twice, and nothing else
    is ever scanned. *)
Theorem X30_no_recursion_one_worker_per_target `{Collaborators} {W : Type}
    (run : string → Z → W → option (list Result) * W)
    (done : nat → nat → bool) (cfg : ScanConfig) (fuel : nat)
    (targets : list string) (st st' : DeepScanner.State W)
    (rs : list Result) :
  recursive cfg = false →
  DeepScanner.scan_targets run done cfg fuel targets st = (Returned rs, st') →
  submitted_urls st'
  = submitted_urls st ++ map DeepScanner.normalize_target targets.
Proof.
  intros Hrec. unfold DeepScanner.scan_targets.
  generalize (@nil Result) as acc. revert st.
  induction targets as [|t rest IH]; intros st acc; simpl.
  - intros [= <- <-]. by rewrite app_nil_r.
  - destruct (DeepScanner.scan_target run done cfg fuel t st)
      as [[rs1| |] st1] eqn:Ht; [|done..].
    intros Hrest%IH. rewrite Hrest.
    rewrite (scan_target_no_recursion run done cfg Hrec _ _ _ _ _ Ht).
    by rewrite <-app_assoc.
Qed.

(** X30, an instance: the same host named twice, with and without
    its scheme. *)
Lemma X30_no_recursion_one_worker_per_target_witness :
  submitted_urls
    (@DeepScanner.scan_targets sample_world unit chain_worker done_at_once
       default_config 2 ["t/"; "https://t/"] (DeepScanner.initial_state tt)).2
  = submitted_urls (DeepScanner.initial_state tt)
    ++ map DeepScanner.normalize_target ["t/"; "https://t/"].
Proof.
  apply (@X30_no_recursion_one_worker_per_target sample_world unit
           chain_worker done_at_once default_config 2 ["t/"; "https://t/"]
           (DeepScanner.initial_state tt) _
           [page "https://t/" 200 120 "/sub"; page "https://t/" 200 120 "/sub"]).
  - reflexivity.
  - vm_compute. reflexivity.
Defined.

(** ** The seed of a scan *)

Section SingleCall.
Import DeepScanner.
Context `{Collaborators} {W : Type}.
Variable run : string → Z → W → option (list Result) * W.
Variable done : nat → nat → bool.
Variable cfg : ScanConfig.
Hypothesis no_recursion : recursive cfg = false.
Hypothesis pool : 0 < threads cfg.




End SingleCall.






(** ** The crawler of the sample hosts *)

(** What a scan of the crawler hands to [_scan_url]. *)
Lemma sample_crawlers_are_the_crawler
    (soup_links extract_js_urls : string → string → list string)
    (in_scope : string → string → bool) (fuel : nat) (cfg : ScanConfig)
    (base_url : string) (visited : gset string) :
  let handed := fun out : Outcome (list Result) * gset string * list Event =>
    (match out.1.1 with Returned rs => Some rs | _ => None end, out.1.2) in
  handed (@CrawlerScan.scan home_link_site None soup_links extract_js_urls
            in_scope (S (S fuel)) cfg base_url visited)
  = @crawler_scan home_link_site (timeout cfg) base_url visited
  ∧ handed (@CrawlerScan.scan sample_world None soup_links extract_js_urls
              in_scope (S (S fuel)) cfg base_url visited)
    = @crawler_scan sample_world (timeout cfg) base_url visited.
Proof.
  simpl. unfold CrawlerScan.scan. split; simpl;
    (destruct (Z.ltb_spec (Z.of_nat (size visited)) 1000) as [Hlt|Hge]; simpl;
     [rewrite orb_false_r; by case_bool_decide|by rewrite orb_true_r]).
Qed.
